(** * swapui: decoders, rolling windows, spot price and deviation monitor

    A shallow embedding of the numeric core of the three scripts
    [price.py], [spotprice.py] and [swapui.py], and the properties their
    specification states about it.

    Modelling conventions.
    - A Python [int] is a [Z].
    - A Python [float] is a value of [PyFloat.t]: an exact rational ([Qc],
      so that equal numbers are equal terms) or one of [inf], [-inf],
      [nan].  Finite arithmetic is exact: rounding, overflow and the sign
      of zero are not represented.  The special values follow IEEE 754 as
      Python exposes it.
    - An operation that can raise returns a [result]; [x / y] raises
      [ZeroDivisionError] when [y] is zero, whatever [x] is.
    - [None] is [Datatypes.None]; [Optional[T]] is [option T].
    - [collections.deque(maxlen=K)] is a [list], oldest entry first. *)

From Stdlib Require Import ZArith QArith Qcanon List Bool Lia Lqa.
Import ListNotations.

Set Implicit Arguments.

(** ** Exceptions and the error monad *)

Inductive exn : Set :=
| ZeroDivisionError
| TransportError
| RuntimeError
| AssertionError.

Inductive result (A : Type) : Type :=
| Ok (a : A)
| Raise (e : exn).

Arguments Ok {A} a.
Arguments Raise {A} e.

Definition bind {A B : Type} (c : result A) (k : A -> result B) : result B :=
  match c with
  | Ok a => k a
  | Raise e => Raise e
  end.

Notation "x <- c ;; k" := (bind c (fun x => k))
  (at level 61, c at next level, right associativity).
Notation "' pat <- c ;; k" := (bind c (fun x => match x with pat => k end))
  (at level 61, pat pattern, c at next level, right associativity).

(** ** Python floats, idealised *)

Module PyFloat.

Inductive t : Set :=
| Fin (q : Qc)
| PInf
| NInf
| NaN.

(** [float(z)] for an [int] [z], also the implicit conversion of an
    [int] operand in mixed arithmetic. *)
Definition of_Z (z : Z) : t := Fin (Q2Qc (inject_Z z)).

Definition is_zero (x : t) : bool :=
  match x with
  | Fin q => Qc_eq_bool q 0
  | _ => false
  end.

(** [bool(x)]: every float but zero is true, [nan] and the infinities
    included. *)
Definition truthy (x : t) : bool := negb (is_zero x).

(** The sign of a float, [None] for [nan]. *)
Definition sign (x : t) : option comparison :=
  match x with
  | Fin q => Some (q ?= 0)%Qc
  | PInf => Some Gt
  | NInf => Some Lt
  | NaN => None
  end.

Definition sign_mul (a b : comparison) : comparison :=
  match a, b with
  | Eq, _ | _, Eq => Eq
  | Gt, Gt | Lt, Lt => Gt
  | Gt, Lt | Lt, Gt => Lt
  end.

(** The infinity of a given sign; zero times infinity is [nan]. *)
Definition inf_of_sign (c : comparison) : t :=
  match c with
  | Gt => PInf
  | Lt => NInf
  | Eq => NaN
  end.

Definition neg (x : t) : t :=
  match x with
  | Fin q => Fin (- q)
  | PInf => NInf
  | NInf => PInf
  | NaN => NaN
  end.

Definition add (x y : t) : t :=
  match x, y with
  | NaN, _ | _, NaN => NaN
  | Fin a, Fin b => Fin (a + b)
  | PInf, NInf | NInf, PInf => NaN
  | PInf, _ | _, PInf => PInf
  | NInf, _ | _, NInf => NInf
  end.

Definition sub (x y : t) : t := add x (neg y).

Definition mul (x y : t) : t :=
  match x, y with
  | Fin a, Fin b => Fin (a * b)
  | _, _ =>
      match sign x, sign y with
      | Some a, Some b => inf_of_sign (sign_mul a b)
      | _, _ => NaN
      end
  end.

(** [x / y].  Python raises on a zero divisor before anything else. *)
Definition div (x y : t) : result t :=
  if is_zero y then Raise ZeroDivisionError
  else
    match x, y with
    | Fin a, Fin b => Ok (Fin (a / b))
    | Fin _, (PInf | NInf) => Ok (Fin 0)
    | (PInf | NInf), Fin _ =>
        match sign x, sign y with
        | Some a, Some b => Ok (inf_of_sign (sign_mul a b))
        | _, _ => Ok NaN
        end
    | _, _ => Ok NaN
    end.

Definition abs (x : t) : t :=
  match x with
  | Fin q => Fin (if Qclt_le_dec q 0 then - q else q)
  | PInf | NInf => PInf
  | NaN => NaN
  end.

(** Three-way comparison; [None] as soon as one side is [nan]. *)
Definition cmp (x y : t) : option comparison :=
  match x, y with
  | NaN, _ | _, NaN => None
  | Fin a, Fin b => Some (a ?= b)%Qc
  | PInf, PInf | NInf, NInf => Some Eq
  | PInf, _ | _, NInf => Some Gt
  | NInf, _ | _, PInf => Some Lt
  end.

(** [x == y], [x != y], [x > y] and [x >= y]. *)
Definition eqb (x y : t) : bool :=
  match cmp x y with Some Eq => true | _ => false end.

Definition neqb (x y : t) : bool := negb (eqb x y).

Definition gtb (x y : t) : bool :=
  match cmp x y with Some Gt => true | _ => false end.

Definition geb (x y : t) : bool :=
  match cmp x y with Some Gt | Some Eq => true | _ => false end.

(** [a / b] for two [int]s: true division, a float. *)
Definition int_truediv (a b : Z) : result t :=
  if (b =? 0)%Z then Raise ZeroDivisionError
  else Ok (Fin (Q2Qc (inject_Z a / inject_Z b))).

(** [sum(xs)]: the start value is the [int] [0], the items are added
    from the left. *)
Definition sum (xs : list t) : t := fold_left add xs (of_Z 0).

(** A float is finite and strictly positive. *)
Definition finite_pos (x : t) : Prop :=
  exists q : Qc, x = Fin q /\ (0 < q)%Qc.

End PyFloat.

Import PyFloat.

(** ** Event payloads *)

(** The arguments of a constant-product [Swap] event: four [uint256]. *)
Record V2SwapArgs : Set := {
  amount0In : Z;
  amount1In : Z;
  amount0Out : Z;
  amount1Out : Z
}.

(** The arguments of a concentrated-liquidity [Swap] event: two [int256]
    deltas and the pool state after the swap. *)
Record V3SwapArgs : Set := {
  amount0 : Z;
  amount1 : Z;
  sqrtPriceX96 : Z;
  liquidity : Z;
  tick : Z
}.

Definition USDT_DECIMALS : Z := 6.
Definition WETH_DECIMALS : Z := 18.

(** The float literal [1e18]. *)
Definition f1e18 : t := of_Z (10 ^ 18).

(** A (price, size) pair, as stored in the windows. *)
Definition entry : Set := (t * t)%type.

(** ** [collections.deque] with a [maxlen] *)

Module Deque.
Section Bounded.
Variable A : Type.
Variable maxlen : nat.

(** [d.append(x)]: the item goes to the right end; when that makes
    the deque longer than [maxlen], one item is dropped from the left
    end. *)
Definition append (d : list A) (x : A) : list A :=
  let d' := d ++ [x] in
  if (maxlen <? length d')%nat then tl d' else d'.

(** [d.extend(xs)]: the items are appended one by one. *)
Definition extend (d : list A) (xs : list A) : list A :=
  fold_left append xs d.

(** [deque(xs, maxlen=maxlen)]: an empty deque extended by [xs]. *)
Definition of_list (xs : list A) : list A := extend [] xs.

(** The last [maxlen] items of a list, in their order. *)
Definition lastn (xs : list A) : list A :=
  skipn (length xs - maxlen) xs.
End Bounded.
End Deque.

(** ** State and exceptions

    The loops mutate their state and may be interrupted by an exception
    at any external call; what was written before the exception stays
    written.  A computation takes the state and returns the state it
    leaves together with its value or the exception raised. *)

Definition M (S A : Type) : Type := S -> result A * S.

Definition ret {S A : Type} (a : A) : M S A := fun s => (Ok a, s).

Definition bindM {S A B : Type} (c : M S A) (k : A -> M S B) : M S B :=
  fun s =>
    match c s with
    | (Ok a, s') => k a s'
    | (Raise e, s') => (Raise e, s')
    end.

(** An expression that may raise, the state untouched. *)
Definition lift {S A : Type} (r : result A) : M S A := fun s => (r, s).

Definition gets {S A : Type} (f : S -> A) : M S A := fun s => (Ok (f s), s).

(** An expression over the state that may raise. *)
Definition reads {S A : Type} (f : S -> result A) : M S A :=
  fun s => (f s, s).

Definition modify {S : Type} (f : S -> S) : M S unit := fun s => (Ok tt, f s).

(** [try: c except Exception as e: h(e)]. *)
Definition try_except {S A : Type} (c : M S A) (h : exn -> M S A) : M S A :=
  fun s =>
    match c s with
    | (Ok a, s') => (Ok a, s')
    | (Raise e, s') => h e s'
    end.

(** [for x in xs: body(x)], left at the first exception. *)
Fixpoint for_each {S X : Type} (xs : list X) (body : X -> M S unit)
  : M S unit :=
  match xs with
  | [] => ret tt
  | x :: xs' => bindM (body x) (fun _ => for_each xs' body)
  end.

Declare Scope m_scope.
Delimit Scope m_scope with M.
Notation "x <~ c ;; k" := (bindM c (fun x => k))
  (at level 61, c at next level, right associativity) : m_scope.
Notation "' pat <~ c ;; k" :=
  (bindM c (fun x => match x with pat => k end))
  (at level 61, pat pattern, c at next level, right associativity) : m_scope.
Notation "c ;;; k" := (bindM c (fun _ => k))
  (at level 61, right associativity) : m_scope.

(** A relation between the state a computation starts in and the state
    it leaves, however it ends. *)
Definition across (S : Type) (R : S -> S -> Prop) (A : Type) (c : M S A)
  : Prop :=
  forall s, R s (snd (c s)).

(** ** The node, as the loops see it

    A connection, a contract object and a log filter are handles; what
    the node answers to each call is an input of the model. *)

Definition Web3 : Set := nat.

Record Contract : Set := {
  c_w3 : Web3;
  c_address : nat
}.

Record Filter : Set := {
  f_id : nat;
  f_fromBlock : Z;
  f_address : nat
}.

Definition UNISWAP_V2_POOL : nat := 2.
Definition UNISWAP_V3_POOL : nat := 3.

(** A log entry handed out by [get_new_entries()]: its block number,
    what [process_log] makes of it -- the event arguments and the
    transaction hash, or an exception -- and what [time.time()] answers
    while the entry is handled. *)
Record Log (Args : Set) : Set := {
  blockNumber : Z;
  process_log : result (Args * nat);
  seen_at : t
}.

(** What the node answers during one pass through the loop body. *)
Record Poll : Set := {
  v2_new_entries : result (list (Log V2SwapArgs));
  v3_new_entries : result (list (Log V3SwapArgs));
  now : t;
  getReserves : result (Z * Z * Z);
  slot0 : result Z
}.

(** What the node answers while a script starts. *)
Record Connect : Set := {
  i_w3 : Web3;
  i_is_connected : bool;
  i_block_number : result Z;
  i_v2_filter : result nat;
  i_v3_filter : result nat
}.

(** What the node answers during one reconnect. *)
Record Reconnect : Set := {
  r_w3 : result Web3;
  r_block_number_v2 : result Z;
  r_v2_filter : result nat;
  r_block_number_v3 : result Z;
  r_v3_filter : result nat
}.

Inductive Venue : Set := V2 | V3.

(** ** spotprice.py *)

Module Spotprice.

Definition VWAP_WINDOW : nat := 20.
Definition SPOT_INTERVAL_SEC : t := of_Z 10.
Definition DEVIATION_WARN_PCT : t := of_Z 1.

Definition vwap (deq : list entry) : result (option t) :=
  match deq with
  | [] => Ok None
  | _ :: _ =>
      let num := sum (map (fun '(p, sz) => mul p sz) deq) in
      let den := sum (map (fun '(_, sz) => sz) deq) in
      if truthy den then q <- div num den ;; Ok (Some q) else Ok None
  end.

Definition pct_diff (a b : option t) : result (option t) :=
  match a, b with
  | Some a, Some b =>
      if eqb b (of_Z 0) then Ok None
      else q <- div (mul (of_Z 100) (sub a b)) b ;; Ok (Some q)
  | _, _ => Ok None
  end.

Definition v2_price_from_swap (ev_args : V2SwapArgs)
  : result (option entry) :=
  let a0in := amount0In ev_args in
  let a1out := amount1Out ev_args in
  if (a0in >? 0)%Z && (a1out >? 0)%Z then
    eth_in <- div (of_Z a0in) f1e18 ;;
    usdt_out <- int_truediv a1out (10 ^ USDT_DECIMALS) ;;
    px <- (if truthy eth_in then div usdt_out eth_in else Ok PInf) ;;
    Ok (Some (px, eth_in))
  else Ok None.

Definition v3_price_from_swap (ev_args : V3SwapArgs)
  : result (option entry) :=
  let a0 := amount0 ev_args in
  let a1 := amount1 ev_args in
  if (a0 >? 0)%Z && (a1 <? 0)%Z then
    eth_in <- div (of_Z a0) f1e18 ;;
    usdt_out <- int_truediv (Z.abs a1) (10 ^ USDT_DECIMALS) ;;
    px <- (if truthy eth_in then div usdt_out eth_in else Ok PInf) ;;
    Ok (Some (px, eth_in))
  else Ok None.

(** The argument is the answer of the [getReserves()] call. *)
Definition v2_spot_price (call : result (Z * Z * Z)) : result t :=
  '(r0, r1, _) <- call ;;
  reserve_eth <- div (of_Z r0) f1e18 ;;
  reserve_usdt <- int_truediv r1 (10 ^ USDT_DECIMALS) ;;
  if truthy reserve_eth then div reserve_usdt reserve_eth else Ok PInf.

(** The argument is the first component of the answer of [slot0()]. *)
Definition v3_spot_price (call : result Z) : result t :=
  sqrtP <- call ;;
  x <- int_truediv sqrtP (2 ^ 96) ;;
  let raw := mul x x in
  Ok (mul raw (of_Z (10 ^ (WETH_DECIMALS - USDT_DECIMALS)))).

(** [d is not None and abs(d) > DEVIATION_WARN_PCT]. *)
Definition exceeds (d : option t) : bool :=
  match d with
  | Some d => gtb (abs d) DEVIATION_WARN_PCT
  | None => false
  end.

(** *** The state of [main] and what it prints *)

Inductive Msg : Set :=
| PrintSwap (v : Venue) (eth_sz px : t) (blk : Z)
| PrintVwap (v : Venue) (n : nat) (x : t)
| PrintSpot (v : Venue) (x : t)
| PrintDeviation (d : t)
| PrintSpotFailed (v : Venue) (e : exn)
| PrintLoopError (e : exn).

Record Main : Set := {
  w3 : Web3;
  v2 : Contract;
  v3 : Contract;
  v2_f : Filter;
  v3_f : Filter;
  v2_win : list entry;
  v3_win : list entry;
  last_spot_t : t;
  stdout : list Msg
}.

Definition set_w3 (x : Web3) (s : Main) : Main :=
  {| w3 := x; v2 := v2 s; v3 := v3 s; v2_f := v2_f s; v3_f := v3_f s;
     v2_win := v2_win s; v3_win := v3_win s;
     last_spot_t := last_spot_t s; stdout := stdout s |}.

Definition set_v2 (x : Contract) (s : Main) : Main :=
  {| w3 := w3 s; v2 := x; v3 := v3 s; v2_f := v2_f s; v3_f := v3_f s;
     v2_win := v2_win s; v3_win := v3_win s;
     last_spot_t := last_spot_t s; stdout := stdout s |}.

Definition set_v3 (x : Contract) (s : Main) : Main :=
  {| w3 := w3 s; v2 := v2 s; v3 := x; v2_f := v2_f s; v3_f := v3_f s;
     v2_win := v2_win s; v3_win := v3_win s;
     last_spot_t := last_spot_t s; stdout := stdout s |}.

Definition set_v2_f (x : Filter) (s : Main) : Main :=
  {| w3 := w3 s; v2 := v2 s; v3 := v3 s; v2_f := x; v3_f := v3_f s;
     v2_win := v2_win s; v3_win := v3_win s;
     last_spot_t := last_spot_t s; stdout := stdout s |}.

Definition set_v3_f (x : Filter) (s : Main) : Main :=
  {| w3 := w3 s; v2 := v2 s; v3 := v3 s; v2_f := v2_f s; v3_f := x;
     v2_win := v2_win s; v3_win := v3_win s;
     last_spot_t := last_spot_t s; stdout := stdout s |}.

Definition set_v2_win (x : list entry) (s : Main) : Main :=
  {| w3 := w3 s; v2 := v2 s; v3 := v3 s; v2_f := v2_f s; v3_f := v3_f s;
     v2_win := x; v3_win := v3_win s;
     last_spot_t := last_spot_t s; stdout := stdout s |}.

Definition set_v3_win (x : list entry) (s : Main) : Main :=
  {| w3 := w3 s; v2 := v2 s; v3 := v3 s; v2_f := v2_f s; v3_f := v3_f s;
     v2_win := v2_win s; v3_win := x;
     last_spot_t := last_spot_t s; stdout := stdout s |}.

Definition set_last_spot_t (x : t) (s : Main) : Main :=
  {| w3 := w3 s; v2 := v2 s; v3 := v3 s; v2_f := v2_f s; v3_f := v3_f s;
     v2_win := v2_win s; v3_win := v3_win s;
     last_spot_t := x; stdout := stdout s |}.

Definition set_stdout (x : list Msg) (s : Main) : Main :=
  {| w3 := w3 s; v2 := v2 s; v3 := v3 s; v2_f := v2_f s; v3_f := v3_f s;
     v2_win := v2_win s; v3_win := v3_win s;
     last_spot_t := last_spot_t s; stdout := x |}.

Local Open Scope m_scope.

Definition print (m : Msg) : M Main unit :=
  modify (fun s => set_stdout (stdout s ++ [m]) s).

(** The two [for log in ...get_new_entries()] loops. *)
Definition poll_v2 (entries : result (list (Log V2SwapArgs)))
  : M Main unit :=
  logs <~ lift entries ;;
  for_each logs (fun log =>
    ' (args, _) <~ lift (process_log log) ;;
    res <~ lift (v2_price_from_swap args) ;;
    match res with
    | None => ret tt
    | Some (px, eth_sz) =>
        modify (fun s =>
          set_v2_win (Deque.append VWAP_WINDOW (v2_win s) (px, eth_sz)) s) ;;;
        print (PrintSwap V2 eth_sz px (blockNumber log))
    end).

Definition poll_v3 (entries : result (list (Log V3SwapArgs)))
  : M Main unit :=
  logs <~ lift entries ;;
  for_each logs (fun log =>
    ' (args, _) <~ lift (process_log log) ;;
    res <~ lift (v3_price_from_swap args) ;;
    match res with
    | None => ret tt
    | Some (px, eth_sz) =>
        modify (fun s =>
          set_v3_win (Deque.append VWAP_WINDOW (v3_win s) (px, eth_sz)) s) ;;;
        print (PrintSwap V3 eth_sz px (blockNumber log))
    end).

Definition print_vwap (v : Venue) (win : Main -> list entry)
  (x : option t) : M Main unit :=
  match x with
  | Some x => n <~ gets (fun s => length (win s)) ;; print (PrintVwap v n x)
  | None => ret tt
  end.

(** One [try: spot = ...; print; compare except: print] block. *)
Definition spot_check (v : Venue) (spot_call : result t)
  (vw : option t) : M Main unit :=
  try_except
    (spot <~ lift spot_call ;;
     print (PrintSpot v spot) ;;;
     match vw with
     | Some _ =>
         d <~ lift (pct_diff vw (Some spot)) ;;
         match d with
         | Some x => if exceeds d then print (PrintDeviation x) else ret tt
         | None => ret tt
         end
     | None => ret tt
     end)
    (fun e => print (PrintSpotFailed v e)).

(** The body of the [try] in [while True]. *)
Definition body (p : Poll) : M Main unit :=
  poll_v2 (v2_new_entries p) ;;;
  poll_v3 (v3_new_entries p) ;;;
  v2_v <~ (w <~ gets v2_win ;; lift (vwap w)) ;;
  v3_v <~ (w <~ gets v3_win ;; lift (vwap w)) ;;
  print_vwap V2 v2_win v2_v ;;;
  print_vwap V3 v3_win v3_v ;;;
  last <~ gets last_spot_t ;;
  if geb (sub (now p) last) SPOT_INTERVAL_SEC then
    spot_check V3 (v3_spot_price (slot0 p)) v3_v ;;;
    spot_check V2 (v2_spot_price (getReserves p)) v2_v ;;;
    modify (set_last_spot_t (now p))
  else ret tt.

(** The [except Exception as e] branch: the connection, the contract
    objects and the filters are made anew. *)
Definition reconnect (r : Reconnect) (e : exn) : M Main unit :=
  print (PrintLoopError e) ;;;
  w <~ lift (r_w3 r) ;;
  modify (set_w3 w) ;;;
  modify (set_v2 {| c_w3 := w; c_address := UNISWAP_V2_POOL |}) ;;;
  modify (set_v3 {| c_w3 := w; c_address := UNISWAP_V3_POOL |}) ;;;
  b2 <~ lift (r_block_number_v2 r) ;;
  id2 <~ lift (r_v2_filter r) ;;
  modify (set_v2_f {| f_id := id2; f_fromBlock := b2 - 10;
                      f_address := UNISWAP_V2_POOL |}) ;;;
  b3 <~ lift (r_block_number_v3 r) ;;
  id3 <~ lift (r_v3_filter r) ;;
  modify (set_v3_f {| f_id := id3; f_fromBlock := b3 - 10;
                      f_address := UNISWAP_V3_POOL |}).

(** One turn of [while True]. *)
Definition iteration (p : Poll) (r : Reconnect) : M Main unit :=
  try_except (body p) (reconnect r).

(** [main] up to its loop. *)
Definition start (c : Connect) : result Main :=
  if negb (i_is_connected c) then Raise AssertionError
  else
    latest <- i_block_number c ;;
    let from_block := Z.max 0 (latest - 50) in
    id2 <- i_v2_filter c ;;
    id3 <- i_v3_filter c ;;
    Ok {| w3 := i_w3 c;
          v2 := {| c_w3 := i_w3 c; c_address := UNISWAP_V2_POOL |};
          v3 := {| c_w3 := i_w3 c; c_address := UNISWAP_V3_POOL |};
          v2_f := {| f_id := id2; f_fromBlock := from_block;
                     f_address := UNISWAP_V2_POOL |};
          v3_f := {| f_id := id3; f_fromBlock := from_block;
                     f_address := UNISWAP_V3_POOL |};
          v2_win := Deque.of_list VWAP_WINDOW [];
          v3_win := Deque.of_list VWAP_WINDOW [];
          last_spot_t := of_Z 0;
          stdout := [] |}.

(** What the loop keeps of the trades: the two windows. *)
Definition same_windows (s s' : Main) : Prop :=
  v2_win s' = v2_win s /\ v3_win s' = v3_win s.

(** A property of windows that holds of both. *)
Definition windows_hold (P : list entry -> Prop) (s : Main) : Prop :=
  P (v2_win s) /\ P (v3_win s).

Definition keeps (P : list entry -> Prop) (s s' : Main) : Prop :=
  windows_hold P s -> windows_hold P s'.

(** The warning lines a deviation gives rise to: one or none. *)
Definition warnings (d : option t) : list Msg :=
  match d with
  | Some x => if exceeds d then [PrintDeviation x] else []
  | None => []
  end.

(** The deviation [main] computes for a venue: none without a VWAP. *)
Definition deviation (vw : option t) (spot : t) : result (option t) :=
  match vw with
  | Some _ => pct_diff vw (Some spot)
  | None => Ok None
  end.

(** [while True] for as many turns as there are answers of the node; an
    exception that leaves the [except] branch ends [main]. *)
Fixpoint run (turns : list (Poll * Reconnect)) : M Main unit :=
  match turns with
  | [] => ret tt
  | (p, r) :: rest => bindM (iteration p r) (fun _ => run rest)
  end.

End Spotprice.

(** ** swapui.py *)

Module Swapui.

Definition VWAP_WINDOW : nat := 30.
Definition SPOT_REFRESH_SEC : t := of_Z 2.

Record ExecTrade : Set := {
  ts : t;
  block : Z;
  pool : Venue;
  eth_size : t;
  price : t;
  tx : nat
}.

Definition vwap (items : list entry) : result (option t) :=
  match items with
  | [] => Ok None
  | _ :: _ =>
      let num := sum (map (fun '(p, sz) => mul p sz) items) in
      let den := sum (map (fun '(_, sz) => sz) items) in
      if truthy den then q <- div num den ;; Ok (Some q) else Ok None
  end.

Definition v2_spot_price (call : result (Z * Z * Z)) : result t :=
  '(r0, r1, _) <- call ;;
  reserve_eth <- div (of_Z r0) f1e18 ;;
  reserve_usdt <- int_truediv r1 (10 ^ USDT_DECIMALS) ;;
  if truthy reserve_eth then div reserve_usdt reserve_eth else Ok PInf.

Definition v3_spot_price (call : result Z) : result t :=
  sqrtP <- call ;;
  x <- int_truediv sqrtP (2 ^ 96) ;;
  let raw := mul x x in
  Ok (mul raw (of_Z (10 ^ (WETH_DECIMALS - USDT_DECIMALS)))).

Definition v2_price_from_swap (args : V2SwapArgs) : result (option entry) :=
  let a0in := amount0In args in
  let a1out := amount1Out args in
  if (a0in >? 0)%Z && (a1out >? 0)%Z then
    eth <- div (of_Z a0in) f1e18 ;;
    usdt <- int_truediv a1out (10 ^ USDT_DECIMALS) ;;
    px <- div usdt eth ;;
    Ok (Some (px, eth))
  else Ok None.

Definition v3_price_from_swap (args : V3SwapArgs) : result (option entry) :=
  let a0 := amount0 args in
  let a1 := amount1 args in
  if (a0 >? 0)%Z && (a1 <? 0)%Z then
    eth <- div (of_Z a0) f1e18 ;;
    usdt <- int_truediv (Z.abs a1) (10 ^ USDT_DECIMALS) ;;
    px <- div usdt eth ;;
    Ok (Some (px, eth))
  else Ok None.

(** *** The engine

    The fields of [Engine] that the background thread works on, and
    [last_spot], the local variable of [_run]. *)

Definition point : Set := (t * t * t * t)%type.

Record Engine : Set := {
  w3 : Web3;
  v2 : Contract;
  v3 : Contract;
  v2_filter : Filter;
  v3_filter : Filter;
  v2_trades : list entry;
  v3_trades : list entry;
  recent_execs : list ExecTrade;
  series : list point;
  v2spot : option t;
  v3spot : option t;
  last_spot : t
}.

Definition set_w3 (x : Web3) (s : Engine) : Engine :=
  {| w3 := x; v2 := v2 s; v3 := v3 s;
     v2_filter := v2_filter s; v3_filter := v3_filter s;
     v2_trades := v2_trades s; v3_trades := v3_trades s;
     recent_execs := recent_execs s; series := series s;
     v2spot := v2spot s; v3spot := v3spot s; last_spot := last_spot s |}.

Definition set_v2 (x : Contract) (s : Engine) : Engine :=
  {| w3 := w3 s; v2 := x; v3 := v3 s;
     v2_filter := v2_filter s; v3_filter := v3_filter s;
     v2_trades := v2_trades s; v3_trades := v3_trades s;
     recent_execs := recent_execs s; series := series s;
     v2spot := v2spot s; v3spot := v3spot s; last_spot := last_spot s |}.

Definition set_v3 (x : Contract) (s : Engine) : Engine :=
  {| w3 := w3 s; v2 := v2 s; v3 := x;
     v2_filter := v2_filter s; v3_filter := v3_filter s;
     v2_trades := v2_trades s; v3_trades := v3_trades s;
     recent_execs := recent_execs s; series := series s;
     v2spot := v2spot s; v3spot := v3spot s; last_spot := last_spot s |}.

Definition set_v2_filter (x : Filter) (s : Engine) : Engine :=
  {| w3 := w3 s; v2 := v2 s; v3 := v3 s;
     v2_filter := x; v3_filter := v3_filter s;
     v2_trades := v2_trades s; v3_trades := v3_trades s;
     recent_execs := recent_execs s; series := series s;
     v2spot := v2spot s; v3spot := v3spot s; last_spot := last_spot s |}.

Definition set_v3_filter (x : Filter) (s : Engine) : Engine :=
  {| w3 := w3 s; v2 := v2 s; v3 := v3 s;
     v2_filter := v2_filter s; v3_filter := x;
     v2_trades := v2_trades s; v3_trades := v3_trades s;
     recent_execs := recent_execs s; series := series s;
     v2spot := v2spot s; v3spot := v3spot s; last_spot := last_spot s |}.

Definition set_v2_trades (x : list entry) (s : Engine) : Engine :=
  {| w3 := w3 s; v2 := v2 s; v3 := v3 s;
     v2_filter := v2_filter s; v3_filter := v3_filter s;
     v2_trades := x; v3_trades := v3_trades s;
     recent_execs := recent_execs s; series := series s;
     v2spot := v2spot s; v3spot := v3spot s; last_spot := last_spot s |}.

Definition set_v3_trades (x : list entry) (s : Engine) : Engine :=
  {| w3 := w3 s; v2 := v2 s; v3 := v3 s;
     v2_filter := v2_filter s; v3_filter := v3_filter s;
     v2_trades := v2_trades s; v3_trades := x;
     recent_execs := recent_execs s; series := series s;
     v2spot := v2spot s; v3spot := v3spot s; last_spot := last_spot s |}.

Definition set_recent_execs (x : list ExecTrade) (s : Engine) : Engine :=
  {| w3 := w3 s; v2 := v2 s; v3 := v3 s;
     v2_filter := v2_filter s; v3_filter := v3_filter s;
     v2_trades := v2_trades s; v3_trades := v3_trades s;
     recent_execs := x; series := series s;
     v2spot := v2spot s; v3spot := v3spot s; last_spot := last_spot s |}.

(** The three writes under the lock at the end of a spot refresh. *)
Definition set_spots (v2s v3s : t) (pt : point) (s : Engine) : Engine :=
  {| w3 := w3 s; v2 := v2 s; v3 := v3 s;
     v2_filter := v2_filter s; v3_filter := v3_filter s;
     v2_trades := v2_trades s; v3_trades := v3_trades s;
     recent_execs := recent_execs s;
     series := Deque.append 600 (series s) pt;
     v2spot := Some v2s; v3spot := Some v3s; last_spot := last_spot s |}.

Definition set_last_spot (x : t) (s : Engine) : Engine :=
  {| w3 := w3 s; v2 := v2 s; v3 := v3 s;
     v2_filter := v2_filter s; v3_filter := v3_filter s;
     v2_trades := v2_trades s; v3_trades := v3_trades s;
     recent_execs := recent_execs s; series := series s;
     v2spot := v2spot s; v3spot := v3spot s; last_spot := x |}.

Local Open Scope m_scope.

Definition record_exec (e : ExecTrade) (s : Engine) : Engine :=
  set_recent_execs (Deque.append 200 (recent_execs s) e) s.

Definition poll_v2 (entries : result (list (Log V2SwapArgs)))
  : M Engine unit :=
  logs <~ lift entries ;;
  for_each logs (fun log =>
    ' (args, hash) <~ lift (process_log log) ;;
    res <~ lift (v2_price_from_swap args) ;;
    match res with
    | Some (px, eth_sz) =>
        modify (fun s =>
          set_v2_trades
            (Deque.append VWAP_WINDOW (v2_trades s) (px, eth_sz)) s) ;;;
        modify (record_exec
          {| ts := seen_at log; block := blockNumber log; pool := V2;
             eth_size := eth_sz; price := px; tx := hash |})
    | None => ret tt
    end).

Definition poll_v3 (entries : result (list (Log V3SwapArgs)))
  : M Engine unit :=
  logs <~ lift entries ;;
  for_each logs (fun log =>
    ' (args, hash) <~ lift (process_log log) ;;
    res <~ lift (v3_price_from_swap args) ;;
    match res with
    | Some (px, eth_sz) =>
        modify (fun s =>
          set_v3_trades
            (Deque.append VWAP_WINDOW (v3_trades s) (px, eth_sz)) s) ;;;
        modify (record_exec
          {| ts := seen_at log; block := blockNumber log; pool := V3;
             eth_size := eth_sz; price := px; tx := hash |})
    | None => ret tt
    end).

(** [vwap(deque(list(self.v2_trades) + list(self.v3_trades),
    maxlen=VWAP_WINDOW))]. *)
Definition combined_vwap (s : Engine) : result (option t) :=
  vwap (Deque.of_list VWAP_WINDOW (v2_trades s ++ v3_trades s)).

(** [comb if comb else float("nan")]. *)
Definition or_nan (comb : option t) : t :=
  match comb with
  | Some x => if truthy x then x else NaN
  | None => NaN
  end.

(** The spot refresh, taken when it is due. *)
Definition spot_refresh (p : Poll) : M Engine unit :=
  last <~ gets last_spot ;;
  if geb (sub (now p) last) SPOT_REFRESH_SEC then
    v2s <~ lift (v2_spot_price (getReserves p)) ;;
    v3s <~ lift (v3_spot_price (slot0 p)) ;;
    comb <~ reads combined_vwap ;;
    modify (set_spots v2s v3s (now p, v2s, v3s, or_nan comb)) ;;;
    modify (set_last_spot (now p))
  else ret tt.

(** The body of the [try] in [_run]. *)
Definition body (p : Poll) : M Engine unit :=
  poll_v2 (v2_new_entries p) ;;;
  poll_v3 (v3_new_entries p) ;;;
  spot_refresh p.

(** The statements of the inner [try] of the [except] branch. *)
Definition rebuild (r : Reconnect) : M Engine unit :=
  w <~ lift (r_w3 r) ;;
  modify (set_w3 w) ;;;
  modify (set_v2 {| c_w3 := w; c_address := UNISWAP_V2_POOL |}) ;;;
  modify (set_v3 {| c_w3 := w; c_address := UNISWAP_V3_POOL |}) ;;;
  b2 <~ lift (r_block_number_v2 r) ;;
  id2 <~ lift (r_v2_filter r) ;;
  modify (set_v2_filter {| f_id := id2; f_fromBlock := b2 - 10;
                           f_address := UNISWAP_V2_POOL |}) ;;;
  b3 <~ lift (r_block_number_v3 r) ;;
  id3 <~ lift (r_v3_filter r) ;;
  modify (set_v3_filter {| f_id := id3; f_fromBlock := b3 - 10;
                           f_address := UNISWAP_V3_POOL |}).

(** The [except Exception] branch: rebuild, and [pass] if that fails. *)
Definition reconnect (r : Reconnect) (_ : exn) : M Engine unit :=
  try_except (rebuild r) (fun _ => ret tt).

(** One turn of [while not self._stop]. *)
Definition iteration (p : Poll) (r : Reconnect) : M Engine unit :=
  try_except (body p) (reconnect r).

(** What [snapshot()] returns, the chart data left as the series. *)
Record Snapshot : Set := {
  v2_vwap : option t;
  v3_vwap : option t;
  v2_spot : option t;
  v3_spot : option t;
  execs : list ExecTrade;
  chart_df : list point
}.

Definition snapshot (s : Engine) : result Snapshot :=
  v2_v <- vwap (v2_trades s) ;;
  v3_v <- vwap (v3_trades s) ;;
  Ok {| v2_vwap := v2_v; v3_vwap := v3_v;
        v2_spot := v2spot s; v3_spot := v3spot s;
        execs := rev (Deque.lastn 20 (recent_execs s));
        chart_df := series s |}.

(** What the engine has accumulated: the two windows, the trade log, the
    chart series and the last spot prices. *)
Definition same_aggregates (s s' : Engine) : Prop :=
  v2_trades s' = v2_trades s /\ v3_trades s' = v3_trades s /\
  recent_execs s' = recent_execs s /\ series s' = series s /\
  v2spot s' = v2spot s /\ v3spot s' = v3spot s.

Definition windows_hold (P : list entry -> Prop) (s : Engine) : Prop :=
  P (v2_trades s) /\ P (v3_trades s).

Definition keeps (P : list entry -> Prop) (s s' : Engine) : Prop :=
  windows_hold P s -> windows_hold P s'.

(** [Engine.__init__], and [last_spot] as [_run] sets it. *)
Definition init (c : Connect) : result Engine :=
  if negb (i_is_connected c) then Raise RuntimeError
  else
    latest <- i_block_number c ;;
    let from_block := Z.max 0 (latest - 50) in
    id2 <- i_v2_filter c ;;
    id3 <- i_v3_filter c ;;
    Ok {| w3 := i_w3 c;
          v2 := {| c_w3 := i_w3 c; c_address := UNISWAP_V2_POOL |};
          v3 := {| c_w3 := i_w3 c; c_address := UNISWAP_V3_POOL |};
          v2_filter := {| f_id := id2; f_fromBlock := from_block;
                          f_address := UNISWAP_V2_POOL |};
          v3_filter := {| f_id := id3; f_fromBlock := from_block;
                          f_address := UNISWAP_V3_POOL |};
          v2_trades := Deque.of_list VWAP_WINDOW [];
          v3_trades := Deque.of_list VWAP_WINDOW [];
          recent_execs := Deque.of_list 200 [];
          series := Deque.of_list 600 [];
          v2spot := None; v3spot := None;
          last_spot := of_Z 0 |}.

(** An engine that has just started, with given windows. *)
Definition engine_with (v2t v3t : list entry) : Engine :=
  {| w3 := 0%nat;
     v2 := {| c_w3 := 0%nat; c_address := UNISWAP_V2_POOL |};
     v3 := {| c_w3 := 0%nat; c_address := UNISWAP_V3_POOL |};
     v2_filter := {| f_id := 0%nat; f_fromBlock := 0;
                     f_address := UNISWAP_V2_POOL |};
     v3_filter := {| f_id := 1%nat; f_fromBlock := 0;
                     f_address := UNISWAP_V3_POOL |};
     v2_trades := v2t; v3_trades := v3t;
     recent_execs := []; series := [];
     v2spot := None; v3spot := None; last_spot := of_Z 0 |}.

(** [_run] for as many turns as there are answers of the node. *)
Fixpoint run (turns : list (Poll * Reconnect)) (s : Engine) : Engine :=
  match turns with
  | [] => s
  | (p, r) :: rest => run rest (snd (iteration p r s))
  end.

End Swapui.

(** ** price.py *)

Module Price.

(** [v and v != float("inf")], the test of the comprehension. *)
Definition kept (v : t) : bool := truthy v && neqb v PInf.

Definition safe_avg (values : list t) : result (option t) :=
  let vals := filter kept values in
  match vals with
  | [] => Ok None
  | _ :: _ =>
      q <- div (sum vals) (of_Z (Z.of_nat (length vals))) ;; Ok (Some q)
  end.

Definition human_usdt (value_wei_like : Z) : result t :=
  int_truediv value_wei_like (10 ^ USDT_DECIMALS).

(** The arguments of a [Transfer] event. *)
Record TransferArgs : Set := {
  t_from : nat;
  t_to : nat;
  t_value : Z
}.

Record TransferDetails : Set := {
  block : Z;
  tx_hash : nat;
  sender : nat;
  recipient : nat;
  amount : t
}.

Definition decode_transfer (log : Log TransferArgs) : result TransferDetails :=
  ' (args, hash) <- process_log log ;;
  let amount_raw := t_value args in
  a <- human_usdt amount_raw ;;
  Ok {| block := blockNumber log; tx_hash := hash;
        sender := t_from args; recipient := t_to args; amount := a |}.

(** *** The transfers in [main]

    The two rolling windows of transfers and what the transfer block of
    the loop prints. *)

Inductive Msg : Set :=
| PrintTransfer (td : TransferDetails)
| PrintTotal5 (total5 : t).

Record Transfers : Set := {
  last5_transfers : list TransferDetails;
  last50_transfers : list TransferDetails;
  stdout : list Msg
}.

Local Open Scope m_scope.

Definition print (m : Msg) : M Transfers unit :=
  modify (fun s =>
    {| last5_transfers := last5_transfers s;
       last50_transfers := last50_transfers s;
       stdout := stdout s ++ [m] |}).

(** The block [# --- USDT Transfers ---] of the loop body. *)
Definition poll_transfers (entries : result (list (Log TransferArgs)))
  : M Transfers unit :=
  logs <~ lift entries ;;
  for_each logs (fun log =>
    td <~ lift (decode_transfer log) ;;
    modify (fun s =>
      {| last5_transfers := last5_transfers s;
         last50_transfers := Deque.append 50 (last50_transfers s) td;
         stdout := stdout s |}) ;;;
    modify (fun s =>
      {| last5_transfers := Deque.append 5 (last5_transfers s) td;
         last50_transfers := last50_transfers s;
         stdout := stdout s |}) ;;;
    print (PrintTransfer td)) ;;;
  n <~ gets (fun s => length (last5_transfers s)) ;;
  if (n =? 0)%nat then ret tt
  else
    total5 <~ gets (fun s => sum (map amount (last5_transfers s))) ;;
    print (PrintTotal5 total5).

(** The transfer windows as [main] creates them. *)
Definition no_transfers : Transfers :=
  {| last5_transfers := Deque.of_list 5 [];
     last50_transfers := Deque.of_list 50 [];
     stdout := [] |}.

End Price.

(** ** Quantities the specification speaks of *)

(** A raw integer amount in human units: divided by ten to the number of
    fractional digits of its asset. *)
Definition human (raw : Z) (decimals : Z) : Qc :=
  Q2Qc (inject_Z raw / inject_Z (10 ^ decimals)).

(** The bounds of the event fields: [uint256] and [int256]. *)
Definition uint256 (z : Z) : Prop := (0 <= z < 2 ^ 256)%Z.
Definition int256 (z : Z) : Prop := (- 2 ^ 255 <= z < 2 ^ 255)%Z.

(** A window within its capacity. *)
Definition within (K : nat) (d : list entry) : Prop := (length d <= K)%nat.

(** A window entry a decoder may have produced: price and size finite and
    strictly positive. *)
Definition sound_entry (e : entry) : Prop :=
  finite_pos (fst e) /\ finite_pos (snd e).

(** The price of an accepted base-to-quote trade, and its size. *)
Definition trade (base quote : Z) : entry :=
  (Fin (human quote 6 / human base 18), Fin (human base 18)).

(** The events of the specification's examples: one unit of the base
    asset in, and two thousand units of the quote asset out, or a given
    quote delta. *)
Definition v2_example : V2SwapArgs :=
  {| amount0In := 10 ^ 18; amount1In := 0;
     amount0Out := 0; amount1Out := 2000 * 10 ^ 6 |}.

Definition v3_example (quote : Z) : V3SwapArgs :=
  {| amount0 := 10 ^ 18; amount1 := quote;
     sqrtPriceX96 := 0; liquidity := 0; tick := 0 |}.

(** The sum of a list of rationals. *)
Fixpoint Qcsum (qs : list Qc) : Qc :=
  match qs with
  | [] => 0%Qc
  | q :: qs' => (q + Qcsum qs')%Qc
  end.

(** The sum of price times weight over the sum of the weights. *)
Definition weighted_mean (w : list (Qc * Qc)) : Qc :=
  (Qcsum (map (fun e => fst e * snd e) w) / Qcsum (map snd w))%Qc.

(** A window entry with finite price and weight. *)
Definition fin_entry (e : Qc * Qc) : entry := (Fin (fst e), Fin (snd e)).

(** The two sums [vwap] forms over a window. *)
Definition num_of (w : list entry) : t :=
  sum (map (fun '(p, sz) => mul p sz) w).
Definition den_of (w : list entry) : t :=
  sum (map (fun '(_, sz) => sz) w).

(** The simple average as the specification words it: only the entries
    equal to the infinity sentinel are left out, every other entry, zero
    included, counts. *)
Definition simple_average_spec (values : list t) : result (option t) :=
  let vals := filter (fun v => neqb v PInf) values in
  match vals with
  | [] => Ok None
  | _ :: _ =>
      q <- div (sum vals) (of_Z (Z.of_nat (length vals))) ;; Ok (Some q)
  end.

(** The arithmetic mean of a list of rationals. *)
Definition Qcmean (qs : list Qc) : Qc :=
  (Qcsum qs / Q2Qc (inject_Z (Z.of_nat (length qs))))%Qc.

Definition nonzero (q : Qc) : bool := negb (Qc_eq_bool q 0).

(** The magnitudes of the normal binary64 numbers: a rational strictly
    between [2^-1022] and [2^1023] is neither too large nor too small for
    a float. *)
Definition in_double_range (q : Qc) : Prop :=
  (/ inject_Z (2 ^ 1022) < q)%Q /\ (q < inject_Z (2 ^ 1023))%Q.

(** ** The trade log and the batches *)

(** The trade record [_run] appends for an accepted swap. *)
Definition exec_of (A : Set) (log : Log A) (v : Venue) (e : entry)
  (hash : nat) : Swapui.ExecTrade :=
  {| Swapui.ts := seen_at log; Swapui.block := blockNumber log;
     Swapui.pool := v; Swapui.eth_size := snd e; Swapui.price := fst e;
     Swapui.tx := hash |}.

(** The (price, size) pair of a trade record. *)
Definition window_entry (x : Swapui.ExecTrade) : entry :=
  (Swapui.price x, Swapui.eth_size x).

Definition venue_eqb (a b : Venue) : bool :=
  match a, b with
  | V2, V2 | V3, V3 => true
  | _, _ => false
  end.

(** The window entries of one venue among trade records. *)
Definition entries_of (v : Venue) (h : list Swapui.ExecTrade) : list entry :=
  map window_entry (filter (fun x => venue_eqb (Swapui.pool x) v) h).

(** The swaps the decoders accept, with the trade they stand for. *)
Definition v2_accept (args : V2SwapArgs) : option entry :=
  if (0 <? amount0In args)%Z && (0 <? amount1Out args)%Z
  then Some (trade (amount0In args) (amount1Out args))
  else None.

Definition v3_accept (args : V3SwapArgs) : option entry :=
  if (0 <? amount0 args)%Z && (amount1 args <? 0)%Z
  then Some (trade (amount0 args) (Z.abs (amount1 args)))
  else None.

(** What a batch of log entries comes to: the accepted swaps of the
    entries before the first one that [process_log] fails on, in the
    order of the batch, and the exception of that entry if there is
    one. *)
Fixpoint batch (A : Set) (accept : A -> option entry) (v : Venue)
  (logs : list (Log A)) : list Swapui.ExecTrade * option exn :=
  match logs with
  | [] => ([], None)
  | log :: rest =>
      match process_log log with
      | Raise e => ([], Some e)
      | Ok (args, hash) =>
          let (xs, end_) := batch accept v rest in
          (match accept args with
           | Some e => exec_of log v e hash :: xs
           | None => xs
           end, end_)
      end
  end.

(** How a loop over a batch ends. *)
Definition ending (end_ : option exn) : result unit :=
  match end_ with
  | None => Ok tt
  | Some e => Raise e
  end.

(** Every field of the engine but the two windows and the trade log. *)
Definition same_but_trades (s s' : Swapui.Engine) : Prop :=
  Swapui.w3 s' = Swapui.w3 s /\ Swapui.v2 s' = Swapui.v2 s /\
  Swapui.v3 s' = Swapui.v3 s /\
  Swapui.v2_filter s' = Swapui.v2_filter s /\
  Swapui.v3_filter s' = Swapui.v3_filter s /\
  Swapui.series s' = Swapui.series s /\
  Swapui.v2spot s' = Swapui.v2spot s /\
  Swapui.v3spot s' = Swapui.v3spot s /\
  Swapui.last_spot s' = Swapui.last_spot s.

(** The windows and the trade log are views of one history of trades. *)
Definition views_of (h : list Swapui.ExecTrade) (s : Swapui.Engine) : Prop :=
  Swapui.recent_execs s = Deque.lastn 200 h /\
  Swapui.v2_trades s = Deque.lastn Swapui.VWAP_WINDOW (entries_of V2 h) /\
  Swapui.v3_trades s = Deque.lastn Swapui.VWAP_WINDOW (entries_of V3 h).

Definition consistent (s : Swapui.Engine) : Prop :=
  exists h, views_of h s /\
            Forall (fun x => sound_entry (window_entry x)) h.

(** The two appends [_run] makes under the lock for a trade. *)
Definition log_trade (v : Venue) (x : Swapui.ExecTrade)
  (s : Swapui.Engine) : Swapui.Engine :=
  Swapui.record_exec x
    (match v with
     | V2 => Swapui.set_v2_trades
               (Deque.append Swapui.VWAP_WINDOW (Swapui.v2_trades s)
                  (window_entry x)) s
     | V3 => Swapui.set_v3_trades
               (Deque.append Swapui.VWAP_WINDOW (Swapui.v3_trades s)
                  (window_entry x)) s
     end).

Definition log_trades (v : Venue) (xs : list Swapui.ExecTrade)
  (s : Swapui.Engine) : Swapui.Engine :=
  fold_left (fun s x => log_trade v x s) xs s.

(** The two windows and the trade log. *)
Definition same_trades (s s' : Swapui.Engine) : Prop :=
  Swapui.v2_trades s' = Swapui.v2_trades s /\
  Swapui.v3_trades s' = Swapui.v3_trades s /\
  Swapui.recent_execs s' = Swapui.recent_execs s.

(** A connection the node answers, and a turn of the loop in which the
    first venue reports the swap of [v2_example]. *)
Definition connect_example : Connect :=
  {| i_w3 := 1%nat; i_is_connected := true;
     i_block_number := Ok 1000%Z;
     i_v2_filter := Ok 7%nat; i_v3_filter := Ok 8%nat |}.

Definition poll_example : Poll :=
  {| v2_new_entries :=
       Ok [ {| blockNumber := 1001%Z;
               process_log := Ok (v2_example, 99%nat);
               seen_at := of_Z 5 |} ];
     v3_new_entries := Ok [];
     now := of_Z 5;
     getReserves := Ok (100 * 10 ^ 18, 180000 * 10 ^ 6, 0)%Z;
     slot0 := Ok (2 ^ 96)%Z |}.

Definition reconnect_example : Reconnect :=
  {| r_w3 := Ok 2%nat;
     r_block_number_v2 := Ok 1002%Z; r_v2_filter := Ok 9%nat;
     r_block_number_v3 := Ok 1002%Z; r_v3_filter := Ok 10%nat |}.

(** The chart and the spot prices go together: before the first refresh
    there is neither, after it the last point of the chart carries the
    two spot prices the engine holds. *)
Definition charted (s : Swapui.Engine) : Prop :=
  (Swapui.v2spot s = None /\ Swapui.v3spot s = None /\ Swapui.series s = [])
  \/
  (exists (a b at_ c : t) (pts : list Swapui.point),
     Swapui.v2spot s = Some a /\ Swapui.v3spot s = Some b /\
     Swapui.series s = pts ++ [(at_, a, b, c)]).

(** ** What [main] of [spotprice.py] prints *)

(** The line printed for an accepted swap. *)
Definition swap_line (x : Swapui.ExecTrade) : Spotprice.Msg :=
  Spotprice.PrintSwap (Swapui.pool x) (Swapui.eth_size x) (Swapui.price x)
    (Swapui.block x).

(** The append and the print [main] makes for an accepted swap. *)
Definition note_trade (v : Venue) (x : Swapui.ExecTrade)
  (s : Spotprice.Main) : Spotprice.Main :=
  Spotprice.set_stdout (Spotprice.stdout s ++ [swap_line x])
    (match v with
     | V2 => Spotprice.set_v2_win
               (Deque.append Spotprice.VWAP_WINDOW (Spotprice.v2_win s)
                  (window_entry x)) s
     | V3 => Spotprice.set_v3_win
               (Deque.append Spotprice.VWAP_WINDOW (Spotprice.v3_win s)
                  (window_entry x)) s
     end).

Definition note_trades (v : Venue) (xs : list Swapui.ExecTrade)
  (s : Spotprice.Main) : Spotprice.Main :=
  fold_left (fun s x => note_trade v x s) xs s.

(** The lines of one spot block: the spot price and at most one warning,
    or the failure. *)
Definition spot_lines (v : Venue) (call : result t) (vw : option t)
  : list Spotprice.Msg :=
  match call with
  | Raise e => [Spotprice.PrintSpotFailed v e]
  | Ok spot =>
      Spotprice.PrintSpot v spot
      :: match Spotprice.deviation vw spot with
         | Ok d => Spotprice.warnings d
         | Raise _ => []
         end
  end.

(** The line of a rolling VWAP, when there is one. *)
Definition vwap_line (v : Venue) (n : nat) (x : option t)
  : list Spotprice.Msg :=
  match x with
  | Some y => [Spotprice.PrintVwap v n y]
  | None => []
  end.

(** The handles and the time of the last spot block. *)
Definition same_but_output (s s' : Spotprice.Main) : Prop :=
  Spotprice.w3 s' = Spotprice.w3 s /\ Spotprice.v2 s' = Spotprice.v2 s /\
  Spotprice.v3 s' = Spotprice.v3 s /\
  Spotprice.v2_f s' = Spotprice.v2_f s /\
  Spotprice.v3_f s' = Spotprice.v3_f s /\
  Spotprice.last_spot_t s' = Spotprice.last_spot_t s.

(** The two polls at the head of a turn of [main]. *)
Definition spotprice_polls (p : Poll) : M Spotprice.Main unit :=
  bindM (Spotprice.poll_v2 (v2_new_entries p))
    (fun _ => Spotprice.poll_v3 (v3_new_entries p)).

(** The lines a turn prints after its polls, from the state the polls
    leave. *)
Definition report_lines (p : Poll) (s1 : Spotprice.Main)
  (v2_v v3_v : option t) : list Spotprice.Msg :=
  vwap_line V2 (length (Spotprice.v2_win s1)) v2_v ++
  vwap_line V3 (length (Spotprice.v3_win s1)) v3_v ++
  (if geb (sub (now p) (Spotprice.last_spot_t s1))
        Spotprice.SPOT_INTERVAL_SEC
   then spot_lines V3 (Spotprice.v3_spot_price (slot0 p)) v3_v ++
        spot_lines V2 (Spotprice.v2_spot_price (getReserves p)) v2_v
   else []).

(** A turn in which the first poll fails, and a reconnect in which the
    node does not tell its block number. *)
Definition failing_poll : Poll :=
  {| v2_new_entries := Raise TransportError;
     v3_new_entries := Ok []; now := of_Z 5;
     getReserves := Ok (1, 1, 0)%Z; slot0 := Ok 1%Z |}.

Definition failing_reconnect : Reconnect :=
  {| r_w3 := Ok 2%nat;
     r_block_number_v2 := Raise TransportError; r_v2_filter := Ok 9%nat;
     r_block_number_v3 := Ok 1002%Z; r_v3_filter := Ok 10%nat |}.

(** ** Further quantities *)





(** ** The transfers of [price.py] *)

(** The short window is the tail of the long one, and the long one is
    within its capacity. *)
Definition tail_of_long (s : Price.Transfers) : Prop :=
  Price.last5_transfers s = Deque.lastn 5 (Price.last50_transfers s) /\
  (length (Price.last50_transfers s) <= 50)%nat.

(** The transfers a batch decodes before its first failure. *)
Fixpoint transfers_of (logs : list (Log Price.TransferArgs))
  : list Price.TransferDetails * option exn :=
  match logs with
  | [] => ([], None)
  | log :: rest =>
      match Price.decode_transfer log with
      | Raise e => ([], Some e)
      | Ok td => let (tds, end_) := transfers_of rest in (td :: tds, end_)
      end
  end.

(** The two appends and the print [main] makes for a transfer. *)
Definition note_transfer (s : Price.Transfers) (td : Price.TransferDetails)
  : Price.Transfers :=
  {| Price.last5_transfers := Deque.append 5 (Price.last5_transfers s) td;
     Price.last50_transfers := Deque.append 50 (Price.last50_transfers s) td;
     Price.stdout := Price.stdout s ++ [Price.PrintTransfer td] |}.

(** A batch of transfers, the second of which cannot be processed. *)
Definition transfer_logs_example : list (Log Price.TransferArgs) :=
  [ {| blockNumber := 1001%Z;
       process_log := Ok ({| Price.t_from := 1%nat; Price.t_to := 2%nat;
                             Price.t_value := 25 * 10 ^ 6 |}, 7%nat);
       seen_at := of_Z 0 |};
    {| blockNumber := 1001%Z;
       process_log := Raise TransportError;
       seen_at := of_Z 0 |} ].

(** A combined VWAP as the chart may show it: [nan], or finite and
    strictly positive. *)
Definition plain (x : t) : Prop := x = NaN \/ finite_pos x.

Definition chart_ok (s : Swapui.Engine) : Prop :=
  Forall (fun pt : Swapui.point => plain (snd pt)) (Swapui.series s).

(** * Properties *)

(** ** Canonical rationals *)

Lemma Qc_eq_bool_iff (x y : Qc) : Qc_eq_bool x y = true <-> x = y.
Proof.
  split; [apply Qc_eq_bool_correct|].
  intros ->. unfold Qc_eq_bool. destruct (Qc_eq_dec y y); congruence.
Qed.

Lemma Qc_eq_bool_false_iff (x y : Qc) : Qc_eq_bool x y = false <-> x <> y.
Proof.
  rewrite <- Qc_eq_bool_iff. destruct (Qc_eq_bool x y); split; congruence.
Qed.

Lemma Q2Qc_div (a b : Q) : (Q2Qc a / Q2Qc b)%Qc = Q2Qc (a / b).
Proof.
  apply Qc_is_canon. unfold Qcdiv, Qcmult, Qcinv, Q2Qc; cbn [this].
  rewrite !Qred_correct. reflexivity.
Qed.

Lemma Q2Qc_pos (q : Q) : (0 < q)%Q -> (0 < Q2Qc q)%Qc.
Proof.
  intros H. unfold Qclt, Q2Qc; cbn [this]. rewrite !Qred_correct. exact H.
Qed.

Lemma Qcdiv_pos (a b : Qc) : (0 < a)%Qc -> (0 < b)%Qc -> (0 < a / b)%Qc.
Proof.
  unfold Qclt, Qcdiv, Qcmult, Qcinv, Q2Qc; cbn [this]. intros Ha Hb.
  rewrite !Qred_correct. apply Qmult_lt_0_compat; [exact Ha|].
  apply Qinv_lt_0_compat. exact Hb.
Qed.

Lemma Qc_pos_neq0 (q : Qc) : (0 < q)%Qc -> q <> 0%Qc.
Proof. intros H E. apply (Qclt_not_eq _ _ H). symmetry. exact E. Qed.

(** Closed equations between canonical rationals, by evaluation. *)
Ltac qc_compute := apply Qc_is_canon; vm_compute; reflexivity.

(** ** Scaling *)

Lemma pow10_pos (d : Z) : (0 <= d)%Z -> (0 < inject_Z (10 ^ d))%Q.
Proof.
  intros Hd. unfold Qlt; cbn [Qnum Qden inject_Z].
  assert (0 < 10 ^ d)%Z by (apply Z.pow_pos_nonneg; lia). lia.
Qed.

Lemma human_pos (raw d : Z) :
  (0 <= d)%Z -> (0 < raw)%Z -> (0 < human raw d)%Qc.
Proof.
  intros Hd Hr. apply Q2Qc_pos. apply Qmult_lt_0_compat.
  - unfold Qlt; cbn [Qnum Qden inject_Z]. lia.
  - apply Qinv_lt_0_compat. apply pow10_pos. exact Hd.
Qed.

Lemma human_0 (d : Z) : human 0 d = 0%Qc.
Proof.
  unfold human. apply Q2Qc_eq_iff. unfold Qdiv. apply Qmult_0_l.
Qed.

Lemma human_eq0 (raw d : Z) :
  (0 <= d)%Z -> human raw d = 0%Qc -> raw = 0%Z.
Proof.
  intros Hd H. unfold human in H. apply Q2Qc_eq_iff in H.
  pose proof (pow10_pos Hd) as Hp.
  destruct (Z.eq_dec raw 0) as [E|N]; [exact E|exfalso].
  apply (Qmult_integral _ _) in H. destruct H as [H|H].
  - unfold Qeq in H; cbn [Qnum Qden inject_Z] in H. lia.
  - assert (0 < / inject_Z (10 ^ d))%Q by (apply Qinv_lt_0_compat; exact Hp).
    rewrite H in H0. exact (Qlt_irrefl _ H0).
Qed.

(** ** Float operations on finite values *)

Lemma is_zero_Fin (q : Qc) : is_zero (Fin q) = false <-> q <> 0%Qc.
Proof. apply Qc_eq_bool_false_iff. Qed.

Lemma truthy_Fin (q : Qc) : truthy (Fin q) = true <-> q <> 0%Qc.
Proof.
  unfold truthy. rewrite negb_true_iff. apply is_zero_Fin.
Qed.

Lemma div_Fin (a b : Qc) :
  b <> 0%Qc -> div (Fin a) (Fin b) = Ok (Fin (a / b)).
Proof.
  intros Hb. unfold div. apply is_zero_Fin in Hb. rewrite Hb. reflexivity.
Qed.

Lemma div_by_zero (x : t) : div x (Fin 0) = Raise ZeroDivisionError.
Proof. reflexivity. Qed.

Lemma div_1e18 (z : Z) : div (of_Z z) f1e18 = Ok (Fin (human z 18)).
Proof.
  unfold of_Z, f1e18, of_Z. rewrite div_Fin.
  - rewrite Q2Qc_div. reflexivity.
  - apply Qc_pos_neq0. apply Q2Qc_pos. apply (pow10_pos (d := 18)). lia.
Qed.

Lemma int_truediv_usdt (z : Z) :
  int_truediv z (10 ^ USDT_DECIMALS) = Ok (Fin (human z 6)).
Proof. reflexivity. Qed.

Lemma finite_pos_Fin (q : Qc) : finite_pos (Fin q) <-> (0 < q)%Qc.
Proof.
  split.
  - intros (q' & E & H). injection E as ->. exact H.
  - intros H. exists q. split; [reflexivity|exact H].
Qed.

(** ** The decoders *)

Lemma priced_guarded (base quote : Z) :
  (0 < base)%Z ->
  (eth_in <- div (of_Z base) f1e18 ;;
   usdt_out <- int_truediv quote (10 ^ USDT_DECIMALS) ;;
   px <- (if truthy eth_in then div usdt_out eth_in else Ok PInf) ;;
   Ok (Some (px, eth_in))) = Ok (Some (trade base quote)).
Proof.
  intros Hb. rewrite div_1e18, int_truediv_usdt. cbn [bind].
  assert (Hnz : human base 18 <> 0%Qc)
    by (apply Qc_pos_neq0, human_pos; lia).
  rewrite (proj2 (truthy_Fin _) Hnz), (div_Fin _ Hnz). reflexivity.
Qed.

Lemma priced_unguarded (base quote : Z) :
  (0 < base)%Z ->
  (eth <- div (of_Z base) f1e18 ;;
   usdt <- int_truediv quote (10 ^ USDT_DECIMALS) ;;
   px <- div usdt eth ;;
   Ok (Some (px, eth))) = Ok (Some (trade base quote)).
Proof.
  intros Hb. rewrite div_1e18, int_truediv_usdt. cbn [bind].
  assert (Hnz : human base 18 <> 0%Qc)
    by (apply Qc_pos_neq0, human_pos; lia).
  rewrite (div_Fin _ Hnz). reflexivity.
Qed.

Lemma v2_guard (a b : Z) :
  (a >? 0)%Z && (b >? 0)%Z = (0 <? a)%Z && (0 <? b)%Z.
Proof. rewrite !Z.gtb_ltb. reflexivity. Qed.

Lemma v2_decoders (args : V2SwapArgs) :
  let a0in := amount0In args in
  let a1out := amount1Out args in
  let decoded :=
    if (0 <? a0in)%Z && (0 <? a1out)%Z then Some (trade a0in a1out)
    else None in
  Spotprice.v2_price_from_swap args = Ok decoded /\
  Swapui.v2_price_from_swap args = Ok decoded.
Proof.
  intros a0in a1out decoded. subst decoded.
  unfold Spotprice.v2_price_from_swap, Swapui.v2_price_from_swap.
  fold a0in a1out. rewrite v2_guard.
  destruct (0 <? a0in)%Z eqn:H0; cbn [andb]; [|split; reflexivity].
  destruct (0 <? a1out)%Z eqn:H1; [|split; reflexivity].
  apply Z.ltb_lt in H0.
  split; [apply priced_guarded|apply priced_unguarded]; exact H0.
Qed.

Lemma v3_decoders (args : V3SwapArgs) :
  let a0 := amount0 args in
  let a1 := amount1 args in
  let decoded :=
    if (0 <? a0)%Z && (a1 <? 0)%Z then Some (trade a0 (Z.abs a1))
    else None in
  Spotprice.v3_price_from_swap args = Ok decoded /\
  Swapui.v3_price_from_swap args = Ok decoded.
Proof.
  intros a0 a1 decoded. subst decoded.
  unfold Spotprice.v3_price_from_swap, Swapui.v3_price_from_swap.
  fold a0 a1. rewrite Z.gtb_ltb.
  destruct (0 <? a0)%Z eqn:H0; cbn [andb]; [|split; reflexivity].
  destruct (a1 <? 0)%Z eqn:H1; [|split; reflexivity].
  apply Z.ltb_lt in H0.
  split; [apply priced_guarded|apply priced_unguarded]; exact H0.
Qed.

Lemma human_scaled (k d : Z) :
  (0 <= d)%Z -> human (k * 10 ^ d) d = Q2Qc (inject_Z k).
Proof.
  intros Hd. unfold human. apply Q2Qc_eq_iff.
  pose proof (pow10_pos Hd) as Hp. rewrite inject_Z_mult.
  apply Qdiv_mult_l. intros E. rewrite E in Hp. exact (Qlt_irrefl _ Hp).
Qed.

Lemma Qcdiv_1_r (x : Qc) : (x / 1)%Qc = x.
Proof. field. exact Q_apart_0_1. Qed.

Lemma trade_example (k : Z) :
  trade (10 ^ 18) (k * 10 ^ 6) = (of_Z k, of_Z 1).
Proof.
  unfold trade, of_Z.
  change (10 ^ 18)%Z with (1 * 10 ^ 18)%Z.
  rewrite !human_scaled by lia. rewrite Qcdiv_1_r. reflexivity.
Qed.

(** C1.  The constant-product decoder yields a record exactly when
    [amount0In > 0] and [amount1Out > 0]; its price is then the quote
    amount scaled by ten to the minus six, divided by the base amount
    scaled by ten to the minus eighteen, and its size is the scaled base
    amount.  One base unit in and two thousand quote units out decode to
    size 1, quote amount 2000 and price 2000; an event with
    [amount0In = 0] is filtered out.  Both scripts decode alike. *)
Theorem v2_price_from_swap_spec :
  (forall args : V2SwapArgs,
     let a0in := amount0In args in
     let a1out := amount1Out args in
     let decoded :=
       if (0 <? a0in)%Z && (0 <? a1out)%Z
       then Some (Fin (human a1out 6 / human a0in 18), Fin (human a0in 18))
       else None in
     Spotprice.v2_price_from_swap args = Ok decoded /\
     Swapui.v2_price_from_swap args = Ok decoded) /\
  (Spotprice.v2_price_from_swap v2_example = Ok (Some (of_Z 2000, of_Z 1)) /\
   Swapui.v2_price_from_swap v2_example = Ok (Some (of_Z 2000, of_Z 1)) /\
   Fin (human (amount0In v2_example) 18) = of_Z 1 /\
   Fin (human (amount1Out v2_example) 6) = of_Z 2000) /\
  (forall args : V2SwapArgs,
     amount0In args = 0%Z ->
     Spotprice.v2_price_from_swap args = Ok None /\
     Swapui.v2_price_from_swap args = Ok None).
Proof.
  split; [exact v2_decoders|split].
  - pose proof (v2_decoders v2_example) as [H1 H2].
    cbn [amount0In amount1Out v2_example] in H1, H2.
    change ((0 <? 10 ^ 18)%Z && (0 <? 2000 * 10 ^ 6)%Z) with true in H1, H2.
    rewrite trade_example in H1, H2.
    repeat split; try assumption; unfold of_Z; f_equal; qc_compute.
  - intros args E. pose proof (v2_decoders args) as H.
    cbv zeta in H. rewrite E in H. exact H.
Qed.

(** C2.  The concentrated-liquidity decoder yields a record exactly when
    [amount0 > 0] and [amount1 < 0]; its price is then [|amount1|] scaled
    by ten to the minus six, divided by [|amount0|] scaled by ten to the
    minus eighteen.  Deltas [+1e18] and [-1800e6] decode to price 1800;
    deltas [+1e18] and [+500e6] are filtered out. *)
Theorem v3_price_from_swap_spec :
  (forall args : V3SwapArgs,
     let a0 := amount0 args in
     let a1 := amount1 args in
     let decoded :=
       if (0 <? a0)%Z && (a1 <? 0)%Z
       then Some (Fin (human (Z.abs a1) 6 / human (Z.abs a0) 18),
                  Fin (human a0 18))
       else None in
     Spotprice.v3_price_from_swap args = Ok decoded /\
     Swapui.v3_price_from_swap args = Ok decoded) /\
  (Spotprice.v3_price_from_swap (v3_example (- (1800 * 10 ^ 6)))
     = Ok (Some (of_Z 1800, of_Z 1)) /\
   Swapui.v3_price_from_swap (v3_example (- (1800 * 10 ^ 6)))
     = Ok (Some (of_Z 1800, of_Z 1))) /\
  (Spotprice.v3_price_from_swap (v3_example (500 * 10 ^ 6)) = Ok None /\
   Swapui.v3_price_from_swap (v3_example (500 * 10 ^ 6)) = Ok None).
Proof.
  split; [|split].
  - intros args a0 a1 decoded. subst decoded.
    pose proof (v3_decoders args) as H. cbv zeta in H. fold a0 a1 in H.
    destruct (0 <? a0)%Z eqn:H0; cbn [andb] in *; [|exact H].
    apply Z.ltb_lt in H0. rewrite (Z.abs_eq a0) by lia. exact H.
  - pose proof (v3_decoders (v3_example (- (1800 * 10 ^ 6)))) as H.
    cbn [amount0 amount1 v3_example] in H.
    change (Z.abs (- (1800 * 10 ^ 6))) with (1800 * 10 ^ 6)%Z in H.
    change ((0 <? 10 ^ 18)%Z && (- (1800 * 10 ^ 6) <? 0)%Z) with true in H.
    rewrite trade_example in H. exact H.
  - split; reflexivity.
Qed.


(** ** The volume-weighted average *)

Lemma of_Z_0 : of_Z 0 = Fin 0.
Proof. reflexivity. Qed.

Lemma fold_add_Fin (qs : list Qc) (a : Qc) :
  fold_left add (map Fin qs) (Fin a) = Fin (a + Qcsum qs).
Proof.
  revert a. induction qs as [|q qs IH]; intros a; cbn [map fold_left Qcsum].
  - rewrite Qcplus_0_r. reflexivity.
  - cbn [add]. rewrite IH, Qcplus_assoc. reflexivity.
Qed.

Lemma sum_Fin (qs : list Qc) : sum (map Fin qs) = Fin (Qcsum qs).
Proof.
  unfold sum. rewrite of_Z_0, fold_add_Fin, Qcplus_0_l. reflexivity.
Qed.

Lemma num_of_fin (w : list (Qc * Qc)) :
  num_of (map fin_entry w) = Fin (Qcsum (map (fun e => fst e * snd e)%Qc w)).
Proof.
  unfold num_of. rewrite map_map, <- sum_Fin, map_map. reflexivity.
Qed.

Lemma den_of_fin (w : list (Qc * Qc)) :
  den_of (map fin_entry w) = Fin (Qcsum (map snd w)).
Proof.
  unfold den_of. rewrite map_map, <- sum_Fin, map_map. reflexivity.
Qed.

(** A division whose divisor is not zero does not raise. *)
Lemma div_total (x y : t) :
  is_zero y = false -> exists v, div x y = Ok v.
Proof.
  intros H. unfold div. rewrite H.
  destruct x, y; cbn; try (eexists; reflexivity);
    match goal with |- context [(?q ?= 0)%Qc] =>
      destruct (q ?= 0)%Qc; eexists; reflexivity end.
Qed.

Lemma vwaps_agree (w : list entry) : Swapui.vwap w = Spotprice.vwap w.
Proof. reflexivity. Qed.

Lemma vwap_unfold (w : list entry) :
  Spotprice.vwap w =
  match w with
  | [] => Ok None
  | _ :: _ =>
      if is_zero (den_of w) then Ok None
      else q <- div (num_of w) (den_of w) ;; Ok (Some q)
  end.
Proof.
  destruct w as [|e w]; [reflexivity|].
  unfold Spotprice.vwap, truthy. fold (num_of (e :: w)) (den_of (e :: w)).
  destruct (is_zero (den_of (e :: w))); reflexivity.
Qed.

(** [vwap] never raises: its division is guarded. *)
Lemma vwap_total (w : list entry) : exists r, Spotprice.vwap w = Ok r.
Proof.
  rewrite vwap_unfold. destruct w as [|e w]; [eexists; reflexivity|].
  destruct (is_zero (den_of (e :: w))) eqn:Hz; [eexists; reflexivity|].
  destruct (div_total (num_of (e :: w)) _ Hz) as [v Hv].
  rewrite Hv. eexists; reflexivity.
Qed.

Lemma vwap_fin (w : list (Qc * Qc)) :
  Spotprice.vwap (map fin_entry w) =
  Ok (match w with
      | [] => None
      | _ :: _ =>
          if Qc_eq_bool (Qcsum (map snd w)) 0 then None
          else Some (Fin (weighted_mean w))
      end).
Proof.
  rewrite vwap_unfold. destruct w as [|e w]; [reflexivity|].
  set (ws := e :: w). change (map fin_entry ws) with (fin_entry e :: map fin_entry w).
  cbv iota. change (fin_entry e :: map fin_entry w) with (map fin_entry ws).
  rewrite num_of_fin, den_of_fin. cbn [is_zero].
  destruct (Qc_eq_bool (Qcsum (map snd ws)) 0) eqn:Hz; [reflexivity|].
  apply Qc_eq_bool_false_iff in Hz. rewrite (div_Fin _ Hz). reflexivity.
Qed.

Lemma vwap_example :
  Spotprice.vwap [(of_Z 10, of_Z 2); (of_Z 20, of_Z 1)]
  = Ok (Some (Fin (Q2Qc (40 # 3)))).
Proof.
  change [(of_Z 10, of_Z 2); (of_Z 20, of_Z 1)]
    with (map fin_entry
            [(Q2Qc (inject_Z 10), Q2Qc (inject_Z 2));
             (Q2Qc (inject_Z 20), Q2Qc (inject_Z 1))]).
  rewrite vwap_fin.
  match goal with |- context [Qc_eq_bool ?a ?b] =>
    replace (Qc_eq_bool a b) with false
      by (symmetry; apply Qc_eq_bool_false_iff; intros E;
          apply (f_equal this) in E; vm_compute in E; discriminate)
  end.
  do 3 f_equal; qc_compute.
Qed.

(** C3.  [vwap] returns the sum of price times weight over the sum of the
    weights when the window is not empty and the weight sum is not zero,
    and [None] when the window is empty or the weight sum is zero.  Over
    [(10, 2), (20, 1)] it is 40/3; over the empty window it is [None].
    The first part speaks of any window, the second of windows of finite
    entries, where the two sums are the sums of rationals. *)
Theorem vwap_spec :
  (forall w : list entry,
     Swapui.vwap w = Spotprice.vwap w /\
     (w = [] -> Spotprice.vwap w = Ok None) /\
     (w <> [] -> is_zero (den_of w) = true -> Spotprice.vwap w = Ok None) /\
     (w <> [] -> is_zero (den_of w) = false ->
      exists v, div (num_of w) (den_of w) = Ok v /\
                Spotprice.vwap w = Ok (Some v))) /\
  (forall w : list (Qc * Qc),
     (w <> [] -> Qcsum (map snd w) <> 0%Qc ->
      Spotprice.vwap (map fin_entry w) = Ok (Some (Fin (weighted_mean w)))) /\
     (w = [] \/ Qcsum (map snd w) = 0%Qc ->
      Spotprice.vwap (map fin_entry w) = Ok None)) /\
  Spotprice.vwap [(of_Z 10, of_Z 2); (of_Z 20, of_Z 1)]
    = Ok (Some (Fin (Q2Qc (40 # 3)))) /\
  Spotprice.vwap [] = Ok None.
Proof.
  split; [|split; [|split]].
  - intros w. split; [apply vwaps_agree|].
    rewrite vwap_unfold. split; [intros ->; reflexivity|].
    split; intros Hne Hz; (destruct w as [|e w]; [congruence|]);
      rewrite Hz; [reflexivity|].
    destruct (div_total (num_of (e :: w)) _ Hz) as [v Hv].
    exists v. rewrite Hv. split; reflexivity.
  - intros w. rewrite vwap_fin. split.
    + intros Hne Hz. destruct w as [|e w]; [congruence|].
      apply Qc_eq_bool_false_iff in Hz. rewrite Hz. reflexivity.
    + intros [->|Hz]; [reflexivity|]. destruct w as [|e w]; [reflexivity|].
      apply Qc_eq_bool_iff in Hz. rewrite Hz. reflexivity.
  - exact vwap_example.
  - reflexivity.
Qed.

(** ** Bounded deques *)

Section DequeFacts.
Variable A : Type.
Variable K : nat.

Lemma lastn_short (xs : list A) :
  (length xs <= K)%nat -> Deque.lastn K xs = xs.
Proof.
  intros H. unfold Deque.lastn.
  replace (length xs - K)%nat with 0%nat by lia. reflexivity.
Qed.

Lemma lastn_length (xs : list A) :
  length (Deque.lastn K xs) = Nat.min K (length xs).
Proof. unfold Deque.lastn. rewrite length_skipn. lia. Qed.

(** The last [K] items are a suffix: what is dropped is at the front. *)
Lemma lastn_suffix (xs : list A) :
  firstn (length xs - K) xs ++ Deque.lastn K xs = xs.
Proof. apply firstn_skipn. Qed.

Lemma lastn_drop_head (y : A) (l xs : list A) :
  (K <= length l)%nat ->
  Deque.lastn K (l ++ xs) = Deque.lastn K ((y :: l) ++ xs).
Proof.
  intros H. unfold Deque.lastn. cbn [app length].
  rewrite length_app.
  replace (S (length l + length xs) - K)%nat
    with (S (length l + length xs - K)) by lia.
  reflexivity.
Qed.

Lemma append_length (d : list A) (x : A) :
  (length d <= K)%nat -> (length (Deque.append K d x) <= K)%nat.
Proof.
  intros H. unfold Deque.append.
  destruct (K <? length (d ++ [x]))%nat eqn:E.
  - destruct d as [|y d]; cbn [app tl length] in *; [lia|].
    rewrite length_app. cbn [length]. lia.
  - apply Nat.ltb_ge in E. exact E.
Qed.

(** Appending to a full deque drops its oldest item. *)
Lemma append_full (y : A) (d : list A) (x : A) :
  length (y :: d) = K -> Deque.append K (y :: d) x = d ++ [x].
Proof.
  intros H. unfold Deque.append.
  replace (K <? length ((y :: d) ++ [x]))%nat with true; [reflexivity|].
  symmetry. apply Nat.ltb_lt. rewrite length_app. cbn [length] in *. lia.
Qed.

(** Appending to a deque that has room keeps every item. *)
Lemma append_room (d : list A) (x : A) :
  (length d < K)%nat -> Deque.append K d x = d ++ [x].
Proof.
  intros H. unfold Deque.append.
  replace (K <? length (d ++ [x]))%nat with false; [reflexivity|].
  symmetry. apply Nat.ltb_ge. rewrite length_app. cbn [length]. lia.
Qed.

Lemma append_lastn (d : list A) (x : A) (xs : list A) :
  (length d <= K)%nat ->
  Deque.lastn K (Deque.append K d x ++ xs) = Deque.lastn K (d ++ x :: xs).
Proof.
  intros H. replace (d ++ x :: xs) with ((d ++ [x]) ++ xs)
    by (rewrite <- app_assoc; reflexivity).
  unfold Deque.append.
  destruct (K <? length (d ++ [x]))%nat eqn:E; [|reflexivity].
  apply Nat.ltb_lt in E. rewrite length_app in E. cbn [length] in E.
  destruct d as [|y d]; cbn [app tl length] in *.
  - assert (K = 0)%nat as -> by lia. unfold Deque.lastn.
    cbn [app length]. rewrite !Nat.sub_0_r.
    rewrite (skipn_cons (length xs) x xs). reflexivity.
  - apply lastn_drop_head. rewrite length_app. cbn [length]. lia.
Qed.

Lemma extend_lastn (xs d : list A) :
  (length d <= K)%nat -> Deque.extend K d xs = Deque.lastn K (d ++ xs).
Proof.
  revert d. induction xs as [|x xs IH]; intros d H.
  - cbn. rewrite app_nil_r. symmetry. apply lastn_short. exact H.
  - change (Deque.extend K d (x :: xs))
      with (Deque.extend K (Deque.append K d x) xs).
    rewrite IH by (apply append_length; exact H).
    apply append_lastn. exact H.
Qed.

Lemma of_list_lastn (xs : list A) : Deque.of_list K xs = Deque.lastn K xs.
Proof.
  unfold Deque.of_list. rewrite extend_lastn by (cbn; lia). reflexivity.
Qed.

End DequeFacts.


(** ** Reasoning about the loops

    A relation between the state before and the state after that is
    reflexive and transitive holds across a computation as soon as it
    holds across each of its writes, whether the computation ends
    normally or by an exception. *)

Section Across.
Variable S : Type.
Variable R : S -> S -> Prop.
Hypothesis R_refl : forall s, R s s.
Hypothesis R_trans : forall s1 s2 s3, R s1 s2 -> R s2 s3 -> R s1 s3.

Lemma across_ret (A : Type) (a : A) : across R (ret a).
Proof. intros s. apply R_refl. Qed.

Lemma across_lift (A : Type) (r : result A) : across R (lift r).
Proof. intros s. apply R_refl. Qed.

Lemma across_gets (A : Type) (f : S -> A) : across R (gets f).
Proof. intros s. apply R_refl. Qed.

Lemma across_reads (A : Type) (f : S -> result A) : across R (reads f).
Proof. intros s. apply R_refl. Qed.

Lemma across_modify (f : S -> S) :
  (forall s, R s (f s)) -> across R (modify f).
Proof. intros H s. apply H. Qed.

Lemma across_bind (A B : Type) (c : M S A) (k : A -> M S B) :
  across R c -> (forall a, across R (k a)) -> across R (bindM c k).
Proof.
  intros Hc Hk s. unfold bindM. specialize (Hc s).
  destruct (c s) as [[a|e] s']; cbn [snd] in *; [|exact Hc].
  apply (R_trans Hc). apply Hk.
Qed.

(** After [lift r] the continuation only runs on the value of [r]. *)
Lemma across_bind_lift (A B : Type) (r : result A) (k : A -> M S B) :
  (forall a, r = Ok a -> across R (k a)) -> across R (bindM (lift r) k).
Proof.
  intros Hk s. unfold bindM, lift.
  destruct r as [a|e]; cbn [snd]; [|apply R_refl].
  apply (Hk a eq_refl).
Qed.

Lemma across_try (A : Type) (c : M S A) (h : exn -> M S A) :
  across R c -> (forall e, across R (h e)) -> across R (try_except c h).
Proof.
  intros Hc Hh s. unfold try_except. specialize (Hc s).
  destruct (c s) as [[a|e] s']; cbn [snd] in *; [exact Hc|].
  apply (R_trans Hc). apply Hh.
Qed.

Lemma across_for_each (X : Type) (xs : list X) (body : X -> M S unit) :
  (forall x, In x xs -> across R (body x)) -> across R (for_each xs body).
Proof.
  induction xs as [|x xs IH]; intros H; cbn [for_each].
  - apply across_ret.
  - apply across_bind.
    + apply H. left. reflexivity.
    + intros _. apply IH. intros y Hy. apply H. right. exact Hy.
Qed.

Lemma across_if (A : Type) (b : bool) (c1 c2 : M S A) :
  across R c1 -> across R c2 -> across R (if b then c1 else c2).
Proof. intros H1 H2. destruct b; assumption. Qed.

End Across.

Ltac across_step :=
  match goal with
  | |- across _ (ret _) => apply across_ret
  | |- across _ (lift _) => apply across_lift
  | |- across _ (gets _) => apply across_gets
  | |- across _ (reads _) => apply across_reads
  | |- across _ (bindM (lift _) _) => apply across_bind_lift
  | |- across _ (bindM _ _) => apply across_bind
  | |- across _ (try_except _ _) => apply across_try
  | |- across _ (for_each _ _) => apply across_for_each
  | |- across _ (if _ then _ else _) => apply across_if
  | |- across _ (match ?x with _ => _ end) => destruct x
  | |- across _ (modify _) => apply across_modify
  | |- forall _, _ => intro
  end.

(** ** What a reconnect leaves alone *)

Lemma same_windows_refl (s : Spotprice.Main) : Spotprice.same_windows s s.
Proof. split; reflexivity. Qed.

Lemma same_windows_trans (s1 s2 s3 : Spotprice.Main) :
  Spotprice.same_windows s1 s2 -> Spotprice.same_windows s2 s3 ->
  Spotprice.same_windows s1 s3.
Proof. intros [A1 A2] [B1 B2]. split; congruence. Qed.

Lemma same_aggregates_refl (s : Swapui.Engine) : Swapui.same_aggregates s s.
Proof. repeat split. Qed.

Lemma same_aggregates_trans (s1 s2 s3 : Swapui.Engine) :
  Swapui.same_aggregates s1 s2 -> Swapui.same_aggregates s2 s3 ->
  Swapui.same_aggregates s1 s3.
Proof.
  intros (A1 & A2 & A3 & A4 & A5 & A6) (B1 & B2 & B3 & B4 & B5 & B6).
  repeat split; congruence.
Qed.

Lemma spotprice_reconnect_windows (r : Reconnect) (e : exn) :
  across Spotprice.same_windows (Spotprice.reconnect r e).
Proof.
  unfold Spotprice.reconnect, Spotprice.print.
  repeat across_step;
    solve [ apply same_windows_refl | eapply same_windows_trans; eassumption
          | split; reflexivity ].
Qed.

Lemma swapui_rebuild_aggregates (r : Reconnect) :
  across Swapui.same_aggregates (Swapui.rebuild r).
Proof.
  unfold Swapui.rebuild.
  repeat across_step;
    solve [ apply same_aggregates_refl
          | eapply same_aggregates_trans; eassumption
          | repeat split ].
Qed.

Lemma swapui_reconnect_aggregates (r : Reconnect) (e : exn) :
  across Swapui.same_aggregates (Swapui.reconnect r e).
Proof.
  unfold Swapui.reconnect. apply across_try.
  - exact same_aggregates_trans.
  - apply swapui_rebuild_aggregates.
  - intros _. apply across_ret. exact same_aggregates_refl.
Qed.

(** The engine's reconnect swallows every exception. *)
Lemma swapui_reconnect_ok (r : Reconnect) (e : exn) (s : Swapui.Engine) :
  fst (Swapui.reconnect r e s) = Ok tt.
Proof.
  unfold Swapui.reconnect, try_except.
  destruct (Swapui.rebuild r s) as [[[]|e'] s']; reflexivity.
Qed.

Lemma same_aggregates_snapshot (s s' : Swapui.Engine) :
  Swapui.same_aggregates s s' -> Swapui.snapshot s' = Swapui.snapshot s.
Proof.
  intros (A1 & A2 & A3 & A4 & A5 & A6). unfold Swapui.snapshot.
  rewrite A1, A2, A3, A4, A5, A6. reflexivity.
Qed.

Lemma same_aggregates_combined (s s' : Swapui.Engine) :
  Swapui.same_aggregates s s' ->
  Swapui.combined_vwap s' = Swapui.combined_vwap s.
Proof.
  intros (A1 & A2 & _). unfold Swapui.combined_vwap.
  rewrite A1, A2. reflexivity.
Qed.

(** A failure of the first call of the loop body reaches the handler with
    nothing written. *)
Lemma swapui_body_fails_at_once (p : Poll) (e : exn) (s : Swapui.Engine) :
  v2_new_entries p = Raise e -> Swapui.body p s = (Raise e, s).
Proof.
  intros H. unfold Swapui.body, Swapui.poll_v2, bindM, lift.
  rewrite H. reflexivity.
Qed.

Lemma spotprice_body_fails_at_once (p : Poll) (e : exn)
  (s : Spotprice.Main) :
  v2_new_entries p = Raise e -> Spotprice.body p s = (Raise e, s).
Proof.
  intros H. unfold Spotprice.body, Spotprice.poll_v2, bindM, lift.
  rewrite H. reflexivity.
Qed.

(** C9.  The reconnect step leaves the two windows and the trade log as
    they are -- and with them every aggregate read from them: the
    per-venue VWAPs, the combined VWAP, the snapshot.  What it writes is
    the connection, the two contract handles and the two filter handles.
    A transport failure at the start of a turn of the loop therefore
    leaves the accumulated state as it was before the turn. *)
Theorem reconnect_keeps_state :
  (forall (r : Reconnect) (e : exn) (s : Swapui.Engine),
     let s' := snd (Swapui.reconnect r e s) in
     Swapui.v2_trades s' = Swapui.v2_trades s /\
     Swapui.v3_trades s' = Swapui.v3_trades s /\
     Swapui.recent_execs s' = Swapui.recent_execs s /\
     Swapui.series s' = Swapui.series s /\
     Swapui.v2spot s' = Swapui.v2spot s /\
     Swapui.v3spot s' = Swapui.v3spot s /\
     Swapui.vwap (Swapui.v2_trades s') = Swapui.vwap (Swapui.v2_trades s) /\
     Swapui.vwap (Swapui.v3_trades s') = Swapui.vwap (Swapui.v3_trades s) /\
     Swapui.combined_vwap s' = Swapui.combined_vwap s /\
     Swapui.snapshot s' = Swapui.snapshot s /\
     fst (Swapui.reconnect r e s) = Ok tt) /\
  (forall (r : Reconnect) (e : exn) (s : Spotprice.Main),
     let s' := snd (Spotprice.reconnect r e s) in
     Spotprice.v2_win s' = Spotprice.v2_win s /\
     Spotprice.v3_win s' = Spotprice.v3_win s /\
     Spotprice.vwap (Spotprice.v2_win s')
       = Spotprice.vwap (Spotprice.v2_win s) /\
     Spotprice.vwap (Spotprice.v3_win s')
       = Spotprice.vwap (Spotprice.v3_win s)) /\
  (forall (w : Web3) (b2 b3 : Z) (i2 i3 : nat) (e : exn)
          (s : Swapui.Engine),
     let r := {| r_w3 := Ok w;
                 r_block_number_v2 := Ok b2; r_v2_filter := Ok i2;
                 r_block_number_v3 := Ok b3; r_v3_filter := Ok i3 |} in
     let s' := snd (Swapui.reconnect r e s) in
     Swapui.w3 s' = w /\
     Swapui.v2 s' = {| c_w3 := w; c_address := UNISWAP_V2_POOL |} /\
     Swapui.v3 s' = {| c_w3 := w; c_address := UNISWAP_V3_POOL |} /\
     Swapui.v2_filter s' = {| f_id := i2; f_fromBlock := b2 - 10;
                              f_address := UNISWAP_V2_POOL |} /\
     Swapui.v3_filter s' = {| f_id := i3; f_fromBlock := b3 - 10;
                              f_address := UNISWAP_V3_POOL |}) /\
  (forall (p : Poll) (r : Reconnect) (e : exn),
     v2_new_entries p = Raise e ->
     (forall s : Swapui.Engine,
        Swapui.same_aggregates s (snd (Swapui.iteration p r s))) /\
     (forall s : Spotprice.Main,
        Spotprice.same_windows s (snd (Spotprice.iteration p r s)))).
Proof.
  split; [|split; [|split]].
  - intros r e s s'.
    pose proof (swapui_reconnect_aggregates r e s) as H. fold s' in H.
    pose proof (same_aggregates_snapshot H) as Hs.
    pose proof (same_aggregates_combined H) as Hc.
    destruct H as (A1 & A2 & A3 & A4 & A5 & A6).
    rewrite A1, A2. repeat split; try assumption.
    apply swapui_reconnect_ok.
  - intros r e s s'.
    pose proof (spotprice_reconnect_windows r e s) as [A1 A2].
    fold s' in A1, A2. rewrite A1, A2. repeat split.
  - intros w b2 b3 i2 i3 e s r s'. repeat split.
  - intros p r e H. split; intros s.
    + unfold Swapui.iteration, try_except.
      rewrite (swapui_body_fails_at_once _ _ H).
      apply swapui_reconnect_aggregates.
    + unfold Spotprice.iteration, try_except.
      rewrite (spotprice_body_fails_at_once _ _ H).
      apply spotprice_reconnect_windows.
Qed.

(** ** What the decoders put into the windows *)

Lemma trade_sound (base quote : Z) :
  (0 < base)%Z -> (0 < quote)%Z -> sound_entry (trade base quote).
Proof.
  intros Hb Hq. unfold sound_entry, trade; cbn [fst snd].
  rewrite !finite_pos_Fin. split.
  - apply Qcdiv_pos; apply human_pos; lia.
  - apply human_pos; lia.
Qed.

Lemma v2_decoded_sound (args : V2SwapArgs) (e : entry) :
  Spotprice.v2_price_from_swap args = Ok (Some e) \/
  Swapui.v2_price_from_swap args = Ok (Some e) ->
  sound_entry e.
Proof.
  pose proof (v2_decoders args) as [H1 H2]. cbv zeta in H1, H2.
  intros H. assert (E : (if (0 <? amount0In args)%Z && (0 <? amount1Out args)%Z
              then Some (trade (amount0In args) (amount1Out args))
              else None) = Some e) by (destruct H; congruence).
  clear H H1 H2.
  destruct (0 <? amount0In args)%Z eqn:G0; [|discriminate].
  destruct (0 <? amount1Out args)%Z eqn:G1; [|discriminate].
  cbn [andb] in E. injection E as <-.
  apply Z.ltb_lt in G0, G1. apply trade_sound; assumption.
Qed.

Lemma v3_decoded_sound (args : V3SwapArgs) (e : entry) :
  Spotprice.v3_price_from_swap args = Ok (Some e) \/
  Swapui.v3_price_from_swap args = Ok (Some e) ->
  sound_entry e.
Proof.
  pose proof (v3_decoders args) as [H1 H2]. cbv zeta in H1, H2.
  intros H. assert (E : (if (0 <? amount0 args)%Z && (amount1 args <? 0)%Z
              then Some (trade (amount0 args) (Z.abs (amount1 args)))
              else None) = Some e) by (destruct H; congruence).
  clear H H1 H2.
  destruct (0 <? amount0 args)%Z eqn:G0; [|discriminate].
  destruct (amount1 args <? 0)%Z eqn:G1; [|discriminate].
  cbn [andb] in E. injection E as <-.
  apply Z.ltb_lt in G0, G1. apply trade_sound; lia.
Qed.

Lemma Forall_tl (A : Type) (P : A -> Prop) (l : list A) :
  Forall P l -> Forall P (tl l).
Proof. intros H. destruct H; [constructor|assumption]. Qed.

Lemma append_Forall (A : Type) (P : A -> Prop) (K : nat)
  (d : list A) (x : A) :
  Forall P d -> P x -> Forall P (Deque.append K d x).
Proof.
  intros Hd Hx. unfold Deque.append.
  assert (H : Forall P (d ++ [x]))
    by (apply Forall_app; split; [exact Hd|constructor; [exact Hx|constructor]]).
  destruct (K <? length (d ++ [x]))%nat; [apply Forall_tl|]; exact H.
Qed.

Section WindowInvariant.
Variable P : list entry -> Prop.

Lemma spotprice_keeps_refl (s : Spotprice.Main) : Spotprice.keeps P s s.
Proof. intros H. exact H. Qed.

Lemma spotprice_keeps_trans (s1 s2 s3 : Spotprice.Main) :
  Spotprice.keeps P s1 s2 -> Spotprice.keeps P s2 s3 ->
  Spotprice.keeps P s1 s3.
Proof. intros H1 H2 H. apply H2, H1, H. Qed.

Lemma swapui_keeps_refl (s : Swapui.Engine) : Swapui.keeps P s s.
Proof. intros H. exact H. Qed.

Lemma swapui_keeps_trans (s1 s2 s3 : Swapui.Engine) :
  Swapui.keeps P s1 s2 -> Swapui.keeps P s2 s3 -> Swapui.keeps P s1 s3.
Proof. intros H1 H2 H. apply H2, H1, H. Qed.

Ltac keeps_side :=
  solve [ apply spotprice_keeps_refl
        | eapply spotprice_keeps_trans; eassumption
        | apply swapui_keeps_refl
        | eapply swapui_keeps_trans; eassumption
        | intros [? ?]; split; assumption ].

Section InSpotprice.
Hypothesis P_push :
  forall d x, P d -> sound_entry x ->
              P (Deque.append Spotprice.VWAP_WINDOW d x).

Lemma spotprice_poll_v2_keeps (entries : result (list (Log V2SwapArgs))) :
  across (Spotprice.keeps P) (Spotprice.poll_v2 entries).
Proof.
  unfold Spotprice.poll_v2, Spotprice.print.
  repeat across_step; try keeps_side.
  intros [Hv2 Hv3]. split; [|exact Hv3]. cbn. apply P_push; [exact Hv2|].
  eapply v2_decoded_sound. left. eassumption.
Qed.

Lemma spotprice_poll_v3_keeps (entries : result (list (Log V3SwapArgs))) :
  across (Spotprice.keeps P) (Spotprice.poll_v3 entries).
Proof.
  unfold Spotprice.poll_v3, Spotprice.print.
  repeat across_step; try keeps_side.
  intros [Hv2 Hv3]. split; [exact Hv2|]. cbn. apply P_push; [exact Hv3|].
  eapply v3_decoded_sound. left. eassumption.
Qed.

Lemma spotprice_spot_check_keeps (v : Venue) (c : result t) (vw : option t) :
  across (Spotprice.keeps P) (Spotprice.spot_check v c vw).
Proof.
  unfold Spotprice.spot_check, Spotprice.print.
  repeat across_step; try keeps_side.
Qed.

Lemma spotprice_iteration_keeps (p : Poll) (r : Reconnect) :
  across (Spotprice.keeps P) (Spotprice.iteration p r).
Proof.
  unfold Spotprice.iteration, Spotprice.body, Spotprice.reconnect,
    Spotprice.print_vwap, Spotprice.print.
  repeat first
    [ apply spotprice_poll_v2_keeps | apply spotprice_poll_v3_keeps
    | apply spotprice_spot_check_keeps | across_step ];
    try keeps_side.
Qed.

End InSpotprice.

Section InSwapui.
Hypothesis P_push :
  forall d x, P d -> sound_entry x ->
              P (Deque.append Swapui.VWAP_WINDOW d x).

Lemma swapui_poll_v2_keeps (entries : result (list (Log V2SwapArgs))) :
  across (Swapui.keeps P) (Swapui.poll_v2 entries).
Proof.
  unfold Swapui.poll_v2.
  repeat across_step; try keeps_side.
  intros [Hv2 Hv3]. split; [|exact Hv3]. cbn. apply P_push; [exact Hv2|].
  eapply v2_decoded_sound. right. eassumption.
Qed.

Lemma swapui_poll_v3_keeps (entries : result (list (Log V3SwapArgs))) :
  across (Swapui.keeps P) (Swapui.poll_v3 entries).
Proof.
  unfold Swapui.poll_v3.
  repeat across_step; try keeps_side.
  intros [Hv2 Hv3]. split; [exact Hv2|]. cbn. apply P_push; [exact Hv3|].
  eapply v3_decoded_sound. right. eassumption.
Qed.

Lemma swapui_iteration_keeps (p : Poll) (r : Reconnect) :
  across (Swapui.keeps P) (Swapui.iteration p r).
Proof.
  unfold Swapui.iteration, Swapui.body, Swapui.spot_refresh,
    Swapui.reconnect, Swapui.rebuild.
  repeat first
    [ apply swapui_poll_v2_keeps | apply swapui_poll_v3_keeps
    | across_step ];
    try keeps_side.
Qed.

End InSwapui.
End WindowInvariant.

(** ** The magnitude of what is decoded *)

(** Closed comparisons of rationals, by evaluation. *)
Ltac q_closed := vm_compute; first [reflexivity | discriminate].

Lemma this_human (raw d : Z) :
  (this (human raw d) == inject_Z raw / inject_Z (10 ^ d))%Q.
Proof. unfold human, Q2Qc; cbn [this]. apply Qred_correct. Qed.

Lemma this_div (x y : Qc) : (this (x / y)%Qc == this x / this y)%Q.
Proof.
  unfold Qcdiv, Qcmult, Qcinv, Q2Qc; cbn [this].
  rewrite !Qred_correct. reflexivity.
Qed.

Lemma inject_Z_bounds (z lo hi : Z) :
  (lo <= z < hi)%Z ->
  (inject_Z lo <= inject_Z z)%Q /\ (inject_Z z < inject_Z hi)%Q.
Proof.
  intros [H1 H2]. split; [rewrite <- Zle_Qle|rewrite <- Zlt_Qlt]; assumption.
Qed.

Lemma size_in_range (base : Z) :
  (1 <= base < 2 ^ 256)%Z -> in_double_range (human base 18).
Proof.
  intros H. apply inject_Z_bounds in H. destruct H as [H1 H2].
  unfold in_double_range. rewrite this_human.
  set (B := inject_Z base) in *. change (inject_Z 1) with 1%Q in H1.
  split.
  - apply Qlt_shift_div_l; [q_closed|].
    eapply Qlt_le_trans; [|apply H1]. q_closed.
  - apply Qlt_shift_div_r; [q_closed|].
    eapply Qlt_trans; [apply H2|]. q_closed.
Qed.

Lemma price_in_range (base quote : Z) :
  (1 <= base < 2 ^ 256)%Z -> (1 <= quote < 2 ^ 256)%Z ->
  in_double_range (human quote 6 / human base 18).
Proof.
  intros Hb Hq. apply inject_Z_bounds in Hb, Hq.
  destruct Hb as [B1 B2], Hq as [Q1 Q2].
  unfold in_double_range. rewrite this_div, !this_human.
  set (B := inject_Z base) in *. set (A := inject_Z quote) in *.
  change (inject_Z 1) with 1%Q in *.
  assert (Bpos : (0 < B / inject_Z (10 ^ 18))%Q).
  { apply Qlt_shift_div_l; [q_closed|]. rewrite Qmult_0_l.
    eapply Qlt_le_trans; [|apply B1]. q_closed. }
  split.
  - apply Qlt_shift_div_l; [exact Bpos|].
    apply Qlt_shift_div_l; [q_closed|].
    eapply Qlt_le_trans; [|apply Q1].
    apply Qle_lt_trans
      with (/ inject_Z (2 ^ 1022)
            * (inject_Z (2 ^ 256) / inject_Z (10 ^ 18))
            * inject_Z (10 ^ 6))%Q; [|q_closed].
    apply Qmult_le_compat_r; [|q_closed].
    apply Qmult_le_l; [q_closed|].
    apply Qmult_le_compat_r; [apply Qlt_le_weak, B2|q_closed].
  - apply Qlt_shift_div_r; [exact Bpos|].
    apply Qlt_shift_div_r; [q_closed|].
    eapply Qlt_le_trans; [apply Q2|].
    apply Qle_trans
      with (inject_Z (2 ^ 1023) * (1 / inject_Z (10 ^ 18))
            * inject_Z (10 ^ 6))%Q; [q_closed|].
    apply Qmult_le_compat_r; [|q_closed].
    apply Qmult_le_l; [q_closed|].
    apply Qmult_le_compat_r; [exact B1|q_closed].
Qed.

Lemma trade_in_range (base quote : Z) :
  (1 <= base < 2 ^ 256)%Z -> (1 <= quote < 2 ^ 256)%Z ->
  exists p sz : Qc,
    trade base quote = (Fin p, Fin sz) /\
    in_double_range p /\ in_double_range sz.
Proof.
  intros Hb Hq. eexists; eexists. split; [reflexivity|].
  split; [apply price_in_range; assumption|apply size_in_range; assumption].
Qed.

Lemma v2_decoded_in_range (args : V2SwapArgs) (e : entry) :
  uint256 (amount0In args) -> uint256 (amount1Out args) ->
  Spotprice.v2_price_from_swap args = Ok (Some e) \/
  Swapui.v2_price_from_swap args = Ok (Some e) ->
  exists p sz : Qc,
    e = (Fin p, Fin sz) /\ in_double_range p /\ in_double_range sz.
Proof.
  unfold uint256. intros U0 U1 H.
  pose proof (v2_decoders args) as [H1 H2]. cbv zeta in H1, H2.
  assert (E : (if (0 <? amount0In args)%Z && (0 <? amount1Out args)%Z
               then Some (trade (amount0In args) (amount1Out args))
               else None) = Some e) by (destruct H; congruence).
  clear H H1 H2.
  destruct (0 <? amount0In args)%Z eqn:G0; [|discriminate].
  destruct (0 <? amount1Out args)%Z eqn:G1; [|discriminate].
  cbn [andb] in E. injection E as <-.
  apply Z.ltb_lt in G0, G1. apply trade_in_range; lia.
Qed.

Lemma v3_decoded_in_range (args : V3SwapArgs) (e : entry) :
  int256 (amount0 args) -> int256 (amount1 args) ->
  Spotprice.v3_price_from_swap args = Ok (Some e) \/
  Swapui.v3_price_from_swap args = Ok (Some e) ->
  exists p sz : Qc,
    e = (Fin p, Fin sz) /\ in_double_range p /\ in_double_range sz.
Proof.
  unfold int256. intros U0 U1 H.
  pose proof (v3_decoders args) as [H1 H2]. cbv zeta in H1, H2.
  assert (E : (if (0 <? amount0 args)%Z && (amount1 args <? 0)%Z
               then Some (trade (amount0 args) (Z.abs (amount1 args)))
               else None) = Some e) by (destruct H; congruence).
  clear H H1 H2.
  destruct (0 <? amount0 args)%Z eqn:G0; [|discriminate].
  destruct (amount1 args <? 0)%Z eqn:G1; [|discriminate].
  cbn [andb] in E. injection E as <-.
  apply Z.ltb_lt in G0, G1.
  assert (P255 : (2 ^ 256 = 2 * 2 ^ 255)%Z) by reflexivity.
  apply trade_in_range; lia.
Qed.

Lemma spotprice_start_empty (c : Connect) (s : Spotprice.Main) :
  Spotprice.start c = Ok s ->
  Spotprice.v2_win s = [] /\ Spotprice.v3_win s = [].
Proof.
  unfold Spotprice.start. destruct (negb (i_is_connected c)); [discriminate|].
  destruct (i_block_number c); [|discriminate].
  destruct (i_v2_filter c); [|discriminate].
  destruct (i_v3_filter c); [|discriminate].
  cbn [bind]. intros E. injection E as <-. split; reflexivity.
Qed.

Lemma swapui_init_empty (c : Connect) (s : Swapui.Engine) :
  Swapui.init c = Ok s ->
  Swapui.v2_trades s = [] /\ Swapui.v3_trades s = [] /\
  Swapui.recent_execs s = [].
Proof.
  unfold Swapui.init. destruct (negb (i_is_connected c)); [discriminate|].
  destruct (i_block_number c); [|discriminate].
  destruct (i_v2_filter c); [|discriminate].
  destruct (i_v3_filter c); [|discriminate].
  cbn [bind]. intros E. injection E as <-. repeat split.
Qed.

(** C4.  A window of capacity [K] is never longer than [K]; after more
    than [K] pushes it holds exactly the last [K] pushed entries in the
    order they came, and pushes into a window that already has entries
    leave the last [K] of the old entries followed by the new; a push
    into a full window drops its oldest entry and a push into a window
    with room drops none.  The windows of both
    scripts start empty, and no turn of either loop makes one longer than
    its capacity. *)
Theorem window_fifo (K : nat) :
  (forall (d : list entry) (x : entry),
     (length d <= K)%nat -> (length (Deque.append K d x) <= K)%nat) /\
  (forall xs : list entry,
     let w := Deque.extend K [] xs in
     (length w <= K)%nat /\
     w = Deque.lastn K xs /\
     ((K < length xs)%nat ->
      length w = K /\ firstn (length xs - K) xs ++ w = xs)) /\
  (forall d xs : list entry,
     (length d <= K)%nat ->
     Deque.extend K d xs = Deque.lastn K (d ++ xs) /\
     (length (Deque.extend K d xs) <= K)%nat) /\
  (forall (y : entry) (d : list entry) (x : entry),
     length (y :: d) = K -> Deque.append K (y :: d) x = d ++ [x]) /\
  (forall (d : list entry) (x : entry),
     (length d < K)%nat -> Deque.append K d x = d ++ [x]) /\
  (forall (c : Connect) (s : Spotprice.Main),
     Spotprice.start c = Ok s ->
     Spotprice.v2_win s = [] /\ Spotprice.v3_win s = []) /\
  (forall (c : Connect) (s : Swapui.Engine),
     Swapui.init c = Ok s ->
     Swapui.v2_trades s = [] /\ Swapui.v3_trades s = [] /\
     Swapui.recent_execs s = []) /\
  (forall (p : Poll) (r : Reconnect) (s : Spotprice.Main),
     Spotprice.windows_hold (within Spotprice.VWAP_WINDOW) s ->
     Spotprice.windows_hold (within Spotprice.VWAP_WINDOW)
       (snd (Spotprice.iteration p r s))) /\
  (forall (p : Poll) (r : Reconnect) (s : Swapui.Engine),
     Swapui.windows_hold (within Swapui.VWAP_WINDOW) s ->
     Swapui.windows_hold (within Swapui.VWAP_WINDOW)
       (snd (Swapui.iteration p r s))).
Proof.
  split; [|split; [|split; [|split; [|split; [|split; [|split; [|split]]]]]]].
  - intros d x. apply append_length.
  - intros xs w. subst w.
    rewrite extend_lastn by (cbn; lia). cbn [app].
    split; [rewrite lastn_length; lia|]. split; [reflexivity|].
    intros H. split; [rewrite lastn_length; lia|]. apply lastn_suffix.
  - intros d xs H. rewrite extend_lastn by exact H.
    split; [reflexivity|rewrite lastn_length; lia].
  - intros y d x. apply append_full.
  - intros d x. apply append_room.
  - intros c s. apply spotprice_start_empty.
  - intros c s. apply swapui_init_empty.
  - intros p r s. apply spotprice_iteration_keeps.
    intros d x Hd _. apply append_length. exact Hd.
  - intros p r s. apply swapui_iteration_keeps.
    intros d x Hd _. apply append_length. exact Hd.
Qed.

(** C10.  A swap that a decoder accepts gets a finite, strictly positive
    price and a finite, strictly positive size.  Under the direction
    guard the base amount in human units is not zero, so the decoders of
    [spotprice.py] never take their infinity branch: they return what the
    decoders of [swapui.py], which have no such branch, return.  No turn
    of either loop puts an entry that is not finite and positive into a
    window.  Within the bounds of the event fields the exact price and
    size have the magnitude of normal floats, so no overflow to infinity
    and no underflow to zero stands behind the rationals here. *)
Theorem decoders_yield_sound_entries :
  (forall (args : V2SwapArgs) (e : entry),
     Spotprice.v2_price_from_swap args = Ok (Some e) \/
     Swapui.v2_price_from_swap args = Ok (Some e) ->
     finite_pos (fst e) /\ finite_pos (snd e)) /\
  (forall (args : V3SwapArgs) (e : entry),
     Spotprice.v3_price_from_swap args = Ok (Some e) \/
     Swapui.v3_price_from_swap args = Ok (Some e) ->
     finite_pos (fst e) /\ finite_pos (snd e)) /\
  (forall base : Z,
     (0 < base)%Z ->
     exists eth_in, div (of_Z base) f1e18 = Ok eth_in /\
                    truthy eth_in = true) /\
  (forall args : V2SwapArgs,
     Spotprice.v2_price_from_swap args = Swapui.v2_price_from_swap args) /\
  (forall args : V3SwapArgs,
     Spotprice.v3_price_from_swap args = Swapui.v3_price_from_swap args) /\
  (forall (p : Poll) (r : Reconnect) (s : Spotprice.Main),
     Spotprice.windows_hold (Forall sound_entry) s ->
     Spotprice.windows_hold (Forall sound_entry)
       (snd (Spotprice.iteration p r s))) /\
  (forall (p : Poll) (r : Reconnect) (s : Swapui.Engine),
     Swapui.windows_hold (Forall sound_entry) s ->
     Swapui.windows_hold (Forall sound_entry)
       (snd (Swapui.iteration p r s))) /\
  (forall (args : V2SwapArgs) (e : entry),
     uint256 (amount0In args) -> uint256 (amount1Out args) ->
     Spotprice.v2_price_from_swap args = Ok (Some e) \/
     Swapui.v2_price_from_swap args = Ok (Some e) ->
     exists p sz : Qc,
       e = (Fin p, Fin sz) /\ in_double_range p /\ in_double_range sz) /\
  (forall (args : V3SwapArgs) (e : entry),
     int256 (amount0 args) -> int256 (amount1 args) ->
     Spotprice.v3_price_from_swap args = Ok (Some e) \/
     Swapui.v3_price_from_swap args = Ok (Some e) ->
     exists p sz : Qc,
       e = (Fin p, Fin sz) /\ in_double_range p /\ in_double_range sz).
Proof.
  split; [|split; [|split; [|split; [|split; [|split; [|split; [|split]]]]]]];
    [| | | | | | |exact v2_decoded_in_range|exact v3_decoded_in_range].
  - exact v2_decoded_sound.
  - exact v3_decoded_sound.
  - intros base Hb. exists (Fin (human base 18)).
    split; [apply div_1e18|]. apply truthy_Fin, Qc_pos_neq0, human_pos; lia.
  - intros args. destruct (v2_decoders args) as [H1 H2]. congruence.
  - intros args. destruct (v3_decoders args) as [H1 H2]. congruence.
  - intros p r s. apply spotprice_iteration_keeps.
    intros d x Hd Hx. apply append_Forall; assumption.
  - intros p r s. apply swapui_iteration_keeps.
    intros d x Hd Hx. apply append_Forall; assumption.
Qed.

(** ** The spot price of the constant-product pool *)

Lemma human_neq0 (raw d : Z) :
  (0 <= d)%Z -> raw <> 0%Z -> human raw d <> 0%Qc.
Proof. intros Hd Hr E. apply Hr. exact (human_eq0 Hd E). Qed.

Lemma mid_price (r0 r1 : Z) :
  (reserve_eth <- div (of_Z r0) f1e18 ;;
   reserve_usdt <- int_truediv r1 (10 ^ USDT_DECIMALS) ;;
   if truthy reserve_eth then div reserve_usdt reserve_eth else Ok PInf)
  = Ok (if (r0 =? 0)%Z then PInf else Fin (human r1 6 / human r0 18)).
Proof.
  rewrite div_1e18, int_truediv_usdt. cbn [bind].
  destruct (r0 =? 0)%Z eqn:E.
  - apply Z.eqb_eq in E. subst r0. rewrite human_0. reflexivity.
  - apply Z.eqb_neq in E.
    assert (Hnz : human r0 18 <> 0%Qc) by (apply human_neq0; [lia|exact E]).
    rewrite (proj2 (truthy_Fin _) Hnz), (div_Fin _ Hnz). reflexivity.
Qed.

(** C6.  From the reserves [(r0, r1)] the spot calculator returns the
    quote reserve scaled by ten to the minus six over the base reserve
    scaled by ten to the minus eighteen when [r0] is not zero, and the
    undefined price -- the float infinity, the sentinel of the scripts --
    when [r0] is zero.  Reserves [100e18] and [180000e6] give 1800.  A
    failed call is passed on. *)
Theorem v2_spot_price_spec :
  (forall r0 r1 ts : Z,
     let mid :=
       if (r0 =? 0)%Z then PInf else Fin (human r1 6 / human r0 18) in
     Spotprice.v2_spot_price (Ok (r0, r1, ts)) = Ok mid /\
     Swapui.v2_spot_price (Ok (r0, r1, ts)) = Ok mid) /\
  (forall ts : Z,
     Spotprice.v2_spot_price (Ok (100 * 10 ^ 18, 180000 * 10 ^ 6, ts))%Z
       = Ok (of_Z 1800) /\
     Swapui.v2_spot_price (Ok (100 * 10 ^ 18, 180000 * 10 ^ 6, ts))%Z
       = Ok (of_Z 1800)) /\
  (forall r1 ts : Z,
     Spotprice.v2_spot_price (Ok (0, r1, ts))%Z = Ok PInf /\
     Swapui.v2_spot_price (Ok (0, r1, ts))%Z = Ok PInf) /\
  (forall e : exn,
     Spotprice.v2_spot_price (Raise e) = Raise e /\
     Swapui.v2_spot_price (Raise e) = Raise e).
Proof.
  assert (G : forall r0 r1 ts : Z,
     Spotprice.v2_spot_price (Ok (r0, r1, ts)) =
       Ok (if (r0 =? 0)%Z then PInf else Fin (human r1 6 / human r0 18)) /\
     Swapui.v2_spot_price (Ok (r0, r1, ts)) =
       Ok (if (r0 =? 0)%Z then PInf else Fin (human r1 6 / human r0 18))).
  { intros r0 r1 ts. split; apply mid_price. }
  split; [exact G|split; [|split]].
  - intros ts.
    destruct (G (100 * 10 ^ 18)%Z (180000 * 10 ^ 6)%Z ts) as [H1 H2].
    split; [rewrite H1|rewrite H2];
      change (100 * 10 ^ 18 =? 0)%Z with false; cbv iota;
      rewrite !human_scaled by lia;
      unfold of_Z; do 2 f_equal; qc_compute.
  - intros r1 ts. apply (G 0%Z r1 ts).
  - intros e. split; reflexivity.
Qed.

(** ** The deviation monitor *)

Lemma eqb_zero (b : t) : eqb b (of_Z 0) = is_zero b.
Proof.
  destruct b as [q| | |]; try reflexivity.
  unfold eqb, cmp, of_Z, is_zero.
  change (Q2Qc (inject_Z 0)) with 0%Qc.
  destruct (Qc_eq_bool q 0) eqn:E.
  - apply Qc_eq_bool_iff in E. apply Qceq_alt in E. rewrite E. reflexivity.
  - apply Qc_eq_bool_false_iff in E.
    destruct (q ?= 0)%Qc eqn:C; try reflexivity.
    apply Qceq_alt in C. contradiction.
Qed.

Lemma pct_diff_some (a b : t) :
  Spotprice.pct_diff (Some a) (Some b) =
  if is_zero b then Ok None
  else q <- div (mul (of_Z 100) (sub a b)) b ;; Ok (Some q).
Proof. unfold Spotprice.pct_diff. rewrite eqb_zero. reflexivity. Qed.

(** [pct_diff] never raises: its division is guarded. *)
Lemma pct_diff_total (a b : option t) :
  exists d, Spotprice.pct_diff a b = Ok d.
Proof.
  destruct a as [a|], b as [b|]; try (eexists; reflexivity).
  rewrite pct_diff_some. destruct (is_zero b) eqn:Hz; [eexists; reflexivity|].
  destruct (div_total (mul (of_Z 100) (sub a b)) _ Hz) as [v Hv].
  rewrite Hv. eexists; reflexivity.
Qed.

Lemma Qc_to_Q_opp (q : Qc) : (this (- q)%Qc == - this q)%Q.
Proof. unfold Qcopp, Q2Qc; cbn [this]. apply Qred_correct. Qed.

Lemma exceeds_Fin (d : Qc) :
  Spotprice.exceeds (Some (Fin d)) = true <-> (1 < d \/ d < - (1))%Qc.
Proof.
  unfold Spotprice.exceeds, Spotprice.DEVIATION_WARN_PCT, gtb, abs, cmp, of_Z.
  change (Q2Qc (inject_Z 1)) with 1%Qc.
  set (m := if Qclt_le_dec d 0 then (- d)%Qc else d).
  assert (Hm : (1 < m)%Qc <-> (1 < d \/ d < - (1))%Qc).
  { subst m. unfold Qclt. rewrite Qc_to_Q_opp.
    destruct (Qclt_le_dec d 0) as [Hd|Hd]; unfold Qclt, Qcle in Hd;
      [rewrite Qc_to_Q_opp|]; change (this 1%Qc) with 1%Q in *;
      change (this 0%Qc) with 0%Q in *;
      (split; [intros H; first [left; lra|right; lra]|intros [H|H]; lra]). }
  rewrite <- Hm. destruct (m ?= 1)%Qc eqn:C.
  - split; [discriminate|]. intros H. apply Qcgt_alt in H. congruence.
  - split; [discriminate|]. intros H. apply Qcgt_alt in H. congruence.
  - split; [|reflexivity]. intros _. apply Qcgt_alt. exact C.
Qed.

Lemma pct_diff_Fin (a b : Qc) :
  b <> 0%Qc ->
  Spotprice.pct_diff (Some (Fin a)) (Some (Fin b))
  = Ok (Some (Fin (Q2Qc (inject_Z 100) * (a - b) / b))).
Proof.
  intros Hb. rewrite pct_diff_some.
  rewrite (proj2 (is_zero_Fin b) Hb). cbn [sub neg add mul of_Z].
  rewrite (div_Fin _ Hb). reflexivity.
Qed.

Lemma spot_check_prints (v : Venue) (spot : t) (vw d : option t)
  (s : Spotprice.Main) :
  Spotprice.deviation vw spot = Ok d ->
  Spotprice.spot_check v (Ok spot) vw s =
  (Ok tt,
   Spotprice.set_stdout
     (Spotprice.stdout s ++ Spotprice.PrintSpot v spot
        :: Spotprice.warnings d) s).
Proof.
  intros Hd. unfold Spotprice.spot_check, try_except, bindM, lift,
    Spotprice.print, modify.
  destruct vw as [x|]; cbn [Spotprice.deviation] in Hd.
  - rewrite Hd. destruct d as [y|]; cbn [Spotprice.warnings].
    + destruct (Spotprice.exceeds (Some y)); cbn [ret].
      * unfold Spotprice.set_stdout; cbn. rewrite <- app_assoc. reflexivity.
      * reflexivity.
    + reflexivity.
  - injection Hd as <-. reflexivity.
Qed.

(** C7.  The deviation of a VWAP from a spot price is
    [100 * (vwap - spot) / spot] when both are there and the spot price is
    not zero, and [None] when the spot price is zero or one of them is
    missing; it never raises.  The warning is printed exactly when the
    absolute deviation is strictly above the threshold of one percent: a
    deviation of exactly one percent, as of 1818 from 1800, prints none,
    one of two percent, as of 1836 from 1800, prints one. *)
Theorem deviation_spec :
  (forall a b : Qc,
     b <> 0%Qc ->
     Spotprice.pct_diff (Some (Fin a)) (Some (Fin b))
     = Ok (Some (Fin (Q2Qc (inject_Z 100) * (a - b) / b)))) /\
  (forall a : t, Spotprice.pct_diff (Some a) (Some (of_Z 0)) = Ok None) /\
  (forall b : option t, Spotprice.pct_diff None b = Ok None) /\
  (forall a : option t, Spotprice.pct_diff a None = Ok None) /\
  (forall a b : option t, exists d, Spotprice.pct_diff a b = Ok d) /\
  (forall d : Qc,
     Spotprice.exceeds (Some (Fin d)) = true <-> (1 < d \/ d < - (1))%Qc) /\
  (Spotprice.exceeds (Some Spotprice.DEVIATION_WARN_PCT) = false /\
   Spotprice.exceeds (Some (neg Spotprice.DEVIATION_WARN_PCT)) = false /\
   Spotprice.exceeds (Some NaN) = false /\
   Spotprice.exceeds None = false) /\
  (Spotprice.pct_diff (Some (of_Z 1818)) (Some (of_Z 1800))
     = Ok (Some (of_Z 1)) /\
   Spotprice.pct_diff (Some (of_Z 1836)) (Some (of_Z 1800))
     = Ok (Some (of_Z 2)) /\
   Spotprice.exceeds (Some (of_Z 1)) = false /\
   Spotprice.exceeds (Some (of_Z 2)) = true) /\
  (forall (v : Venue) (spot : t) (vw : option t) (s : Spotprice.Main),
     exists d,
       Spotprice.deviation vw spot = Ok d /\
       Spotprice.stdout (snd (Spotprice.spot_check v (Ok spot) vw s))
       = Spotprice.stdout s ++ Spotprice.PrintSpot v spot
           :: (match d with
               | Some x =>
                   if gtb (abs x) Spotprice.DEVIATION_WARN_PCT
                   then [Spotprice.PrintDeviation x] else []
               | None => []
               end)).
Proof.
  split; [exact pct_diff_Fin|].
  split; [intros a; rewrite pct_diff_some; reflexivity|].
  split; [reflexivity|].
  split; [intros [a|]; reflexivity|].
  split; [exact pct_diff_total|].
  split; [exact exceeds_Fin|].
  split; [repeat split; reflexivity|].
  split.
  - assert (N : Q2Qc (inject_Z 1800) <> 0%Qc)
      by (intros E; apply (f_equal this) in E; vm_compute in E; discriminate).
    unfold of_Z. rewrite !(pct_diff_Fin _ N).
    repeat split; try reflexivity; do 3 f_equal; qc_compute.
  - intros v spot vw s.
    assert (T : exists d, Spotprice.deviation vw spot = Ok d).
    { destruct vw as [x|]; [apply pct_diff_total|eexists; reflexivity]. }
    destruct T as [d Hd]. exists d. split; [exact Hd|].
    erewrite spot_check_prints by exact Hd. destruct d; reflexivity.
Qed.

(** ** The simple average *)

Lemma kept_iff (v : t) :
  Price.kept v = true <-> v <> Fin 0 /\ v <> PInf.
Proof.
  unfold Price.kept, truthy, neqb, eqb.
  destruct v as [q| | |]; cbn [is_zero cmp negb andb].
  - rewrite andb_true_r, negb_true_iff, Qc_eq_bool_false_iff.
    split; [intros H; split; congruence|intros [H _] E; congruence].
  - split; [discriminate|intros [_ H]; congruence].
  - split; [intros _; split; discriminate|reflexivity].
  - split; [intros _; split; discriminate|reflexivity].
Qed.

Lemma kept_Fin (q : Qc) : Price.kept (Fin q) = nonzero q.
Proof.
  unfold Price.kept, truthy, neqb, eqb, nonzero.
  cbn [is_zero cmp negb]. apply andb_true_r.
Qed.

Lemma filter_kept_Fin (qs : list Qc) :
  filter Price.kept (map Fin qs) = map Fin (filter nonzero qs).
Proof.
  induction qs as [|q qs IH]; [reflexivity|]. cbn [map filter].
  rewrite kept_Fin, IH. destruct (nonzero q); reflexivity.
Qed.

Lemma count_neq0 (A : Type) (x : A) (l : list A) :
  Q2Qc (inject_Z (Z.of_nat (length (x :: l)))) <> 0%Qc.
Proof.
  apply Qc_pos_neq0, Q2Qc_pos. unfold Qlt; cbn [Qnum Qden inject_Z length].
  lia.
Qed.

Lemma safe_avg_unfold (values : list t) :
  Price.safe_avg values =
  match filter Price.kept values with
  | [] => Ok None
  | x :: l =>
      q <- div (sum (x :: l)) (of_Z (Z.of_nat (length (x :: l)))) ;;
      Ok (Some q)
  end.
Proof.
  unfold Price.safe_avg. destruct (filter Price.kept values); reflexivity.
Qed.

(** [safe_avg] never raises: it divides by the length of a list it has
    found not empty. *)
Lemma safe_avg_total (values : list t) :
  exists r, Price.safe_avg values = Ok r.
Proof.
  rewrite safe_avg_unfold.
  destruct (filter Price.kept values) as [|x l]; [eexists; reflexivity|].
  destruct (div_total (sum (x :: l))
              (of_Z (Z.of_nat (length (x :: l))))) as [v Hv].
  - apply is_zero_Fin, count_neq0.
  - rewrite Hv. eexists; reflexivity.
Qed.

Lemma safe_avg_Fin (qs : list Qc) :
  Price.safe_avg (map Fin qs) =
  Ok (match filter nonzero qs with
      | [] => None
      | q :: k => Some (Fin (Qcmean (q :: k)))
      end).
Proof.
  rewrite safe_avg_unfold, filter_kept_Fin.
  destruct (filter nonzero qs) as [|q k]; [reflexivity|].
  cbn [map]. change (Fin q :: map Fin k) with (map Fin (q :: k)).
  rewrite sum_Fin, length_map. unfold of_Z.
  rewrite (div_Fin _ (@count_neq0 _ q k)). reflexivity.
Qed.

Lemma safe_avg_skips (l1 l2 : list t) (v : t) :
  Price.kept v = false ->
  Price.safe_avg (l1 ++ v :: l2) = Price.safe_avg (l1 ++ l2).
Proof.
  intros H. rewrite !safe_avg_unfold, !filter_app. cbn [filter].
  rewrite H. reflexivity.
Qed.

(** C5, as the specification states it, fails: a zero entry is left out
    of the mean, and a list of zeros has no mean at all. *)
Lemma safe_avg_ignores_zero :
  Price.safe_avg [of_Z 0; of_Z 10] = Ok (Some (of_Z 10)) /\
  simple_average_spec [of_Z 0; of_Z 10] = Ok (Some (of_Z 5)) /\
  Price.safe_avg [of_Z 0; of_Z 10] <> simple_average_spec [of_Z 0; of_Z 10] /\
  Price.safe_avg [of_Z 0] = Ok None /\
  simple_average_spec [of_Z 0] = Ok (Some (of_Z 0)).
Proof.
  assert (A : Price.safe_avg [of_Z 0; of_Z 10] = Ok (Some (of_Z 10))).
  { change [of_Z 0; of_Z 10]
      with (map Fin [Q2Qc (inject_Z 0); Q2Qc (inject_Z 10)]).
    rewrite safe_avg_Fin.
    change (filter nonzero [Q2Qc (inject_Z 0); Q2Qc (inject_Z 10)])
      with [Q2Qc (inject_Z 10)].
    unfold of_Z. do 3 f_equal; qc_compute. }
  assert (B : simple_average_spec [of_Z 0; of_Z 10] = Ok (Some (of_Z 5))).
  { unfold simple_average_spec. cbn [filter neqb eqb cmp of_Z negb].
    unfold sum, of_Z. cbn [fold_left add].
    rewrite div_Fin by apply count_neq0. cbn [bind].
    do 3 f_equal; qc_compute. }
  split; [exact A|]. split; [exact B|]. split.
  - rewrite A, B. intros E.
    apply (f_equal (fun r => match r with
                             | Ok (Some (Fin q)) => Qnum (this q)
                             | _ => 0%Z
                             end)) in E.
    vm_compute in E. discriminate.
  - split; [reflexivity|].
    unfold simple_average_spec. cbn [filter neqb eqb cmp of_Z negb].
    unfold sum, of_Z. cbn [fold_left add].
    rewrite div_Fin by apply count_neq0. cbn [bind].
    do 3 f_equal; qc_compute.
Qed.

(** C5, amended.  [safe_avg] returns the arithmetic mean of the entries
    that are neither zero nor the infinity sentinel, and [None] exactly
    when no such entry is left; it never raises.  Entries equal to zero
    or to the sentinel do not change the result.  Over finite entries the
    mean is the mean of the rationals that are not zero. *)
Theorem safe_avg_spec :
  (forall v : t, Price.kept v = true <-> v <> Fin 0 /\ v <> PInf) /\
  (forall values : list t,
     let vals := filter Price.kept values in
     (vals = [] -> Price.safe_avg values = Ok None) /\
     (vals <> [] ->
      exists m,
        div (sum vals) (of_Z (Z.of_nat (length vals))) = Ok m /\
        Price.safe_avg values = Ok (Some m))) /\
  (forall qs : list Qc,
     Price.safe_avg (map Fin qs) =
     Ok (match filter nonzero qs with
         | [] => None
         | q :: k => Some (Fin (Qcmean (q :: k)))
         end)) /\
  (forall l1 l2 : list t,
     Price.safe_avg (l1 ++ of_Z 0 :: l2) = Price.safe_avg (l1 ++ l2) /\
     Price.safe_avg (l1 ++ PInf :: l2) = Price.safe_avg (l1 ++ l2)).
Proof.
  split; [exact kept_iff|]. split; [|split; [exact safe_avg_Fin|]].
  - intros values vals. subst vals. rewrite safe_avg_unfold.
    destruct (filter Price.kept values) as [|x l] eqn:E.
    + split; [reflexivity|congruence].
    + split; [discriminate|]. intros _.
      destruct (div_total (sum (x :: l))
                  (of_Z (Z.of_nat (length (x :: l))))) as [v Hv].
      * apply is_zero_Fin, count_neq0.
      * exists v. rewrite Hv. split; reflexivity.
  - intros l1 l2. split; apply safe_avg_skips; reflexivity.
Qed.

(** ** The combined VWAP *)

Lemma lastn_app_r (A : Type) (K : nat) (l1 l2 : list A) :
  (length l2 <= K)%nat ->
  Deque.lastn K (l1 ++ l2) = Deque.lastn (K - length l2) l1 ++ l2.
Proof.
  intros H. unfold Deque.lastn. rewrite skipn_app, length_app.
  replace (length l1 + length l2 - K - length l1)%nat with 0%nat by lia.
  replace (length l1 + length l2 - K)%nat
    with (length l1 - (K - length l2))%nat by lia.
  reflexivity.
Qed.

Lemma combined_vwap_unfold (s : Swapui.Engine) :
  Swapui.combined_vwap s =
  Swapui.vwap
    (Deque.lastn Swapui.VWAP_WINDOW (Swapui.v2_trades s ++ Swapui.v3_trades s)).
Proof. unfold Swapui.combined_vwap. rewrite of_list_lastn. reflexivity. Qed.

Lemma combined_vwap_total (s : Swapui.Engine) :
  exists comb, Swapui.combined_vwap s = Ok comb.
Proof. unfold Swapui.combined_vwap. rewrite vwaps_agree. apply vwap_total. Qed.

Lemma spot_refresh_due (p : Poll) (s : Swapui.Engine)
  (v2s v3s : t) (comb : option t) :
  geb (sub (now p) (Swapui.last_spot s)) Swapui.SPOT_REFRESH_SEC = true ->
  Swapui.v2_spot_price (getReserves p) = Ok v2s ->
  Swapui.v3_spot_price (slot0 p) = Ok v3s ->
  Swapui.combined_vwap s = Ok comb ->
  Swapui.spot_refresh p s =
  (Ok tt,
   Swapui.set_last_spot (now p)
     (Swapui.set_spots v2s v3s (now p, v2s, v3s, Swapui.or_nan comb) s)).
Proof.
  intros Hdue H2 H3 Hc.
  unfold Swapui.spot_refresh, bindM, gets, lift, reads, modify.
  rewrite Hdue, H2, H3, Hc. reflexivity.
Qed.

Lemma spot_refresh_windows (p : Poll) (s : Swapui.Engine) :
  Swapui.v2_trades (snd (Swapui.spot_refresh p s)) = Swapui.v2_trades s /\
  Swapui.v3_trades (snd (Swapui.spot_refresh p s)) = Swapui.v3_trades s.
Proof.
  unfold Swapui.spot_refresh, bindM, gets, lift, reads, modify.
  destruct (geb _ _); [|split; reflexivity].
  destruct (Swapui.v2_spot_price _); [|split; reflexivity].
  destruct (Swapui.v3_spot_price _); [|split; reflexivity].
  destruct (Swapui.combined_vwap s); split; reflexivity.
Qed.

(** C8.  The combined VWAP is [vwap] applied to the last [VWAP_WINDOW]
    entries of the first venue's window followed by the second venue's:
    when the second window is within capacity, all of it and as many of
    the newest entries of the first as still fit.  It is computed from
    the two windows as they are at the refresh: engines with the same
    windows have the same combined VWAP, and the refresh writes it into
    the chart series and leaves the windows as they are.  Over windows
    [(10, 2)] and [(20, 1)] it is 40/3. *)
Theorem combined_vwap_spec :
  (forall s : Swapui.Engine,
     Swapui.combined_vwap s =
     Swapui.vwap
       (Deque.lastn Swapui.VWAP_WINDOW
          (Swapui.v2_trades s ++ Swapui.v3_trades s)) /\
     exists comb, Swapui.combined_vwap s = Ok comb) /\
  (forall s : Swapui.Engine,
     (length (Swapui.v3_trades s) <= Swapui.VWAP_WINDOW)%nat ->
     Swapui.combined_vwap s =
     Swapui.vwap
       (Deque.lastn (Swapui.VWAP_WINDOW - length (Swapui.v3_trades s))
          (Swapui.v2_trades s) ++ Swapui.v3_trades s)) /\
  (forall s s' : Swapui.Engine,
     Swapui.v2_trades s' = Swapui.v2_trades s ->
     Swapui.v3_trades s' = Swapui.v3_trades s ->
     Swapui.combined_vwap s' = Swapui.combined_vwap s) /\
  (forall (p : Poll) (s : Swapui.Engine) (v2s v3s : t) (comb : option t),
     geb (sub (now p) (Swapui.last_spot s)) Swapui.SPOT_REFRESH_SEC = true ->
     Swapui.v2_spot_price (getReserves p) = Ok v2s ->
     Swapui.v3_spot_price (slot0 p) = Ok v3s ->
     Swapui.combined_vwap s = Ok comb ->
     let s' := snd (Swapui.spot_refresh p s) in
     Swapui.series s' =
       Deque.append 600 (Swapui.series s)
         (now p, v2s, v3s, Swapui.or_nan comb) /\
     Swapui.combined_vwap s' = Ok comb) /\
  (forall (p : Poll) (s : Swapui.Engine),
     Swapui.v2_trades (snd (Swapui.spot_refresh p s)) = Swapui.v2_trades s /\
     Swapui.v3_trades (snd (Swapui.spot_refresh p s)) = Swapui.v3_trades s) /\
  Swapui.combined_vwap
    (Swapui.engine_with [(of_Z 10, of_Z 2)] [(of_Z 20, of_Z 1)])
  = Ok (Some (Fin (Q2Qc (40 # 3)))).
Proof.
  split; [|split; [|split; [|split; [|split]]]].
  - intros s. split; [apply combined_vwap_unfold|apply combined_vwap_total].
  - intros s H. rewrite combined_vwap_unfold, lastn_app_r by exact H.
    reflexivity.
  - intros s s' H2 H3. unfold Swapui.combined_vwap. rewrite H2, H3.
    reflexivity.
  - intros p s v2s v3s comb Hdue H2 H3 Hc s'. subst s'.
    rewrite (spot_refresh_due _ _ Hdue H2 H3 Hc). cbn [snd].
    split; [reflexivity|]. rewrite <- Hc. reflexivity.
  - exact spot_refresh_windows.
  - rewrite combined_vwap_unfold, vwaps_agree.
    exact vwap_example.
Qed.

(** * Further properties of the scripts *)

(** ** A batch of log entries in [swapui.py] *)

Lemma swapui_v2_decodes (args : V2SwapArgs) :
  Swapui.v2_price_from_swap args = Ok (v2_accept args).
Proof. exact (proj2 (v2_decoders args)). Qed.

Lemma swapui_v3_decodes (args : V3SwapArgs) :
  Swapui.v3_price_from_swap args = Ok (v3_accept args).
Proof. exact (proj2 (v3_decoders args)). Qed.

Lemma spotprice_v2_decodes (args : V2SwapArgs) :
  Spotprice.v2_price_from_swap args = Ok (v2_accept args).
Proof. exact (proj1 (v2_decoders args)). Qed.

Lemma spotprice_v3_decodes (args : V3SwapArgs) :
  Spotprice.v3_price_from_swap args = Ok (v3_accept args).
Proof. exact (proj1 (v3_decoders args)). Qed.

Lemma swapui_poll_v2_nil (s : Swapui.Engine) :
  Swapui.poll_v2 (Ok []) s = (Ok tt, s).
Proof. reflexivity. Qed.

Lemma swapui_poll_v2_cons (log : Log V2SwapArgs)
  (rest : list (Log V2SwapArgs)) (s : Swapui.Engine) :
  Swapui.poll_v2 (Ok (log :: rest)) s =
  match process_log log with
  | Raise e => (Raise e, s)
  | Ok (args, hash) =>
      Swapui.poll_v2 (Ok rest)
        (match v2_accept args with
         | Some e => log_trade V2 (exec_of log V2 e hash) s
         | None => s
         end)
  end.
Proof.
  unfold Swapui.poll_v2, bindM, lift. cbn [for_each]. unfold bindM, lift.
  destruct (process_log log) as [[args hash]|e]; [|reflexivity].
  rewrite swapui_v2_decodes.
  destruct (v2_accept args) as [[px sz]|]; reflexivity.
Qed.

Lemma swapui_poll_v3_cons (log : Log V3SwapArgs)
  (rest : list (Log V3SwapArgs)) (s : Swapui.Engine) :
  Swapui.poll_v3 (Ok (log :: rest)) s =
  match process_log log with
  | Raise e => (Raise e, s)
  | Ok (args, hash) =>
      Swapui.poll_v3 (Ok rest)
        (match v3_accept args with
         | Some e => log_trade V3 (exec_of log V3 e hash) s
         | None => s
         end)
  end.
Proof.
  unfold Swapui.poll_v3, bindM, lift. cbn [for_each]. unfold bindM, lift.
  destruct (process_log log) as [[args hash]|e]; [|reflexivity].
  rewrite swapui_v3_decodes.
  destruct (v3_accept args) as [[px sz]|]; reflexivity.
Qed.

Lemma swapui_poll_v2_batch (logs : list (Log V2SwapArgs))
  (s : Swapui.Engine) :
  Swapui.poll_v2 (Ok logs) s =
  (ending (snd (batch v2_accept V2 logs)),
   log_trades V2 (fst (batch v2_accept V2 logs)) s).
Proof.
  revert s. induction logs as [|log rest IH]; intros s; [reflexivity|].
  rewrite swapui_poll_v2_cons. cbn [batch].
  destruct (process_log log) as [[args hash]|e]; [|reflexivity].
  rewrite IH. destruct (batch v2_accept V2 rest) as [xs end_].
  destruct (v2_accept args); reflexivity.
Qed.

Lemma swapui_poll_v3_batch (logs : list (Log V3SwapArgs))
  (s : Swapui.Engine) :
  Swapui.poll_v3 (Ok logs) s =
  (ending (snd (batch v3_accept V3 logs)),
   log_trades V3 (fst (batch v3_accept V3 logs)) s).
Proof.
  revert s. induction logs as [|log rest IH]; intros s; [reflexivity|].
  rewrite swapui_poll_v3_cons. cbn [batch].
  destruct (process_log log) as [[args hash]|e]; [|reflexivity].
  rewrite IH. destruct (batch v3_accept V3 rest) as [xs end_].
  destruct (v3_accept args); reflexivity.
Qed.

Lemma log_trades_app (v : Venue) (xs ys : list Swapui.ExecTrade)
  (s : Swapui.Engine) :
  log_trades v (xs ++ ys) s = log_trades v ys (log_trades v xs s).
Proof. apply fold_left_app. Qed.

Lemma log_trades_execs (v : Venue) (xs : list Swapui.ExecTrade)
  (s : Swapui.Engine) :
  Swapui.recent_execs (log_trades v xs s)
  = Deque.extend 200 (Swapui.recent_execs s) xs.
Proof.
  revert s. induction xs as [|x xs IH]; intros s; [reflexivity|].
  cbn [log_trades fold_left]. fold (log_trades v xs (log_trade v x s)).
  rewrite IH. destruct v; reflexivity.
Qed.

Lemma log_trades_v2 (xs : list Swapui.ExecTrade) (s : Swapui.Engine) :
  Swapui.v2_trades (log_trades V2 xs s)
  = Deque.extend Swapui.VWAP_WINDOW (Swapui.v2_trades s)
      (map window_entry xs) /\
  Swapui.v3_trades (log_trades V2 xs s) = Swapui.v3_trades s.
Proof.
  revert s. induction xs as [|x xs IH]; intros s; [split; reflexivity|].
  cbn [log_trades fold_left]. fold (log_trades V2 xs (log_trade V2 x s)).
  destruct (IH (log_trade V2 x s)) as [H1 H2]. rewrite H1, H2.
  split; reflexivity.
Qed.

Lemma log_trades_v3 (xs : list Swapui.ExecTrade) (s : Swapui.Engine) :
  Swapui.v3_trades (log_trades V3 xs s)
  = Deque.extend Swapui.VWAP_WINDOW (Swapui.v3_trades s)
      (map window_entry xs) /\
  Swapui.v2_trades (log_trades V3 xs s) = Swapui.v2_trades s.
Proof.
  revert s. induction xs as [|x xs IH]; intros s; [split; reflexivity|].
  cbn [log_trades fold_left]. fold (log_trades V3 xs (log_trade V3 x s)).
  destruct (IH (log_trade V3 x s)) as [H1 H2]. rewrite H1, H2.
  split; reflexivity.
Qed.

Lemma same_but_trades_refl (s : Swapui.Engine) : same_but_trades s s.
Proof. repeat split. Qed.

Lemma log_trades_rest (v : Venue) (xs : list Swapui.ExecTrade)
  (s : Swapui.Engine) :
  same_but_trades s (log_trades v xs s).
Proof.
  revert s. induction xs as [|x xs IH]; intros s;
    [apply same_but_trades_refl|].
  cbn [log_trades fold_left]. fold (log_trades v xs (log_trade v x s)).
  destruct (IH (log_trade v x s))
    as (A1 & A2 & A3 & A4 & A5 & A6 & A7 & A8 & A9).
  unfold same_but_trades.
  rewrite A1, A2, A3, A4, A5, A6, A7, A8, A9.
  destruct v; repeat split.
Qed.

(** X1.  A batch of log entries handled by the engine: the venue's
    window and the trade log get, one by one and in the order of the
    batch, the accepted swaps of the entries before the first entry that
    cannot be processed; the loop ends with the exception of that entry,
    the entries after it untouched, or normally if there is none.  The
    other window, the chart, the spot prices and the handles stay as they
    are.  A failure of [get_new_entries] itself changes nothing. *)
Theorem swapui_poll_batch :
  (forall (logs : list (Log V2SwapArgs)) (s : Swapui.Engine),
     let xs := fst (batch v2_accept V2 logs) in
     let s' := snd (Swapui.poll_v2 (Ok logs) s) in
     fst (Swapui.poll_v2 (Ok logs) s)
       = ending (snd (batch v2_accept V2 logs)) /\
     Swapui.v2_trades s'
       = Deque.extend Swapui.VWAP_WINDOW (Swapui.v2_trades s)
           (map window_entry xs) /\
     Swapui.recent_execs s' = Deque.extend 200 (Swapui.recent_execs s) xs /\
     Swapui.v3_trades s' = Swapui.v3_trades s /\
     same_but_trades s s') /\
  (forall (logs : list (Log V3SwapArgs)) (s : Swapui.Engine),
     let xs := fst (batch v3_accept V3 logs) in
     let s' := snd (Swapui.poll_v3 (Ok logs) s) in
     fst (Swapui.poll_v3 (Ok logs) s)
       = ending (snd (batch v3_accept V3 logs)) /\
     Swapui.v3_trades s'
       = Deque.extend Swapui.VWAP_WINDOW (Swapui.v3_trades s)
           (map window_entry xs) /\
     Swapui.recent_execs s' = Deque.extend 200 (Swapui.recent_execs s) xs /\
     Swapui.v2_trades s' = Swapui.v2_trades s /\
     same_but_trades s s') /\
  (forall (e : exn) (s : Swapui.Engine),
     Swapui.poll_v2 (Raise e) s = (Raise e, s) /\
     Swapui.poll_v3 (Raise e) s = (Raise e, s)).
Proof.
  split; [|split].
  - intros logs s xs s'. subst xs s'. rewrite swapui_poll_v2_batch.
    cbn [fst snd]. split; [reflexivity|].
    destruct (log_trades_v2 (fst (batch v2_accept V2 logs)) s) as [H1 H2].
    repeat split; try assumption;
      first [apply log_trades_execs | apply log_trades_rest].
  - intros logs s xs s'. subst xs s'. rewrite swapui_poll_v3_batch.
    cbn [fst snd]. split; [reflexivity|].
    destruct (log_trades_v3 (fst (batch v3_accept V3 logs)) s) as [H1 H2].
    repeat split; try assumption;
      first [apply log_trades_execs | apply log_trades_rest].
  - intros e s. split; reflexivity.
Qed.

(** ** The windows and the trade log, views of one history *)

Lemma lastn_front (A : Type) (K : nat) (pre l : list A) :
  (K <= length l)%nat -> Deque.lastn K (pre ++ l) = Deque.lastn K l.
Proof.
  intros H. unfold Deque.lastn. rewrite skipn_app, length_app.
  rewrite skipn_all2 by lia. cbn [app]. f_equal. lia.
Qed.

Lemma lastn_lastn_app (A : Type) (K : nat) (h xs : list A) :
  Deque.lastn K (Deque.lastn K h ++ xs) = Deque.lastn K (h ++ xs).
Proof.
  destruct (Nat.le_gt_cases (length h) K) as [H|H].
  - rewrite (@lastn_short A K h H). reflexivity.
  - rewrite <- (@lastn_suffix A K h) at 2. rewrite <- app_assoc.
    symmetry. apply lastn_front. rewrite length_app, lastn_length. lia.
Qed.

Lemma extend_history (A : Type) (K : nat) (h xs : list A) :
  Deque.extend K (Deque.lastn K h) xs = Deque.lastn K (h ++ xs).
Proof.
  rewrite extend_lastn by (rewrite lastn_length; lia).
  apply lastn_lastn_app.
Qed.

Lemma entries_of_app (v : Venue) (h xs : list Swapui.ExecTrade) :
  entries_of v (h ++ xs) = entries_of v h ++ entries_of v xs.
Proof. unfold entries_of. rewrite filter_app, map_app. reflexivity. Qed.

Lemma batch_pool (A : Set) (accept : A -> option entry) (v : Venue)
  (logs : list (Log A)) :
  Forall (fun x => Swapui.pool x = v) (fst (batch accept v logs)).
Proof.
  induction logs as [|log rest IH]; cbn [batch]; [constructor|].
  destruct (process_log log) as [[args hash]|e]; [|constructor].
  destruct (batch accept v rest) as [xs end_]. cbn [fst] in *.
  destruct (accept args); [constructor; [reflexivity|exact IH]|exact IH].
Qed.

Lemma batch_sound (A : Set) (accept : A -> option entry) (v : Venue)
  (logs : list (Log A)) :
  (forall args e, accept args = Some e -> sound_entry e) ->
  Forall (fun x => sound_entry (window_entry x)) (fst (batch accept v logs)).
Proof.
  intros Hacc. induction logs as [|log rest IH]; cbn [batch]; [constructor|].
  destruct (process_log log) as [[args hash]|e]; [|constructor].
  destruct (batch accept v rest) as [xs end_]. cbn [fst] in *.
  destruct (accept args) as [e|] eqn:E; [|exact IH].
  constructor; [|exact IH]. destruct e as [px sz]. exact (Hacc _ _ E).
Qed.

Lemma v2_accept_sound (args : V2SwapArgs) (e : entry) :
  v2_accept args = Some e -> sound_entry e.
Proof.
  intros H. apply (v2_decoded_sound args). right.
  rewrite swapui_v2_decodes, H. reflexivity.
Qed.

Lemma v3_accept_sound (args : V3SwapArgs) (e : entry) :
  v3_accept args = Some e -> sound_entry e.
Proof.
  intros H. apply (v3_decoded_sound args). right.
  rewrite swapui_v3_decodes, H. reflexivity.
Qed.

Lemma entries_of_same (v : Venue) (xs : list Swapui.ExecTrade) :
  Forall (fun x => Swapui.pool x = v) xs ->
  entries_of v xs = map window_entry xs.
Proof.
  intros H. unfold entries_of. induction H as [|x xs Hx _ IH];
    [reflexivity|].
  cbn [filter]. rewrite Hx. destruct v; cbn [venue_eqb map]; rewrite IH;
    reflexivity.
Qed.

Lemma entries_of_other (v v' : Venue) (xs : list Swapui.ExecTrade) :
  v <> v' -> Forall (fun x => Swapui.pool x = v) xs -> entries_of v' xs = [].
Proof.
  intros Hv H. unfold entries_of. induction H as [|x xs Hx _ IH];
    [reflexivity|].
  cbn [filter]. rewrite Hx.
  destruct v, v'; try congruence; cbn [venue_eqb]; exact IH.
Qed.

Lemma views_of_log_trades (v : Venue) (h xs : list Swapui.ExecTrade)
  (s : Swapui.Engine) :
  Forall (fun x => Swapui.pool x = v) xs ->
  views_of h s -> views_of (h ++ xs) (log_trades v xs s).
Proof.
  intros Hp (H1 & H2 & H3). unfold views_of.
  rewrite log_trades_execs, H1, extend_history.
  split; [reflexivity|]. rewrite !entries_of_app.
  destruct v.
  - destruct (log_trades_v2 xs s) as [E2 E3]. rewrite E2, E3, H2, H3.
    rewrite (entries_of_same Hp).
    rewrite (@entries_of_other V2 V3 xs ltac:(discriminate) Hp).
    rewrite app_nil_r, extend_history. split; reflexivity.
  - destruct (log_trades_v3 xs s) as [E3 E2]. rewrite E2, E3, H2, H3.
    rewrite (entries_of_same Hp).
    rewrite (@entries_of_other V3 V2 xs ltac:(discriminate) Hp).
    rewrite app_nil_r, extend_history. split; reflexivity.
Qed.

Lemma consistent_log_trades (v : Venue) (xs : list Swapui.ExecTrade)
  (s : Swapui.Engine) :
  Forall (fun x => Swapui.pool x = v) xs ->
  Forall (fun x => sound_entry (window_entry x)) xs ->
  consistent s -> consistent (log_trades v xs s).
Proof.
  intros Hp Hs (h & Hv & Hh). exists (h ++ xs). split.
  - apply views_of_log_trades; assumption.
  - apply Forall_app. split; assumption.
Qed.

Lemma consistent_same_trades (s s' : Swapui.Engine) :
  same_trades s s' -> consistent s -> consistent s'.
Proof.
  intros (A1 & A2 & A3) (h & (H1 & H2 & H3) & Hh). exists h.
  split; [|exact Hh]. unfold views_of. rewrite A1, A2, A3.
  repeat split; assumption.
Qed.

Lemma same_trades_refl (s : Swapui.Engine) : same_trades s s.
Proof. repeat split. Qed.

Lemma same_trades_trans (s1 s2 s3 : Swapui.Engine) :
  same_trades s1 s2 -> same_trades s2 s3 -> same_trades s1 s3.
Proof.
  intros (A1 & A2 & A3) (B1 & B2 & B3). repeat split; congruence.
Qed.

Lemma spot_refresh_same_trades (p : Poll) :
  across same_trades (Swapui.spot_refresh p).
Proof.
  unfold Swapui.spot_refresh.
  repeat across_step;
    solve [ apply same_trades_refl
          | eapply same_trades_trans; eassumption
          | repeat split ].
Qed.

Lemma swapui_iteration_consistent (p : Poll) (r : Reconnect)
  (s : Swapui.Engine) :
  consistent s -> consistent (snd (Swapui.iteration p r s)).
Proof.
  revert s.
  change (across (fun s s' => consistent s -> consistent s')
            (Swapui.iteration p r)).
  assert (T : forall s1 s2 s3 : Swapui.Engine,
             (consistent s1 -> consistent s2) ->
             (consistent s2 -> consistent s3) ->
             consistent s1 -> consistent s3) by auto.
  unfold Swapui.iteration, Swapui.body.
  apply across_try; [exact T| |].
  - apply across_bind; [exact T| |intros _; apply across_bind;
                                    [exact T| |intros _]].
    + intros s. destruct (v2_new_entries p) as [logs|e]; [|auto].
      rewrite swapui_poll_v2_batch. cbn [snd].
      apply consistent_log_trades;
        [apply batch_pool|apply batch_sound; exact v2_accept_sound].
    + intros s. destruct (v3_new_entries p) as [logs|e]; [|auto].
      rewrite swapui_poll_v3_batch. cbn [snd].
      apply consistent_log_trades;
        [apply batch_pool|apply batch_sound; exact v3_accept_sound].
    + intros s. apply consistent_same_trades.
      apply spot_refresh_same_trades.
  - intros e s. apply consistent_same_trades.
    destruct (swapui_reconnect_aggregates r e s) as (A1 & A2 & A3 & _).
    repeat split; assumption.
Qed.

Lemma swapui_init_consistent (c : Connect) (s : Swapui.Engine) :
  Swapui.init c = Ok s -> consistent s.
Proof.
  intros H. destruct (swapui_init_empty _ H) as (A1 & A2 & A3).
  exists []. split; [|constructor].
  unfold views_of. rewrite A1, A2, A3. repeat split.
Qed.

Lemma swapui_run_consistent (turns : list (Poll * Reconnect))
  (s : Swapui.Engine) :
  consistent s -> consistent (Swapui.run turns s).
Proof.
  revert s. induction turns as [|[p r] rest IH]; intros s H; [exact H|].
  cbn [Swapui.run]. apply IH. apply swapui_iteration_consistent. exact H.
Qed.

(** X2.  However long the engine runs and whatever the node answers,
    the trade log and the two windows are views of one history of
    accepted trades: the log is its last 200 records, each window the
    last [VWAP_WINDOW] (price, size) pairs of the records of its venue,
    and every record has a finite, strictly positive price and size. *)
Theorem swapui_views_consistent (c : Connect) (s0 : Swapui.Engine)
  (turns : list (Poll * Reconnect)) :
  Swapui.init c = Ok s0 ->
  exists h : list Swapui.ExecTrade,
    let s := Swapui.run turns s0 in
    Swapui.recent_execs s = Deque.lastn 200 h /\
    Swapui.v2_trades s
      = Deque.lastn Swapui.VWAP_WINDOW (entries_of V2 h) /\
    Swapui.v3_trades s
      = Deque.lastn Swapui.VWAP_WINDOW (entries_of V3 h) /\
    Forall (fun x => finite_pos (Swapui.price x) /\
                     finite_pos (Swapui.eth_size x)) h.
Proof.
  intros H.
  destruct (swapui_run_consistent turns (swapui_init_consistent _ H))
    as (h & (H1 & H2 & H3) & Hh).
  exists h. cbv zeta. repeat split; assumption.
Qed.

Lemma swapui_views_consistent_witness :
  exists s0 : Swapui.Engine,
    Swapui.init connect_example = Ok s0 /\
    exists h : list Swapui.ExecTrade,
      let s := Swapui.run [(poll_example, reconnect_example)] s0 in
      Swapui.recent_execs s = Deque.lastn 200 h /\
      Swapui.v2_trades s
        = Deque.lastn Swapui.VWAP_WINDOW (entries_of V2 h) /\
      Swapui.v3_trades s
        = Deque.lastn Swapui.VWAP_WINDOW (entries_of V3 h) /\
      Forall (fun x => finite_pos (Swapui.price x) /\
                       finite_pos (Swapui.eth_size x)) h.
Proof.
  eexists. split; [reflexivity|].
  apply (@swapui_views_consistent connect_example _
           [(poll_example, reconnect_example)]).
  reflexivity.
Defined.

(** ** The engine's loop *)

Lemma swapui_iteration_ok (p : Poll) (r : Reconnect) (s : Swapui.Engine) :
  fst (Swapui.iteration p r s) = Ok tt.
Proof.
  unfold Swapui.iteration, try_except.
  destruct (Swapui.body p s) as [[[]|e] s1]; [reflexivity|].
  apply swapui_reconnect_ok.
Qed.

(** X3.  No turn of the engine's loop ends with an exception, whatever
    the node answers: a failure in the body is caught, and a failure of
    the reconnect after it is caught as well; the turn then still leaves
    the windows, the trade log, the chart and the spot prices as the
    body left them. *)
Theorem swapui_iteration_never_raises (p : Poll) (r : Reconnect)
  (s : Swapui.Engine) :
  fst (Swapui.iteration p r s) = Ok tt /\
  Swapui.same_aggregates (snd (Swapui.body p s))
    (snd (Swapui.iteration p r s)).
Proof.
  split; [apply swapui_iteration_ok|].
  unfold Swapui.iteration, try_except.
  destruct (Swapui.body p s) as [[[]|e] s1]; cbn [snd].
  - apply same_aggregates_refl.
  - apply swapui_reconnect_aggregates.
Qed.

(** ** The spot refresh of the engine *)

Lemma spot_refresh_not_due (p : Poll) (s : Swapui.Engine) :
  geb (sub (now p) (Swapui.last_spot s)) Swapui.SPOT_REFRESH_SEC = false ->
  Swapui.spot_refresh p s = (Ok tt, s).
Proof.
  intros H. unfold Swapui.spot_refresh, bindM, gets. rewrite H. reflexivity.
Qed.

Lemma spot_refresh_v2_fails (p : Poll) (s : Swapui.Engine) (e : exn) :
  geb (sub (now p) (Swapui.last_spot s)) Swapui.SPOT_REFRESH_SEC = true ->
  Swapui.v2_spot_price (getReserves p) = Raise e ->
  Swapui.spot_refresh p s = (Raise e, s).
Proof.
  intros H E. unfold Swapui.spot_refresh, bindM, gets, lift.
  rewrite H, E. reflexivity.
Qed.

Lemma spot_refresh_v3_fails (p : Poll) (s : Swapui.Engine) (e : exn)
  (v2s : t) :
  geb (sub (now p) (Swapui.last_spot s)) Swapui.SPOT_REFRESH_SEC = true ->
  Swapui.v2_spot_price (getReserves p) = Ok v2s ->
  Swapui.v3_spot_price (slot0 p) = Raise e ->
  Swapui.spot_refresh p s = (Raise e, s).
Proof.
  intros H E2 E3. unfold Swapui.spot_refresh, bindM, gets, lift.
  rewrite H, E2, E3. reflexivity.
Qed.

(** What a spot calculator answers is its call's exception or a float. *)
Lemma v2_spot_price_cases (call : result (Z * Z * Z)) :
  (exists e, call = Raise e /\ Swapui.v2_spot_price call = Raise e) \/
  (exists x, Swapui.v2_spot_price call = Ok x).
Proof.
  destruct call as [[[r0 r1] ts]|e]; [right|left; exists e; split; reflexivity].
  unfold Swapui.v2_spot_price. cbn [bind]. rewrite mid_price.
  eexists; reflexivity.
Qed.

Lemma v3_spot_price_cases (call : result Z) :
  (exists e, call = Raise e /\ Swapui.v3_spot_price call = Raise e) \/
  (exists x, Swapui.v3_spot_price call = Ok x).
Proof.
  destruct call as [sq|e]; [right|left; exists e; split; reflexivity].
  eexists; reflexivity.
Qed.

(** X4.  The spot refresh of the engine writes all or nothing.  When it
    is not due, or when one of the two pool queries fails, the engine is
    exactly as before -- in the second case the exception leaves the
    refresh, and a failure of the first query means the second is not
    looked at.  When both queries answer, the two spot prices, one more
    chart point and the time of the refresh are written, and the refresh
    ends normally. *)
Theorem swapui_spot_refresh_all_or_nothing (p : Poll) (s : Swapui.Engine) :
  let due := geb (sub (now p) (Swapui.last_spot s)) Swapui.SPOT_REFRESH_SEC in
  (due = false -> Swapui.spot_refresh p s = (Ok tt, s)) /\
  (due = true ->
   forall e, getReserves p = Raise e ->
             Swapui.spot_refresh p s = (Raise e, s)) /\
  (due = true ->
   forall e v2s, Swapui.v2_spot_price (getReserves p) = Ok v2s ->
                 slot0 p = Raise e ->
                 Swapui.spot_refresh p s = (Raise e, s)) /\
  (due = true ->
   forall v2s v3s,
     Swapui.v2_spot_price (getReserves p) = Ok v2s ->
     Swapui.v3_spot_price (slot0 p) = Ok v3s ->
     let s' := snd (Swapui.spot_refresh p s) in
     fst (Swapui.spot_refresh p s) = Ok tt /\
     Swapui.v2spot s' = Some v2s /\ Swapui.v3spot s' = Some v3s /\
     Swapui.last_spot s' = now p /\
     exists c, Swapui.series s'
               = Deque.append 600 (Swapui.series s) (now p, v2s, v3s, c)) /\
  (fst (Swapui.spot_refresh p s) <> Ok tt ->
   snd (Swapui.spot_refresh p s) = s).
Proof.
  intros due. subst due.
  split; [apply spot_refresh_not_due|].
  split; [intros H e E; apply spot_refresh_v2_fails; [exact H|];
          rewrite E; reflexivity|].
  split; [intros H e v2s E2 E3; apply (spot_refresh_v3_fails _ _ H E2);
          rewrite E3; reflexivity|].
  split.
  - intros H v2s v3s E2 E3 s'. subst s'.
    destruct (combined_vwap_total s) as [comb Hc].
    rewrite (spot_refresh_due _ _ H E2 E3 Hc). cbn [fst snd].
    repeat split. eexists; reflexivity.
  - destruct (geb (sub (now p) (Swapui.last_spot s)) Swapui.SPOT_REFRESH_SEC)
      eqn:H; [|rewrite (spot_refresh_not_due _ _ H); intros _; reflexivity].
    destruct (v2_spot_price_cases (getReserves p)) as [(e & _ & E2)|(x & E2)];
      [rewrite (spot_refresh_v2_fails _ _ H E2); reflexivity|].
    destruct (v3_spot_price_cases (slot0 p)) as [(e & _ & E3)|(y & E3)];
      [rewrite (spot_refresh_v3_fails _ _ H E2 E3); reflexivity|].
    destruct (combined_vwap_total s) as [comb Hc].
    rewrite (spot_refresh_due _ _ H E2 E3 Hc). cbn [fst].
    intros N. exfalso. apply N. reflexivity.
Qed.

(** ** The chart and the spot prices *)

Lemma append_ends (A : Type) (K : nat) (d : list A) (x : A) :
  (0 < K)%nat -> exists pts, Deque.append K d x = pts ++ [x].
Proof.
  intros HK. unfold Deque.append.
  destruct (K <? length (d ++ [x]))%nat eqn:E; [|exists d; reflexivity].
  apply Nat.ltb_lt in E. rewrite length_app in E. cbn [length] in E.
  destruct d as [|y d]; cbn [length] in E; [lia|].
  exists d. reflexivity.
Qed.

Lemma charted_same (s s' : Swapui.Engine) :
  Swapui.series s' = Swapui.series s ->
  Swapui.v2spot s' = Swapui.v2spot s ->
  Swapui.v3spot s' = Swapui.v3spot s ->
  charted s /\ (length (Swapui.series s) <= 600)%nat ->
  charted s' /\ (length (Swapui.series s') <= 600)%nat.
Proof.
  intros E1 E2 E3. unfold charted. rewrite E1, E2, E3. exact (fun H => H).
Qed.

Lemma spot_refresh_charted (p : Poll) (s : Swapui.Engine) :
  charted s /\ (length (Swapui.series s) <= 600)%nat ->
  charted (snd (Swapui.spot_refresh p s)) /\
  (length (Swapui.series (snd (Swapui.spot_refresh p s))) <= 600)%nat.
Proof.
  intros [Hc Hl].
  destruct (geb (sub (now p) (Swapui.last_spot s)) Swapui.SPOT_REFRESH_SEC)
    eqn:H; [|rewrite (spot_refresh_not_due _ _ H); split; assumption].
  destruct (v2_spot_price_cases (getReserves p)) as [(e & _ & E2)|(x & E2)];
    [rewrite (spot_refresh_v2_fails _ _ H E2); split; assumption|].
  destruct (v3_spot_price_cases (slot0 p)) as [(e & _ & E3)|(y & E3)];
    [rewrite (spot_refresh_v3_fails _ _ H E2 E3); split; assumption|].
  destruct (combined_vwap_total s) as [comb Hcomb].
  rewrite (spot_refresh_due _ _ H E2 E3 Hcomb). cbn [snd]. split.
  - right.
    destruct (@append_ends _ 600 (Swapui.series s)
                (now p, x, y, Swapui.or_nan comb)) as [pts Hp]; [lia|].
    exists x, y, (now p), (Swapui.or_nan comb), pts.
    repeat split. exact Hp.
  - apply (append_length (K := 600)). exact Hl.
Qed.

Lemma swapui_iteration_charted (p : Poll) (r : Reconnect)
  (s : Swapui.Engine) :
  charted s /\ (length (Swapui.series s) <= 600)%nat ->
  charted (snd (Swapui.iteration p r s)) /\
  (length (Swapui.series (snd (Swapui.iteration p r s))) <= 600)%nat.
Proof.
  revert s.
  set (J := fun s : Swapui.Engine =>
              charted s /\ (length (Swapui.series s) <= 600)%nat).
  change (across (fun s s' => J s -> J s') (Swapui.iteration p r)).
  assert (T : forall s1 s2 s3 : Swapui.Engine,
             (J s1 -> J s2) -> (J s2 -> J s3) -> J s1 -> J s3) by auto.
  unfold Swapui.iteration, Swapui.body.
  apply across_try; [exact T| |].
  - apply across_bind; [exact T| |intros _; apply across_bind;
                                    [exact T| |intros _]].
    + intros s. destruct (v2_new_entries p) as [logs|e]; [|auto].
      rewrite swapui_poll_v2_batch. cbn [snd].
      destruct (log_trades_rest V2 (fst (batch v2_accept V2 logs)) s)
        as (_ & _ & _ & _ & _ & A6 & A7 & A8 & _).
      apply charted_same; assumption.
    + intros s. destruct (v3_new_entries p) as [logs|e]; [|auto].
      rewrite swapui_poll_v3_batch. cbn [snd].
      destruct (log_trades_rest V3 (fst (batch v3_accept V3 logs)) s)
        as (_ & _ & _ & _ & _ & A6 & A7 & A8 & _).
      apply charted_same; assumption.
    + intros s. apply spot_refresh_charted.
  - intros e s.
    destruct (swapui_reconnect_aggregates r e s)
      as (_ & _ & _ & A4 & A5 & A6).
    apply charted_same; assumption.
Qed.

(** X5.  However long the engine runs, the chart and the spot prices go
    together: either no refresh has succeeded yet, and there is no spot
    price and no chart point, or both spot prices are there and the last
    chart point carries exactly those two; the chart never holds more
    than 600 points. *)
Theorem swapui_chart_follows_spots (c : Connect) (s0 : Swapui.Engine)
  (turns : list (Poll * Reconnect)) :
  Swapui.init c = Ok s0 ->
  let s := Swapui.run turns s0 in
  ((Swapui.v2spot s = None /\ Swapui.v3spot s = None /\
    Swapui.series s = [])
   \/
   (exists (a b at_ comb : t) (pts : list Swapui.point),
      Swapui.v2spot s = Some a /\ Swapui.v3spot s = Some b /\
      Swapui.series s = pts ++ [(at_, a, b, comb)])) /\
  (length (Swapui.series s) <= 600)%nat.
Proof.
  intros H. cbv zeta.
  assert (J0 : charted s0 /\ (length (Swapui.series s0) <= 600)%nat).
  { unfold Swapui.init in H.
    destruct (negb (i_is_connected c)); [discriminate|].
    destruct (i_block_number c); [|discriminate].
    destruct (i_v2_filter c); [|discriminate].
    destruct (i_v3_filter c); [|discriminate].
    cbn [bind] in H. injection H as <-.
    split; [left; repeat split|cbn; lia]. }
  clear H. revert s0 J0.
  induction turns as [|[p r] rest IH]; intros s0 J0; [exact J0|].
  cbn [Swapui.run]. apply IH. apply swapui_iteration_charted. exact J0.
Qed.

Lemma swapui_chart_follows_spots_witness :
  exists s0 : Swapui.Engine,
    Swapui.init connect_example = Ok s0 /\
    let s := Swapui.run [(poll_example, reconnect_example)] s0 in
    ((Swapui.v2spot s = None /\ Swapui.v3spot s = None /\
      Swapui.series s = [])
     \/
     (exists (a b at_ comb : t) (pts : list Swapui.point),
        Swapui.v2spot s = Some a /\ Swapui.v3spot s = Some b /\
        Swapui.series s = pts ++ [(at_, a, b, comb)])) /\
    (length (Swapui.series s) <= 600)%nat.
Proof.
  eexists. split; [reflexivity|].
  apply (@swapui_chart_follows_spots connect_example _
           [(poll_example, reconnect_example)]).
  reflexivity.
Defined.

(** ** The snapshot *)

Lemma lastn_rev (A : Type) (K : nat) (l : list A) :
  rev (Deque.lastn K l) = firstn K (rev l).
Proof.
  unfold Deque.lastn. destruct (Nat.le_gt_cases K (length l)) as [H|H].
  - rewrite firstn_rev. reflexivity.
  - replace (length l - K)%nat with 0%nat by lia. cbn [skipn].
    rewrite firstn_all2; [reflexivity|]. rewrite length_rev. lia.
Qed.

Lemma swapui_snapshot_ok (s : Swapui.Engine) :
  exists v2_v v3_v,
    Swapui.vwap (Swapui.v2_trades s) = Ok v2_v /\
    Swapui.vwap (Swapui.v3_trades s) = Ok v3_v /\
    Swapui.snapshot s =
    Ok {| Swapui.v2_vwap := v2_v; Swapui.v3_vwap := v3_v;
          Swapui.v2_spot := Swapui.v2spot s;
          Swapui.v3_spot := Swapui.v3spot s;
          Swapui.execs := firstn 20 (rev (Swapui.recent_execs s));
          Swapui.chart_df := Swapui.series s |}.
Proof.
  destruct (vwap_total (Swapui.v2_trades s)) as [a Ha].
  destruct (vwap_total (Swapui.v3_trades s)) as [b Hb].
  rewrite <- vwaps_agree in Ha, Hb. exists a, b.
  split; [exact Ha|]. split; [exact Hb|].
  unfold Swapui.snapshot. rewrite Ha, Hb. cbn [bind].
  rewrite lastn_rev. reflexivity.
Qed.

(** X6.  [snapshot] never raises.  It reports the VWAP of each window,
    the spot prices and the chart as the engine holds them, and at most
    twenty trade records, newest first: the first twenty of the trade log
    read backwards.  Right after a trade is logged, that trade is the
    first record of the snapshot. *)
Theorem swapui_snapshot_spec (s : Swapui.Engine) :
  (exists snap : Swapui.Snapshot,
     Swapui.snapshot s = Ok snap /\
     Swapui.vwap (Swapui.v2_trades s) = Ok (Swapui.v2_vwap snap) /\
     Swapui.vwap (Swapui.v3_trades s) = Ok (Swapui.v3_vwap snap) /\
     Swapui.v2_spot snap = Swapui.v2spot s /\
     Swapui.v3_spot snap = Swapui.v3spot s /\
     Swapui.chart_df snap = Swapui.series s /\
     Swapui.execs snap = firstn 20 (rev (Swapui.recent_execs s)) /\
     (length (Swapui.execs snap) <= 20)%nat) /\
  (forall (v : Venue) (x : Swapui.ExecTrade),
     exists snap : Swapui.Snapshot,
       Swapui.snapshot (log_trade v x s) = Ok snap /\
       hd_error (Swapui.execs snap) = Some x).
Proof.
  split.
  - destruct (swapui_snapshot_ok s) as (a & b & Ha & Hb & Hs).
    eexists. split; [exact Hs|].
    cbn [Swapui.v2_vwap Swapui.v3_vwap Swapui.v2_spot Swapui.v3_spot
         Swapui.execs Swapui.chart_df].
    repeat split; try assumption. rewrite length_firstn. lia.
  - intros v x.
    destruct (swapui_snapshot_ok (log_trade v x s)) as (a & b & _ & _ & Hs).
    eexists. split; [exact Hs|]. cbn [Swapui.execs].
    assert (E : Swapui.recent_execs (log_trade v x s)
                = Deque.append 200 (Swapui.recent_execs s) x)
      by (destruct v; reflexivity).
    rewrite E.
    destruct (@append_ends _ 200 (Swapui.recent_execs s) x) as [pts Hp];
      [lia|].
    rewrite Hp, rev_app_distr. reflexivity.
Qed.

(** ** A batch of log entries in [spotprice.py] *)

Lemma spotprice_poll_v2_cons (log : Log V2SwapArgs)
  (rest : list (Log V2SwapArgs)) (s : Spotprice.Main) :
  Spotprice.poll_v2 (Ok (log :: rest)) s =
  match process_log log with
  | Raise e => (Raise e, s)
  | Ok (args, hash) =>
      Spotprice.poll_v2 (Ok rest)
        (match v2_accept args with
         | Some e => note_trade V2 (exec_of log V2 e hash) s
         | None => s
         end)
  end.
Proof.
  unfold Spotprice.poll_v2, bindM, lift. cbn [for_each]. unfold bindM, lift.
  destruct (process_log log) as [[args hash]|e]; [|reflexivity].
  rewrite spotprice_v2_decodes.
  destruct (v2_accept args) as [[px sz]|]; reflexivity.
Qed.

Lemma spotprice_poll_v3_cons (log : Log V3SwapArgs)
  (rest : list (Log V3SwapArgs)) (s : Spotprice.Main) :
  Spotprice.poll_v3 (Ok (log :: rest)) s =
  match process_log log with
  | Raise e => (Raise e, s)
  | Ok (args, hash) =>
      Spotprice.poll_v3 (Ok rest)
        (match v3_accept args with
         | Some e => note_trade V3 (exec_of log V3 e hash) s
         | None => s
         end)
  end.
Proof.
  unfold Spotprice.poll_v3, bindM, lift. cbn [for_each]. unfold bindM, lift.
  destruct (process_log log) as [[args hash]|e]; [|reflexivity].
  rewrite spotprice_v3_decodes.
  destruct (v3_accept args) as [[px sz]|]; reflexivity.
Qed.

Lemma spotprice_poll_v2_batch (logs : list (Log V2SwapArgs))
  (s : Spotprice.Main) :
  Spotprice.poll_v2 (Ok logs) s =
  (ending (snd (batch v2_accept V2 logs)),
   note_trades V2 (fst (batch v2_accept V2 logs)) s).
Proof.
  revert s. induction logs as [|log rest IH]; intros s; [reflexivity|].
  rewrite spotprice_poll_v2_cons. cbn [batch].
  destruct (process_log log) as [[args hash]|e]; [|reflexivity].
  rewrite IH. destruct (batch v2_accept V2 rest) as [xs end_].
  destruct (v2_accept args); reflexivity.
Qed.

Lemma spotprice_poll_v3_batch (logs : list (Log V3SwapArgs))
  (s : Spotprice.Main) :
  Spotprice.poll_v3 (Ok logs) s =
  (ending (snd (batch v3_accept V3 logs)),
   note_trades V3 (fst (batch v3_accept V3 logs)) s).
Proof.
  revert s. induction logs as [|log rest IH]; intros s; [reflexivity|].
  rewrite spotprice_poll_v3_cons. cbn [batch].
  destruct (process_log log) as [[args hash]|e]; [|reflexivity].
  rewrite IH. destruct (batch v3_accept V3 rest) as [xs end_].
  destruct (v3_accept args); reflexivity.
Qed.

Lemma note_trades_stdout (v : Venue) (xs : list Swapui.ExecTrade)
  (s : Spotprice.Main) :
  Spotprice.stdout (note_trades v xs s)
  = Spotprice.stdout s ++ map swap_line xs.
Proof.
  revert s. induction xs as [|x xs IH]; intros s.
  - cbn. rewrite app_nil_r. reflexivity.
  - cbn [note_trades fold_left]. fold (note_trades v xs (note_trade v x s)).
    rewrite IH. cbn [map]. destruct v; cbn; rewrite <- app_assoc; reflexivity.
Qed.

Lemma note_trades_v2 (xs : list Swapui.ExecTrade) (s : Spotprice.Main) :
  Spotprice.v2_win (note_trades V2 xs s)
  = Deque.extend Spotprice.VWAP_WINDOW (Spotprice.v2_win s)
      (map window_entry xs) /\
  Spotprice.v3_win (note_trades V2 xs s) = Spotprice.v3_win s.
Proof.
  revert s. induction xs as [|x xs IH]; intros s; [split; reflexivity|].
  cbn [note_trades fold_left]. fold (note_trades V2 xs (note_trade V2 x s)).
  destruct (IH (note_trade V2 x s)) as [H1 H2]. rewrite H1, H2.
  split; reflexivity.
Qed.

Lemma note_trades_v3 (xs : list Swapui.ExecTrade) (s : Spotprice.Main) :
  Spotprice.v3_win (note_trades V3 xs s)
  = Deque.extend Spotprice.VWAP_WINDOW (Spotprice.v3_win s)
      (map window_entry xs) /\
  Spotprice.v2_win (note_trades V3 xs s) = Spotprice.v2_win s.
Proof.
  revert s. induction xs as [|x xs IH]; intros s; [split; reflexivity|].
  cbn [note_trades fold_left]. fold (note_trades V3 xs (note_trade V3 x s)).
  destruct (IH (note_trade V3 x s)) as [H1 H2]. rewrite H1, H2.
  split; reflexivity.
Qed.

Lemma note_trades_rest (v : Venue) (xs : list Swapui.ExecTrade)
  (s : Spotprice.Main) :
  same_but_output s (note_trades v xs s).
Proof.
  revert s. induction xs as [|x xs IH]; intros s; [repeat split|].
  cbn [note_trades fold_left]. fold (note_trades v xs (note_trade v x s)).
  destruct (IH (note_trade v x s)) as (A1 & A2 & A3 & A4 & A5 & A6).
  unfold same_but_output. rewrite A1, A2, A3, A4, A5, A6.
  destruct v; repeat split.
Qed.

(** X7.  A batch of log entries handled by [main] of [spotprice.py]: the
    venue's window gets, one by one and in the order of the batch, the
    accepted swaps of the entries before the first entry that cannot be
    processed, and one line is printed for each of them, in that order;
    the loop ends with the exception of that entry, or normally if there
    is none.  The other window, the handles and the time of the last
    spot block stay as they are. *)
Theorem spotprice_poll_batch :
  (forall (logs : list (Log V2SwapArgs)) (s : Spotprice.Main),
     let xs := fst (batch v2_accept V2 logs) in
     let s' := snd (Spotprice.poll_v2 (Ok logs) s) in
     fst (Spotprice.poll_v2 (Ok logs) s)
       = ending (snd (batch v2_accept V2 logs)) /\
     Spotprice.v2_win s'
       = Deque.extend Spotprice.VWAP_WINDOW (Spotprice.v2_win s)
           (map window_entry xs) /\
     Spotprice.stdout s' = Spotprice.stdout s ++ map swap_line xs /\
     Forall (fun x => Swapui.pool x = V2) xs /\
     Spotprice.v3_win s' = Spotprice.v3_win s /\
     same_but_output s s') /\
  (forall (logs : list (Log V3SwapArgs)) (s : Spotprice.Main),
     let xs := fst (batch v3_accept V3 logs) in
     let s' := snd (Spotprice.poll_v3 (Ok logs) s) in
     fst (Spotprice.poll_v3 (Ok logs) s)
       = ending (snd (batch v3_accept V3 logs)) /\
     Spotprice.v3_win s'
       = Deque.extend Spotprice.VWAP_WINDOW (Spotprice.v3_win s)
           (map window_entry xs) /\
     Spotprice.stdout s' = Spotprice.stdout s ++ map swap_line xs /\
     Forall (fun x => Swapui.pool x = V3) xs /\
     Spotprice.v2_win s' = Spotprice.v2_win s /\
     same_but_output s s') /\
  (forall (e : exn) (s : Spotprice.Main),
     Spotprice.poll_v2 (Raise e) s = (Raise e, s) /\
     Spotprice.poll_v3 (Raise e) s = (Raise e, s)).
Proof.
  split; [|split].
  - intros logs s xs s'. subst xs s'. rewrite spotprice_poll_v2_batch.
    cbn [fst snd]. split; [reflexivity|].
    destruct (note_trades_v2 (fst (batch v2_accept V2 logs)) s) as [H1 H2].
    split; [exact H1|]. split; [apply note_trades_stdout|].
    split; [apply batch_pool|]. split; [exact H2|apply note_trades_rest].
  - intros logs s xs s'. subst xs s'. rewrite spotprice_poll_v3_batch.
    cbn [fst snd]. split; [reflexivity|].
    destruct (note_trades_v3 (fst (batch v3_accept V3 logs)) s) as [H1 H2].
    split; [exact H1|]. split; [apply note_trades_stdout|].
    split; [apply batch_pool|]. split; [exact H2|apply note_trades_rest].
  - intros e s. split; reflexivity.
Qed.

(** ** The spot blocks and the turn of [spotprice.py] *)

Lemma deviation_total (vw : option t) (spot : t) :
  exists d, Spotprice.deviation vw spot = Ok d.
Proof.
  destruct vw as [x|]; [apply pct_diff_total|eexists; reflexivity].
Qed.

Lemma spot_check_lines (v : Venue) (call : result t) (vw : option t)
  (s : Spotprice.Main) :
  Spotprice.spot_check v call vw s =
  (Ok tt,
   Spotprice.set_stdout (Spotprice.stdout s ++ spot_lines v call vw) s).
Proof.
  destruct call as [spot|e]; [|reflexivity].
  destruct (deviation_total vw spot) as [d Hd].
  erewrite spot_check_prints by exact Hd.
  unfold spot_lines. rewrite Hd. reflexivity.
Qed.

(** X8.  A spot block never raises, whatever its pool query does: a
    failed query costs one line naming the failure, an answered one
    prints the spot price and, when the deviation of the VWAP from it is
    strictly above one percent in absolute value, one warning.  Nothing
    but the output is touched. *)
Theorem spotprice_spot_check_contained (v : Venue) (call : result t)
  (vw : option t) (s : Spotprice.Main) :
  let s' := snd (Spotprice.spot_check v call vw s) in
  fst (Spotprice.spot_check v call vw s) = Ok tt /\
  Spotprice.stdout s' = Spotprice.stdout s ++ spot_lines v call vw /\
  (forall e, call = Raise e ->
             spot_lines v call vw = [Spotprice.PrintSpotFailed v e]) /\
  (forall spot, call = Ok spot ->
     exists d, Spotprice.deviation vw spot = Ok d /\
               spot_lines v call vw
               = Spotprice.PrintSpot v spot :: Spotprice.warnings d) /\
  Spotprice.v2_win s' = Spotprice.v2_win s /\
  Spotprice.v3_win s' = Spotprice.v3_win s /\
  same_but_output s s'.
Proof.
  intros s'. subst s'. rewrite spot_check_lines. cbn [fst snd].
  split; [reflexivity|]. split; [reflexivity|].
  split; [intros e ->; reflexivity|].
  split; [|repeat split].
  intros spot ->. destruct (deviation_total vw spot) as [d Hd].
  exists d. split; [exact Hd|]. unfold spot_lines. rewrite Hd. reflexivity.
Qed.

Lemma spotprice_body_after_polls (p : Poll) (s : Spotprice.Main) :
  Spotprice.body p s =
  match spotprice_polls p s with
  | (Raise e, s1) => (Raise e, s1)
  | (Ok _, s1) =>
      match Spotprice.vwap (Spotprice.v2_win s1),
            Spotprice.vwap (Spotprice.v3_win s1) with
      | Ok v2_v, Ok v3_v =>
          (Ok tt,
           Spotprice.set_last_spot_t
             (if geb (sub (now p) (Spotprice.last_spot_t s1))
                   Spotprice.SPOT_INTERVAL_SEC
              then now p else Spotprice.last_spot_t s1)
             (Spotprice.set_stdout
                (Spotprice.stdout s1 ++ report_lines p s1 v2_v v3_v) s1))
      | Raise e, _ => (Raise e, s1)
      | Ok _, Raise e => (Raise e, s1)
      end
  end.
Proof.
  unfold Spotprice.body, spotprice_polls, bindM.
  destruct (Spotprice.poll_v2 (v2_new_entries p) s) as [[[]|e] s1];
    [|reflexivity].
  destruct (Spotprice.poll_v3 (v3_new_entries p) s1) as [[[]|e] s2];
    [|reflexivity].
  unfold gets, lift, report_lines.
  destruct (Spotprice.vwap (Spotprice.v2_win s2)) as [a|e]; [|reflexivity].
  destruct (Spotprice.vwap (Spotprice.v3_win s2)) as [b|e]; [|reflexivity].
  destruct s2 as [c0 c1 c2 f0 f1 w2 w3 lt out].
  destruct a as [a|], b as [b|];
    cbn [Spotprice.print_vwap Spotprice.print modify gets ret bindM
         Spotprice.last_spot_t Spotprice.stdout Spotprice.v2_win
         Spotprice.v3_win Spotprice.set_stdout Spotprice.w3 Spotprice.v2
         Spotprice.v3 Spotprice.v2_f Spotprice.v3_f vwap_line];
    unfold bindM, gets, modify;
    cbn [Spotprice.last_spot_t Spotprice.stdout Spotprice.v2_win
         Spotprice.v3_win Spotprice.set_stdout Spotprice.w3 Spotprice.v2
         Spotprice.v3 Spotprice.v2_f Spotprice.v3_f];
    destruct (geb (sub (now p) lt) Spotprice.SPOT_INTERVAL_SEC);
    rewrite ?spot_check_lines;
    cbn [Spotprice.last_spot_t Spotprice.stdout Spotprice.v2_win
         Spotprice.v3_win Spotprice.set_stdout Spotprice.set_last_spot_t
         Spotprice.w3 Spotprice.v2 Spotprice.v3 Spotprice.v2_f
         Spotprice.v3_f ret app];
    rewrite ?spot_check_lines;
    cbn [Spotprice.last_spot_t Spotprice.stdout Spotprice.v2_win
         Spotprice.v3_win Spotprice.set_stdout Spotprice.set_last_spot_t
         Spotprice.w3 Spotprice.v2 Spotprice.v3 Spotprice.v2_f
         Spotprice.v3_f ret app];
    unfold Spotprice.set_last_spot_t, Spotprice.set_stdout;
    cbn [Spotprice.last_spot_t Spotprice.stdout Spotprice.v2_win
         Spotprice.v3_win Spotprice.w3 Spotprice.v2 Spotprice.v3
         Spotprice.v2_f Spotprice.v3_f];
    rewrite <- ?app_assoc, ?app_nil_r; reflexivity.
Qed.

(** X9.  A turn of [main] of [spotprice.py] fails only through its
    polls: it ends as its two polls end, and when they fail the state is
    as they left it.  When they succeed the windows stay as the polls
    left them and the turn prints, in this order, the VWAP of each window
    that has one and, when the spot interval has passed, the lines of the
    spot block of the second venue and then of the first -- a failed pool
    query costs its line and nothing else -- and it takes the time of
    the turn as the time of the last spot block exactly when the interval
    had passed. *)
Theorem spotprice_body_spec (p : Poll) (s : Spotprice.Main) :
  let s1 := snd (spotprice_polls p s) in
  let s' := snd (Spotprice.body p s) in
  fst (Spotprice.body p s) = fst (spotprice_polls p s) /\
  (fst (spotprice_polls p s) <> Ok tt -> s' = s1) /\
  (fst (spotprice_polls p s) = Ok tt ->
   exists v2_v v3_v : option t,
     Spotprice.vwap (Spotprice.v2_win s1) = Ok v2_v /\
     Spotprice.vwap (Spotprice.v3_win s1) = Ok v3_v /\
     Spotprice.stdout s'
       = Spotprice.stdout s1 ++ report_lines p s1 v2_v v3_v /\
     Spotprice.last_spot_t s'
       = (if geb (sub (now p) (Spotprice.last_spot_t s1))
               Spotprice.SPOT_INTERVAL_SEC
          then now p else Spotprice.last_spot_t s1) /\
     Spotprice.v2_win s' = Spotprice.v2_win s1 /\
     Spotprice.v3_win s' = Spotprice.v3_win s1).
Proof.
  intros s1 s'. subst s1 s'. rewrite spotprice_body_after_polls.
  destruct (spotprice_polls p s) as [[[]|e] s1]; cbn [fst snd].
  - destruct (vwap_total (Spotprice.v2_win s1)) as [a Ha].
    destruct (vwap_total (Spotprice.v3_win s1)) as [b Hb].
    rewrite Ha, Hb. cbn [fst snd]. split; [reflexivity|].
    split; [intros N; exfalso; apply N; reflexivity|].
    intros _. exists a, b. repeat split.
  - split; [reflexivity|]. split; [reflexivity|discriminate].
Qed.

(** ** How a turn of [spotprice.py] ends *)

Lemma spotprice_reconnect_outcome (r : Reconnect) (e : exn)
  (s : Spotprice.Main) :
  fst (Spotprice.reconnect r e s) =
  (_ <- r_w3 r ;; _ <- r_block_number_v2 r ;; _ <- r_v2_filter r ;;
   _ <- r_block_number_v3 r ;; _ <- r_v3_filter r ;; Ok tt).
Proof.
  unfold Spotprice.reconnect, Spotprice.print, bindM, lift, modify.
  destruct (r_w3 r); [|reflexivity].
  destruct (r_block_number_v2 r); [|reflexivity].
  destruct (r_v2_filter r); [|reflexivity].
  destruct (r_block_number_v3 r); [|reflexivity].
  destruct (r_v3_filter r); reflexivity.
Qed.

Lemma spotprice_iteration_outcome (p : Poll) (r : Reconnect)
  (s : Spotprice.Main) (e : exn) :
  fst (Spotprice.body p s) = Raise e ->
  fst (Spotprice.iteration p r s) =
  (_ <- r_w3 r ;; _ <- r_block_number_v2 r ;; _ <- r_v2_filter r ;;
   _ <- r_block_number_v3 r ;; _ <- r_v3_filter r ;; Ok tt).
Proof.
  intros H. unfold Spotprice.iteration, try_except.
  destruct (Spotprice.body p s) as [[[]|e'] s1]; cbn [fst] in H;
    [discriminate|].
  apply spotprice_reconnect_outcome.
Qed.

(** X10.  When the body of a turn of [main] of [spotprice.py] fails, the
    turn ends as the reconnect ends: normally if the node answers all
    five calls, and otherwise with the exception of the first call that
    fails -- which then ends the whole loop, the later turns not taken.
    The windows are in any case as the failed body left them. *)
Theorem spotprice_failed_turn (p : Poll) (r : Reconnect)
  (s : Spotprice.Main) (e : exn) :
  fst (Spotprice.body p s) = Raise e ->
  let outcome :=
    (_ <- r_w3 r ;; _ <- r_block_number_v2 r ;; _ <- r_v2_filter r ;;
     _ <- r_block_number_v3 r ;; _ <- r_v3_filter r ;; Ok tt) in
  fst (Spotprice.iteration p r s) = outcome /\
  Spotprice.same_windows (snd (Spotprice.body p s))
    (snd (Spotprice.iteration p r s)) /\
  (forall (e' : exn) (rest : list (Poll * Reconnect)),
     outcome = Raise e' ->
     Spotprice.run ((p, r) :: rest) s
     = (Raise e', snd (Spotprice.iteration p r s))).
Proof.
  intros H outcome. subst outcome.
  pose proof (spotprice_iteration_outcome p r s H) as Ho.
  split; [exact Ho|]. split.
  - unfold Spotprice.iteration, try_except.
    destruct (Spotprice.body p s) as [[[]|e'] s1]; cbn [fst snd] in *;
      [discriminate|]. apply spotprice_reconnect_windows.
  - intros e' rest E. rewrite <- Ho in E.
    cbn [Spotprice.run]. unfold bindM.
    destruct (Spotprice.iteration p r s) as [[[]|e''] s2]; cbn [fst] in E;
      [discriminate|]. injection E as ->. reflexivity.
Qed.

Lemma spotprice_failed_turn_witness :
  exists s : Spotprice.Main,
    Spotprice.start connect_example = Ok s /\
    fst (Spotprice.body failing_poll s) = Raise TransportError /\
    fst (Spotprice.iteration failing_poll failing_reconnect s)
    = Raise TransportError.
Proof.
  eexists. split; [reflexivity|]. split; [reflexivity|].
  apply (@spotprice_failed_turn failing_poll failing_reconnect _
           TransportError).
  reflexivity.
Defined.

(** ** The spot price of the concentrated-liquidity pool *)

Lemma this_plus (x y : Qc) : (this (x + y)%Qc == this x + this y)%Q.
Proof. unfold Qcplus, Q2Qc; cbn [this]. apply Qred_correct. Qed.

Lemma this_mult (x y : Qc) : (this (x * y)%Qc == this x * this y)%Q.
Proof. unfold Qcmult, Q2Qc; cbn [this]. apply Qred_correct. Qed.

Lemma this_Q2Qc (q : Q) : (this (Q2Qc q) == q)%Q.
Proof. unfold Q2Qc; cbn [this]. apply Qred_correct. Qed.












(** ** The VWAP between the lowest and the highest price *)





(** ** The VWAP of decoded swaps *)






(** ** The sign of the deviation *)

Lemma this_minus (x y : Qc) : (this (x - y)%Qc == this x - this y)%Q.
Proof.
  unfold Qcminus. rewrite this_plus, Qc_to_Q_opp. reflexivity.
Qed.

Lemma this_pct (a b : Qc) :
  (this (Q2Qc (inject_Z 100) * (a - b) / b)%Qc
   == 100 * (this a - this b) / this b)%Q.
Proof.
  rewrite this_div, this_mult, this_minus, this_Q2Qc. reflexivity.
Qed.

(** X14.  Against a finite, strictly positive spot price the deviation of
    a finite VWAP is there, and its sign is the sign of VWAP minus spot:
    positive exactly when the VWAP is above the spot price, negative
    exactly when it is below, zero exactly when they are equal. *)
Theorem pct_diff_sign (a b : Qc) :
  (0 < b)%Qc ->
  exists d : Qc,
    Spotprice.pct_diff (Some (Fin a)) (Some (Fin b)) = Ok (Some (Fin d)) /\
    ((0 < d)%Qc <-> (b < a)%Qc) /\
    ((d < 0)%Qc <-> (a < b)%Qc) /\
    (d = 0%Qc <-> a = b).
Proof.
  intros Hb. exists (Q2Qc (inject_Z 100) * (a - b) / b)%Qc.
  split; [apply pct_diff_Fin, Qc_pos_neq0, Hb|].
  unfold Qclt in *. change (this 0%Qc) with 0%Q in *.
  assert (I : (0 < / this b)%Q) by (apply Qinv_lt_0_compat; exact Hb).
  assert (M : (/ this b * this b == 1)%Q)
    by (rewrite Qmult_comm; apply Qmult_inv_r; lra).
  assert (D : (this (Q2Qc (inject_Z 100) * (a - b) / b)%Qc
               == 100 * (this a - this b) * / this b)%Q)
    by (rewrite this_pct; reflexivity).
  set (d := (Q2Qc (inject_Z 100) * (a - b) / b)%Qc) in *.
  set (x := this a) in *. set (y := this b) in *. set (i := / y) in *.
  set (z := this d) in *.
  assert (Z1 : (z * y == 100 * (x - y))%Q).
  { rewrite D. rewrite <- Qmult_assoc, M. ring. }
  split; [split; intros H; nra|]. split; [split; intros H; nra|].
  split.
  - intros E. apply Qc_is_canon. fold x y.
    assert (E0 : (z == 0)%Q) by (subst z; rewrite E; reflexivity).
    nra.
  - intros E. apply Qc_is_canon. change (this 0%Qc) with 0%Q. fold z.
    assert (E0 : (x == y)%Q) by (subst x y; rewrite E; reflexivity).
    nra.
Qed.

Lemma pct_diff_sign_witness :
  exists d : Qc,
    Spotprice.pct_diff (Some (Fin (Q2Qc (inject_Z 1818))))
      (Some (Fin (Q2Qc (inject_Z 1800)))) = Ok (Some (Fin d)) /\
    ((0 < d)%Qc <-> (Q2Qc (inject_Z 1800) < Q2Qc (inject_Z 1818))%Qc) /\
    ((d < 0)%Qc <-> (Q2Qc (inject_Z 1818) < Q2Qc (inject_Z 1800))%Qc) /\
    (d = 0%Qc <-> Q2Qc (inject_Z 1818) = Q2Qc (inject_Z 1800)).
Proof.
  apply pct_diff_sign. vm_compute. reflexivity.
Defined.

(** ** An empty pool and the deviation monitor *)

Lemma pct_diff_inf (a : t) :
  Spotprice.pct_diff (Some a) (Some PInf) = Ok (Some NaN).
Proof.
  rewrite pct_diff_some. destruct a as [q| | |]; reflexivity.
Qed.

(** X15.  A pool whose base reserve is zero gets the spot price
    infinity, and against it the deviation of any VWAP is [nan]: the spot
    block prints the infinite spot price and never a warning. *)
Theorem empty_pool_never_warns (r1 ts : Z) (vw : option t) :
  Spotprice.v2_spot_price (Ok (0, r1, ts))%Z = Ok PInf /\
  (forall a : t, Spotprice.pct_diff (Some a) (Some PInf) = Ok (Some NaN)) /\
  Spotprice.exceeds (Some NaN) = false /\
  spot_lines V2 (Spotprice.v2_spot_price (Ok (0, r1, ts))%Z) vw
  = [Spotprice.PrintSpot V2 PInf] /\
  (forall s : Spotprice.Main,
     Spotprice.stdout
       (snd (Spotprice.spot_check V2
               (Spotprice.v2_spot_price (Ok (0, r1, ts))%Z) vw s))
     = Spotprice.stdout s ++ [Spotprice.PrintSpot V2 PInf]).
Proof.
  assert (S0 : Spotprice.v2_spot_price (Ok (0, r1, ts))%Z = Ok PInf).
  { unfold Spotprice.v2_spot_price. cbn [bind]. rewrite mid_price.
    reflexivity. }
  assert (L : spot_lines V2 (Ok PInf) vw = [Spotprice.PrintSpot V2 PInf]).
  { unfold spot_lines, Spotprice.deviation.
    destruct vw as [a|]; [rewrite pct_diff_inf|]; reflexivity. }
  split; [exact S0|]. split; [exact pct_diff_inf|]. split; [reflexivity|].
  rewrite S0. split; [exact L|].
  intros s. rewrite spot_check_lines, L. reflexivity.
Qed.

(** ** [nan] in the simple average *)

Lemma add_NaN_l (x : t) : add NaN x = NaN.
Proof. destruct x; reflexivity. Qed.

Lemma add_NaN_r (x : t) : add x NaN = NaN.
Proof. destruct x; reflexivity. Qed.

Lemma fold_add_NaN (l : list t) : fold_left add l NaN = NaN.
Proof.
  induction l as [|x l IH]; [reflexivity|]. cbn [fold_left].
  rewrite add_NaN_l. exact IH.
Qed.

Lemma fold_add_In_NaN (l : list t) (acc : t) :
  In NaN l -> fold_left add l acc = NaN.
Proof.
  revert acc. induction l as [|x l IH]; intros acc H; [destruct H|].
  cbn [fold_left]. destruct H as [->|H].
  - rewrite add_NaN_r. apply fold_add_NaN.
  - apply IH. exact H.
Qed.

(** X16.  The simple average does not filter [nan]: as soon as one
    stored value is [nan], the average is [nan], whatever the other
    values are. *)
Theorem safe_avg_nan (values : list t) :
  In NaN values -> Price.safe_avg values = Ok (Some NaN).
Proof.
  intros H.
  assert (K : In NaN (filter Price.kept values))
    by (apply filter_In; split; [exact H|reflexivity]).
  rewrite safe_avg_unfold.
  destruct (filter Price.kept values) as [|x l]; [destruct K|].
  unfold sum. rewrite (@fold_add_In_NaN (x :: l) (of_Z 0) K).
  unfold div, of_Z.
  rewrite (proj2 (is_zero_Fin _) (@count_neq0 _ x l)). reflexivity.
Qed.

Lemma safe_avg_nan_witness :
  Price.safe_avg [of_Z 1800; NaN; of_Z 1900] = Ok (Some NaN).
Proof.
  apply safe_avg_nan. right. left. reflexivity.
Defined.

(** ** The transfer windows of [price.py] *)

Lemma append_is_lastn (A : Type) (K : nat) (d : list A) (x : A) :
  (length d <= K)%nat -> Deque.append K d x = Deque.lastn K (d ++ [x]).
Proof.
  intros H. change (Deque.append K d x) with (Deque.extend K d [x]).
  apply extend_lastn. exact H.
Qed.

Lemma lastn_lastn (A : Type) (K1 K2 : nat) (l : list A) :
  (K1 <= K2)%nat -> Deque.lastn K1 (Deque.lastn K2 l) = Deque.lastn K1 l.
Proof.
  intros H. destruct (Nat.le_gt_cases (length l) K2) as [L|L].
  - rewrite (@lastn_short A K2 l L). reflexivity.
  - rewrite <- (@lastn_suffix A K2 l) at 2.
    symmetry. apply lastn_front. rewrite lastn_length. lia.
Qed.

Lemma note_transfer_tail (s : Price.Transfers) (td : Price.TransferDetails) :
  tail_of_long s -> tail_of_long (note_transfer s td).
Proof.
  intros [H5 H50]. unfold tail_of_long, note_transfer.
  cbn [Price.last5_transfers Price.last50_transfers]. split.
  - rewrite H5.
    rewrite (@append_is_lastn _ 5 (Deque.lastn 5 (Price.last50_transfers s)))
      by (rewrite lastn_length; lia).
    rewrite lastn_lastn_app.
    rewrite (@append_is_lastn _ 50 (Price.last50_transfers s)) by exact H50.
    rewrite lastn_lastn by lia. reflexivity.
  - apply append_length. exact H50.
Qed.

Lemma fold_note_transfer_tail (tds : list Price.TransferDetails)
  (s : Price.Transfers) :
  tail_of_long s -> tail_of_long (fold_left note_transfer tds s).
Proof.
  revert s. induction tds as [|td tds IH]; intros s H; [exact H|].
  cbn [fold_left]. apply IH. apply note_transfer_tail. exact H.
Qed.

Lemma fold_note_transfer_last50 (tds : list Price.TransferDetails)
  (s : Price.Transfers) :
  Price.last50_transfers (fold_left note_transfer tds s)
  = Deque.extend 50 (Price.last50_transfers s) tds.
Proof.
  revert s. induction tds as [|td tds IH]; intros s; [reflexivity|].
  cbn [fold_left]. rewrite IH. reflexivity.
Qed.

Lemma poll_transfers_cons (log : Log Price.TransferArgs)
  (rest : list (Log Price.TransferArgs)) (s : Price.Transfers) :
  Price.poll_transfers (Ok (log :: rest)) s =
  match Price.decode_transfer log with
  | Raise e => (Raise e, s)
  | Ok td => Price.poll_transfers (Ok rest) (note_transfer s td)
  end.
Proof.
  unfold Price.poll_transfers, bindM at 1 2, lift at 1. cbn [for_each].
  unfold bindM at 1 2, lift at 1.
  destruct (Price.decode_transfer log) as [td|e]; reflexivity.
Qed.

Lemma poll_transfers_nil (s : Price.Transfers) :
  Price.poll_transfers (Ok []) s =
  (Ok tt,
   if (length (Price.last5_transfers s) =? 0)%nat then s
   else {| Price.last5_transfers := Price.last5_transfers s;
           Price.last50_transfers := Price.last50_transfers s;
           Price.stdout :=
             Price.stdout s ++
             [Price.PrintTotal5
                (sum (map Price.amount (Price.last5_transfers s)))] |}).
Proof.
  unfold Price.poll_transfers, bindM, lift, gets. cbn [for_each ret].
  destruct (length (Price.last5_transfers s) =? 0)%nat; reflexivity.
Qed.

Lemma poll_transfers_batch (logs : list (Log Price.TransferArgs))
  (s : Price.Transfers) :
  let s1 := fold_left note_transfer (fst (transfers_of logs)) s in
  Price.poll_transfers (Ok logs) s =
  match snd (transfers_of logs) with
  | Some e => (Raise e, s1)
  | None => Price.poll_transfers (Ok []) s1
  end.
Proof.
  revert s. induction logs as [|log rest IH]; intros s; [reflexivity|].
  cbv zeta in *. rewrite poll_transfers_cons. cbn [transfers_of].
  destruct (Price.decode_transfer log) as [td|e]; [|reflexivity].
  rewrite IH. destruct (transfers_of rest) as [tds end_]. reflexivity.
Qed.

(** X17.  In [price.py] the window of the last five transfers is always
    the tail of the window of the last fifty: a batch of transfer logs
    keeps that, however it ends.  The long window gets the transfers
    decoded before the first log that cannot be decoded, in order; the
    batch ends with the exception of that log, or normally, and then, if
    there is a transfer at all, the last line printed is the total of
    the amounts of the five newest transfers of the long window. *)
Theorem price_transfer_windows
  (entries : result (list (Log Price.TransferArgs))) (s : Price.Transfers) :
  Price.last5_transfers s = Deque.lastn 5 (Price.last50_transfers s) ->
  (length (Price.last50_transfers s) <= 50)%nat ->
  let s' := snd (Price.poll_transfers entries s) in
  Price.last5_transfers s' = Deque.lastn 5 (Price.last50_transfers s') /\
  (length (Price.last50_transfers s') <= 50)%nat /\
  (forall logs, entries = Ok logs ->
     Price.last50_transfers s'
     = Deque.extend 50 (Price.last50_transfers s) (fst (transfers_of logs)) /\
     fst (Price.poll_transfers entries s)
     = ending (snd (transfers_of logs))) /\
  (fst (Price.poll_transfers entries s) = Ok tt ->
   Price.last5_transfers s' <> [] ->
   exists pre,
     Price.stdout s'
     = pre ++ [Price.PrintTotal5
                 (sum (map Price.amount
                         (Deque.lastn 5 (Price.last50_transfers s'))))]).
Proof.
  intros H5 H50 s'. subst s'.
  assert (T0 : tail_of_long s) by (split; assumption).
  destruct entries as [logs|e].
  2:{ cbn [snd fst]. split; [exact H5|]. split; [exact H50|].
      split; [intros logs N; discriminate|intros N; discriminate]. }
  rewrite poll_transfers_batch.
  set (tds := fst (transfers_of logs)).
  pose proof (fold_note_transfer_tail tds T0) as [T5 T50].
  pose proof (fold_note_transfer_last50 tds s) as L50.
  set (s1 := fold_left note_transfer tds s) in *.
  destruct (snd (transfers_of logs)) as [e|] eqn:E.
  - cbn [snd fst]. split; [exact T5|]. split; [exact T50|].
    split; [|intros N; discriminate].
    intros logs' N. injection N as <-. subst tds. rewrite E.
    split; [exact L50|reflexivity].
  - rewrite poll_transfers_nil. cbn [fst snd].
    destruct (length (Price.last5_transfers s1) =? 0)%nat eqn:Z.
    + split; [exact T5|]. split; [exact T50|]. split.
      * intros logs' N. injection N as <-. subst tds. rewrite E.
        split; [exact L50|reflexivity].
      * intros _ N. apply Nat.eqb_eq in Z.
        destruct (Price.last5_transfers s1); [congruence|discriminate].
    + cbn [Price.last5_transfers Price.last50_transfers Price.stdout].
      split; [exact T5|]. split; [exact T50|]. split.
      * intros logs' N. injection N as <-. subst tds. rewrite E.
        split; [exact L50|reflexivity].
      * intros _ _. exists (Price.stdout s1). rewrite T5. reflexivity.
Qed.

Lemma price_transfer_windows_witness :
  let s' := snd (Price.poll_transfers (Ok transfer_logs_example)
                   Price.no_transfers) in
  Price.last5_transfers s' = Deque.lastn 5 (Price.last50_transfers s') /\
  (length (Price.last50_transfers s') <= 50)%nat.
Proof.
  cbv zeta.
  destruct (@price_transfer_windows (Ok transfer_logs_example)
              Price.no_transfers eq_refl (Nat.le_0_l 50))
    as (A & B & _).
  split; [exact A|exact B].
Defined.

(** ** Where the filters start *)

Lemma swapui_init_cases (c : Connect) :
  (i_is_connected c = false /\ Swapui.init c = Raise RuntimeError) \/
  (i_is_connected c = true /\
   Swapui.init c =
   (latest <- i_block_number c ;;
    id2 <- i_v2_filter c ;;
    id3 <- i_v3_filter c ;;
    Ok {| Swapui.w3 := i_w3 c;
          Swapui.v2 := {| c_w3 := i_w3 c; c_address := UNISWAP_V2_POOL |};
          Swapui.v3 := {| c_w3 := i_w3 c; c_address := UNISWAP_V3_POOL |};
          Swapui.v2_filter :=
            {| f_id := id2; f_fromBlock := Z.max 0 (latest - 50);
               f_address := UNISWAP_V2_POOL |};
          Swapui.v3_filter :=
            {| f_id := id3; f_fromBlock := Z.max 0 (latest - 50);
               f_address := UNISWAP_V3_POOL |};
          Swapui.v2_trades := []; Swapui.v3_trades := [];
          Swapui.recent_execs := []; Swapui.series := [];
          Swapui.v2spot := None; Swapui.v3spot := None;
          Swapui.last_spot := of_Z 0 |})).
Proof.
  unfold Swapui.init. destruct (i_is_connected c); [right|left];
    split; reflexivity.
Qed.

(** X18.  The engine starts only on a connection that is up; its two
    filters then start at the same block, fifty blocks behind the head of
    the chain and never below block zero.  A reconnect that succeeds
    starts each filter ten blocks behind the head as the node gives it
    for that filter, without the bound at zero. *)
Theorem swapui_filters_start (c : Connect) (s : Swapui.Engine) :
  Swapui.init c = Ok s ->
  i_is_connected c = true /\
  (exists latest : Z,
     i_block_number c = Ok latest /\
     f_fromBlock (Swapui.v2_filter s) = Z.max 0 (latest - 50) /\
     f_fromBlock (Swapui.v3_filter s) = Z.max 0 (latest - 50) /\
     (0 <= f_fromBlock (Swapui.v2_filter s))%Z /\
     (latest - 50 <= f_fromBlock (Swapui.v2_filter s) <= Z.max 0 latest)%Z) /\
  (forall (w : Web3) (b2 b3 : Z) (i2 i3 : nat) (e : exn),
     let r := {| r_w3 := Ok w;
                 r_block_number_v2 := Ok b2; r_v2_filter := Ok i2;
                 r_block_number_v3 := Ok b3; r_v3_filter := Ok i3 |} in
     let s' := snd (Swapui.reconnect r e s) in
     f_fromBlock (Swapui.v2_filter s') = (b2 - 10)%Z /\
     f_fromBlock (Swapui.v3_filter s') = (b3 - 10)%Z /\
     ((f_fromBlock (Swapui.v2_filter s') < 0)%Z <-> (b2 < 10)%Z)).
Proof.
  intros H. destruct (swapui_init_cases c) as [[_ E]|[C E]];
    [rewrite E in H; discriminate|].
  split; [exact C|]. split.
  - rewrite E in H. destruct (i_block_number c) as [latest|]; [|discriminate].
    destruct (i_v2_filter c); [|discriminate].
    destruct (i_v3_filter c); [|discriminate].
    cbn [bind] in H. injection H as <-. exists latest.
    cbn [Swapui.v2_filter Swapui.v3_filter f_fromBlock].
    repeat split; lia.
  - intros w b2 b3 i2 i3 e r s'. subst r s'.
    cbn. repeat split; lia.
Qed.

Lemma swapui_filters_start_witness :
  exists s : Swapui.Engine,
    Swapui.init connect_example = Ok s /\
    f_fromBlock (Swapui.v2_filter s) = 950%Z /\
    f_fromBlock (Swapui.v3_filter s) = 950%Z.
Proof.
  eexists. split; [reflexivity|].
  destruct (@swapui_filters_start connect_example _ eq_refl)
    as (_ & (latest & L & F2 & F3 & _) & _).
  injection L as <-. split; [exact F2|exact F3].
Defined.

(** ** What the chart shows as combined VWAP *)

Lemma Forall_skipn' (A : Type) (P : A -> Prop) (n : nat) (l : list A) :
  Forall P l -> Forall P (skipn n l).
Proof.
  revert l. induction n as [|n IH]; intros l H; [exact H|].
  destruct H; [constructor|]. cbn [skipn]. apply IH. assumption.
Qed.

Lemma sound_is_fin (w : list entry) :
  Forall sound_entry w ->
  exists w' : list (Qc * Qc),
    w = map fin_entry w' /\
    Forall (fun e => (0 < fst e)%Qc /\ (0 < snd e)%Qc) w'.
Proof.
  intros H. induction H as [|[p q] w Hs _ IH].
  - exists []. split; [reflexivity|constructor].
  - destruct Hs as [(p' & Ep & Hp) (q' & Eq & Hq)].
    cbn [fst snd] in Ep, Eq. subst p q.
    destruct IH as (w' & -> & Hw'). exists ((p', q') :: w').
    split; [reflexivity|]. constructor; [split; assumption|exact Hw'].
Qed.

Lemma weighted_sums_pos (w : list (Qc * Qc)) :
  Forall (fun e => (0 < fst e)%Qc /\ (0 < snd e)%Qc) w ->
  let S := Qcsum (map (fun e => (fst e * snd e)%Qc) w) in
  let W := Qcsum (map snd w) in
  (0 <= this S)%Q /\ (0 <= this W)%Q /\
  (w <> [] -> (0 < this S)%Q /\ (0 < this W)%Q).
Proof.
  intros H. induction H as [|[p q] w (Hp & Hq) _ IH];
    cbn [map Qcsum fst snd] in *.
  - change (this 0%Qc) with 0%Q. repeat split; try lra; congruence.
  - destruct IH as (I1 & I2 & _).
    unfold Qclt in Hp, Hq. change (this 0%Qc) with 0%Q in Hp, Hq.
    rewrite !this_plus, this_mult.
    set (S := this (Qcsum (map (fun e => (fst e * snd e)%Qc) w))) in *.
    set (W := this (Qcsum (map snd w))) in *.
    set (P := this p) in *. set (Q' := this q) in *.
    repeat split; try nra; intros _; nra.
Qed.

Lemma vwap_sound (w : list entry) :
  Forall sound_entry w ->
  exists comb, Spotprice.vwap w = Ok comb /\ plain (Swapui.or_nan comb).
Proof.
  intros H. destruct (sound_is_fin H) as (w' & -> & Hw').
  rewrite vwap_fin. destruct w' as [|e w']; [exists None; split; [reflexivity|left; reflexivity]|].
  destruct (weighted_sums_pos Hw') as (_ & _ & P).
  destruct P as [PS PW]; [discriminate|].
  assert (Wnz : Qcsum (map snd (e :: w')) <> 0%Qc).
  { intros E. rewrite E in PW. exact (Qlt_irrefl _ PW). }
  rewrite (proj2 (Qc_eq_bool_false_iff _ _) Wnz).
  eexists. split; [reflexivity|].
  assert (Pos : (0 < weighted_mean (e :: w'))%Qc).
  { unfold weighted_mean, Qclt. rewrite this_div.
    change (this 0%Qc) with 0%Q.
    apply Qlt_shift_div_l; [exact PW|]. rewrite Qmult_0_l. exact PS. }
  unfold Swapui.or_nan.
  rewrite (proj2 (truthy_Fin _) (Qc_pos_neq0 Pos)).
  right. apply finite_pos_Fin. exact Pos.
Qed.

Lemma combined_vwap_plain (s : Swapui.Engine) :
  Swapui.windows_hold (Forall sound_entry) s ->
  exists comb,
    Swapui.combined_vwap s = Ok comb /\ plain (Swapui.or_nan comb).
Proof.
  intros [H2 H3]. rewrite combined_vwap_unfold, vwaps_agree.
  apply vwap_sound. apply Forall_skipn'. apply Forall_app.
  split; assumption.
Qed.

Lemma spot_refresh_chart_ok (p : Poll) (s : Swapui.Engine) :
  Swapui.windows_hold (Forall sound_entry) s /\ chart_ok s ->
  Swapui.windows_hold (Forall sound_entry) (snd (Swapui.spot_refresh p s)) /\
  chart_ok (snd (Swapui.spot_refresh p s)).
Proof.
  intros [Hw Hc]. split.
  - destruct (spot_refresh_windows p s) as [E2 E3].
    unfold Swapui.windows_hold. rewrite E2, E3. exact Hw.
  - destruct (geb (sub (now p) (Swapui.last_spot s)) Swapui.SPOT_REFRESH_SEC)
      eqn:H; [|rewrite (spot_refresh_not_due _ _ H); assumption].
    destruct (v2_spot_price_cases (getReserves p)) as [(e & _ & E2)|(x & E2)];
      [rewrite (spot_refresh_v2_fails _ _ H E2); assumption|].
    destruct (v3_spot_price_cases (slot0 p)) as [(e & _ & E3)|(y & E3)];
      [rewrite (spot_refresh_v3_fails _ _ H E2 E3); assumption|].
    destruct (combined_vwap_plain Hw) as (comb & Hcomb & Hp).
    rewrite (spot_refresh_due _ _ H E2 E3 Hcomb). cbn [snd].
    unfold chart_ok. cbn [Swapui.series Swapui.set_last_spot Swapui.set_spots].
    apply append_Forall; [exact Hc|exact Hp].
Qed.

Lemma chart_ok_same (s s' : Swapui.Engine) :
  Swapui.series s' = Swapui.series s -> chart_ok s -> chart_ok s'.
Proof. unfold chart_ok. intros ->. exact (fun H => H). Qed.

Lemma swapui_iteration_chart_ok (p : Poll) (r : Reconnect)
  (s : Swapui.Engine) :
  Swapui.windows_hold (Forall sound_entry) s /\ chart_ok s ->
  Swapui.windows_hold (Forall sound_entry) (snd (Swapui.iteration p r s)) /\
  chart_ok (snd (Swapui.iteration p r s)).
Proof.
  assert (Push : forall (d : list entry) (x : entry),
             Forall sound_entry d -> sound_entry x ->
             Forall sound_entry (Deque.append Swapui.VWAP_WINDOW d x))
    by (intros; apply append_Forall; assumption).
  revert s.
  set (J := fun s : Swapui.Engine =>
              Swapui.windows_hold (Forall sound_entry) s /\ chart_ok s).
  change (across (fun s s' => J s -> J s') (Swapui.iteration p r)).
  assert (T : forall s1 s2 s3 : Swapui.Engine,
             (J s1 -> J s2) -> (J s2 -> J s3) -> J s1 -> J s3) by auto.
  unfold Swapui.iteration, Swapui.body.
  apply across_try; [exact T| |].
  - apply across_bind; [exact T| |intros _; apply across_bind;
                                    [exact T| |intros _]].
    + intros s [Hw Hc]. split.
      * exact (@swapui_poll_v2_keeps _ Push (v2_new_entries p) s Hw).
      * destruct (v2_new_entries p) as [logs|e]; [|exact Hc].
        rewrite swapui_poll_v2_batch. cbn [snd].
        destruct (log_trades_rest V2 (fst (batch v2_accept V2 logs)) s)
          as (_ & _ & _ & _ & _ & A6 & _).
        exact (@chart_ok_same _ _ A6 Hc).
    + intros s [Hw Hc]. split.
      * exact (@swapui_poll_v3_keeps _ Push (v3_new_entries p) s Hw).
      * destruct (v3_new_entries p) as [logs|e]; [|exact Hc].
        rewrite swapui_poll_v3_batch. cbn [snd].
        destruct (log_trades_rest V3 (fst (batch v3_accept V3 logs)) s)
          as (_ & _ & _ & _ & _ & A6 & _).
        exact (@chart_ok_same _ _ A6 Hc).
    + intros s. apply spot_refresh_chart_ok.
  - intros e s [[H2 H3] Hc].
    destruct (swapui_reconnect_aggregates r e s)
      as (A1 & A2 & _ & A4 & _).
    split; [split; [rewrite A1|rewrite A2]; assumption|].
    exact (@chart_ok_same _ _ A4 Hc).
Qed.

(** X19.  However long the engine runs, the combined VWAP of every chart
    point is [nan] -- no trade in either window at that refresh -- or a
    finite, strictly positive number: the chart never shows a zero, a
    negative or an infinite combined VWAP. *)
Theorem swapui_chart_combined_plain (c : Connect) (s0 : Swapui.Engine)
  (turns : list (Poll * Reconnect)) :
  Swapui.init c = Ok s0 ->
  Forall (fun pt : Swapui.point =>
            snd pt = NaN \/ finite_pos (snd pt))
    (Swapui.series (Swapui.run turns s0)).
Proof.
  intros H.
  assert (J0 : Swapui.windows_hold (Forall sound_entry) s0 /\ chart_ok s0).
  { destruct (swapui_init_empty _ H) as (A1 & A2 & _).
    destruct (swapui_init_cases c) as [[_ E]|[_ E]];
      [rewrite E in H; discriminate|].
    rewrite E in H. destruct (i_block_number c); [|discriminate].
    destruct (i_v2_filter c); [|discriminate].
    destruct (i_v3_filter c); [|discriminate].
    cbn [bind] in H. injection H as <-.
    split; [split; constructor|constructor]. }
  clear H. revert s0 J0.
  induction turns as [|[p r] rest IH]; intros s0 J0; [exact (proj2 J0)|].
  cbn [Swapui.run]. apply IH. apply swapui_iteration_chart_ok. exact J0.
Qed.

Lemma swapui_chart_combined_plain_witness :
  exists s0 : Swapui.Engine,
    Swapui.init connect_example = Ok s0 /\
    Forall (fun pt : Swapui.point =>
              snd pt = NaN \/ finite_pos (snd pt))
      (Swapui.series
         (Swapui.run [(poll_example, reconnect_example)] s0)).
Proof.
  eexists. split; [reflexivity|].
  apply (@swapui_chart_combined_plain connect_example _
           [(poll_example, reconnect_example)]).
  reflexivity.
Defined.
